(** * CMOR compliance checker (esmvalcore/cmor/check.py)

    A shallow embedding of the class [CMORCheck] and of the part of the
    iris / cf_units interface it calls, followed by the properties of the
    checker stated in the specification.

    Conventions of the embedding:
    - Python floats are rationals ([Q]); arithmetic on them is exact.
    - [None] is the [None] of [option]; a Python string that is tested for
      truth is true when it is not empty.
    - The checker is a mutable object: every method is a function from the
      checker's state to an outcome and a new state.  The state that a raised
      exception leaves behind is kept, as Python keeps it.
    - The payload array of a cube is not represented: no check reads it.  The
      library calls that permute or rescale it are modelled by what they do to
      the units and the coordinates.
    - Coordinates carry points only: the embedding covers cubes whose
      coordinates have no bounds. *)

From Stdlib Require Import String Ascii List Bool Arith ZArith QArith Qround Lia.
From Stdlib Require Import DecimalString Lqa Permutation.
Import ListNotations.
Local Open Scope list_scope.
Local Open Scope string_scope.

(** ** Python strings *)

Definition nl : string := String (ascii_of_nat 10) "".

Definition truthy (s : string) : bool := negb (s =? "").

Definition lower_ascii (c : ascii) : ascii :=
  let n := nat_of_ascii c in
  if (65 <=? n)%nat && (n <=? 90)%nat then ascii_of_nat (n + 32) else c.

Fixpoint lower (s : string) : string :=
  match s with
  | EmptyString => EmptyString
  | String c r => String (lower_ascii c) (lower r)
  end.

(** [sep.join(l)] *)
Fixpoint join (sep : string) (l : list string) : string :=
  match l with
  | [] => ""
  | [x] => x
  | x :: r => x ++ sep ++ join sep r
  end.

(** [s.endswith('hr')] *)
Fixpoint endswith_hr (s : string) : bool :=
  match s with
  | EmptyString => false
  | String c r => if r =? "r" then (c =? "h")%char else endswith_hr r
  end.

(** [s[:-2]] *)
Fixpoint drop_last2 (s : string) : string :=
  match s with
  | String c ((String _ (String _ _)) as r) => String c (drop_last2 r)
  | _ => ""
  end.

(** [str(x)] of an optional string: [None] prints as the word None. *)
Definition str_opt (o : option string) : string :=
  match o with Some s => s | None => "None" end.

Definition opt_eqb (a b : option string) : bool :=
  match a, b with
  | Some x, Some y => x =? y
  | None, None => true
  | _, _ => false
  end.

Definition digit_of (c : ascii) : option nat :=
  let n := nat_of_ascii c in
  if (48 <=? n)%nat && (n <=? 57)%nat then Some (n - 48)%nat else None.

(** [str.format] for the replacement fields the checker's
    templates use: [{}] (numbered in order of appearance) and [{N}] with one
    digit.  [None] stands for the exception Python raises when an argument is
    missing or a brace is unbalanced. *)
Fixpoint format_from (auto : nat) (s : string) (args : list string)
  : option string :=
  match s with
  | EmptyString => Some ""
  | String c r =>
      if (c =? "{")%char then
        match r with
        | String c2 r2 =>
            if (c2 =? "}")%char then
              match nth_error args auto, format_from (S auto) r2 args with
              | Some a, Some t => Some (a ++ t)
              | _, _ => None
              end
            else
              match digit_of c2, r2 with
              | Some d, String c3 r3 =>
                  if (c3 =? "}")%char then
                    match nth_error args d, format_from auto r3 args with
                    | Some a, Some t => Some (a ++ t)
                    | _, _ => None
                    end
                  else None
              | _, _ => None
              end
        | EmptyString => None
        end
      else if (c =? "}")%char then None
      else option_map (String c) (format_from auto r args)
  end.

Definition format (s : string) (args : list string) : option string :=
  format_from 0 s args.

(** ** Data model: units, coordinates, cubes *)

(** A [cf_units.Unit]: [str(unit)] is the string it was built from. *)
Record Unit := mkUnit { origin : string; calendar : option string }.

Definition str_unit (u : Unit) : string := origin u.

(** An iris coordinate without bounds.  [dims] are the cube dimensions it is
    mapped to, [ndim] the number of dimensions of its own point array.  For a
    coordinate of more than one dimension [points] lists the entries along
    the leading axis. *)
Record Coord := mkCoord {
  var_name : option string;
  standard_name : option string;
  long_name : option string;
  units : Unit;
  points : list Q;
  ndim : nat;
  dims : list nat
}.

Record Cube := mkCube {
  cube_var_name : option string;
  cube_standard_name : option string;
  cube_units : Unit;
  attributes : list (string * string);
  cube_ndim : nat;
  dim_coords : list Coord;
  aux_coords : list Coord
}.

(** A calendar date as [cftime] returns it; [dayofyr] is the day of the year
    in the date's calendar. *)
Record datetime := mkDate { year : Z; month : Z; day : Z; dayofyr : Z }.

(** ** The variable specification (CMOR table entries)

    [VariableInfo] and [CoordinateInfo] are built by the table reader, which
    keeps every entry as the string found in the table; an absent entry is the
    empty string. *)

Record CoordinateInfo := mkCoordinateInfo {
  ci_name : string;
  ci_standard_name : string;
  ci_out_name : string;
  ci_units : string;
  ci_stored_direction : string;
  ci_valid_min : string;
  ci_valid_max : string;
  ci_generic_level : bool;
  ci_requested : list string;
  ci_value : string
}.

Record VariableInfo := mkVariableInfo {
  vi_standard_name : string;
  vi_units : string;
  vi_positive : string;
  vi_frequency : string;
  vi_coordinates : list (string * CoordinateInfo)
}.

(** [coordinates.values()] *)
Definition coordinates_values (v : VariableInfo) : list CoordinateInfo :=
  map snd (vi_coordinates v).

(** ** The library interface

    Functions of Python, cf_units and iris whose results the checker uses but
    whose computation lies outside the repository.  The properties below hold
    for every implementation of this interface. *)

Class Library := {
  (** [float(s)]; [None] is [ValueError] *)
  py_float : string -> option Q;
  (** [str(x)] of a float *)
  str_float : Q -> string;
  (** [str(cube)], the cube summary *)
  str_cube : Cube -> string;
  (** [unit.is_convertible(other)] *)
  is_convertible : Unit -> string -> bool;
  (** [unit.is_unknown()] *)
  is_unknown : Unit -> bool;
  (** [cf_units.Unit(s, calendar)] builds a unit; [false] is the
      [ValueError] of a string that is not a unit *)
  valid_unit : string -> option string -> bool;
  (** [unit.convert(points, other)] of cf_units, which the [convert_units]
      of iris calls for units that are not unknown; [None] is [ValueError]
      (the units are not convertible) *)
  convert_points : Unit -> Unit -> list Q -> option (list Q);
  (** [unit.is_time_reference()] *)
  is_time_reference : Unit -> bool;
  (** [unit.num2date(x)] for a time reference unit *)
  num2date : Unit -> Q -> datetime;
  (** [unit.modulus] *)
  modulus : Unit -> option Q
}.

(** ** Exceptions and the checker's state *)

(** [CoordinateMultiDimError] is a subclass of [ValueError] in iris; it is
    kept apart because no handler of the checker is in its way.
    [UnitConversionError] is not a [ValueError]. *)
Inductive exn :=
| CMORCheckError (msg : string)
| CoordinateNotFoundError
| CoordinateMultiDimError
| UnitConversionError
| ValueError
| AttributeError
| IndexError.

(** [isinstance(e, ValueError)], what [except ValueError] catches *)
Definition value_error (e : exn) : bool :=
  match e with
  | ValueError | CoordinateMultiDimError => true
  | _ => false
  end.

Inductive result (A : Type) :=
| Ok (a : A)
| Raise (e : exn).
Arguments Ok {A} a.
Arguments Raise {A} e.

(** The attributes of a [CMORCheck] object, and the two output channels its
    methods write to: [printed] is what [print] has written, [logged] what the
    logger has received. *)
Record CMORCheck := mkCMORCheck {
  _cube : Cube;
  _failerr : bool;
  _errors : list string;
  _warnings : list string;
  _cmor_var : VariableInfo;
  frequency : string;
  automatic_fixes : bool;
  printed : list string;
  logged : list string
}.

(** [CMORCheck.__init__] *)
Definition init (cube : Cube) (var_info : VariableInfo)
    (freq : option string) (fail_on_error automatic : bool) : CMORCheck :=
  {| _cube := cube;
     _failerr := fail_on_error;
     _errors := [];
     _warnings := [];
     _cmor_var := var_info;
     frequency := match freq with None => vi_frequency var_info | Some f => f end;
     automatic_fixes := automatic;
     printed := [];
     logged := [] |}.

Definition set_cube (c : Cube) (s : CMORCheck) : CMORCheck :=
  {| _cube := c; _failerr := _failerr s; _errors := _errors s;
     _warnings := _warnings s; _cmor_var := _cmor_var s;
     frequency := frequency s; automatic_fixes := automatic_fixes s;
     printed := printed s; logged := logged s |}.

Definition set_errors (l : list string) (s : CMORCheck) : CMORCheck :=
  {| _cube := _cube s; _failerr := _failerr s; _errors := l;
     _warnings := _warnings s; _cmor_var := _cmor_var s;
     frequency := frequency s; automatic_fixes := automatic_fixes s;
     printed := printed s; logged := logged s |}.

Definition set_warnings (l : list string) (s : CMORCheck) : CMORCheck :=
  {| _cube := _cube s; _failerr := _failerr s; _errors := _errors s;
     _warnings := l; _cmor_var := _cmor_var s;
     frequency := frequency s; automatic_fixes := automatic_fixes s;
     printed := printed s; logged := logged s |}.

Definition set_printed (l : list string) (s : CMORCheck) : CMORCheck :=
  {| _cube := _cube s; _failerr := _failerr s; _errors := _errors s;
     _warnings := _warnings s; _cmor_var := _cmor_var s;
     frequency := frequency s; automatic_fixes := automatic_fixes s;
     printed := l; logged := logged s |}.

Definition set_logged (l : list string) (s : CMORCheck) : CMORCheck :=
  {| _cube := _cube s; _failerr := _failerr s; _errors := _errors s;
     _warnings := _warnings s; _cmor_var := _cmor_var s;
     frequency := frequency s; automatic_fixes := automatic_fixes s;
     printed := printed s; logged := l |}.

(** A method: from the state to an outcome and the state it leaves. *)
Definition M (A : Type) : Type := CMORCheck -> result A * CMORCheck.

Definition ret {A} (a : A) : M A := fun s => (Ok a, s).

Definition raise {A} (e : exn) : M A := fun s => (Raise e, s).

Definition bind {A B} (m : M A) (k : A -> M B) : M B :=
  fun s => match m s with
           | (Ok a, s') => k a s'
           | (Raise e, s') => (Raise e, s')
           end.

Definition get : M CMORCheck := fun s => (Ok s, s).

Definition modify (f : CMORCheck -> CMORCheck) : M unit :=
  fun s => (Ok tt, f s).

Notation "x <- m ;; k" := (bind m (fun x => k))
  (at level 61, m at next level, right associativity).
Notation "m ;; k" := (bind m (fun _ => k))
  (at level 61, right associativity).

(** [if c: m] *)
Definition when (c : bool) (m : M unit) : M unit := if c then m else ret tt.

(** [for x in l: body(x)] *)
Fixpoint for_each {A} (l : list A) (body : A -> M unit) : M unit :=
  match l with
  | [] => ret tt
  | x :: r => body x ;; for_each r body
  end.

(** A library call that may raise: [None] becomes the exception [e]. *)
Definition lift_opt {A} (o : option A) (e : exn) : M A :=
  match o with Some a => ret a | None => raise e end.

(** A library call with its own outcome *)
Definition lift_result {A} (r : result A) : M A :=
  match r with Ok a => ret a | Raise e => raise e end.

(** ** The cube operations of iris that the checker calls *)

Definition nonempty (o : option string) : option string :=
  match o with
  | Some s => if truthy s then Some s else None
  | None => None
  end.

(** [coord.name()]: the first of standard name, long name and variable name
    that is set, or else the word unknown *)
Definition name (c : Coord) : string :=
  match nonempty (standard_name c) with
  | Some s => s
  | None =>
      match nonempty (long_name c) with
      | Some s => s
      | None =>
          match nonempty (var_name c) with
          | Some s => s
          | None => "unknown"
          end
      end
  end.

(** [cube.coords()]: dimension coordinates first *)
Definition all_coords (c : Cube) : list Coord := dim_coords c ++ aux_coords c.

(** [cube.coord(...)] wants exactly one match; none or several raise
    [CoordinateNotFoundError] *)
Definition the_one {A} (l : list A) : option A :=
  match l with
  | [x] => Some x
  | _ => None
  end.

Definition indexed {A} (l : list A) : list (nat * A) :=
  combine (seq 0 (length l)) l.

Definition has_var_name (v : string) (c : Coord) : bool :=
  opt_eqb (var_name c) (Some v).

Definition has_name (n : string) (c : Coord) : bool := name c =? n.

(** [cube.coord(var_name=v)] *)
Definition coord_by_var_name (c : Cube) (v : string) : option Coord :=
  the_one (filter (has_var_name v) (all_coords c)).

(** [cube.coord(n)] *)
Definition coord_by_name (c : Cube) (n : string) : option Coord :=
  the_one (filter (has_name n) (all_coords c)).

(** [cube.coord(var_name=v, dim_coords=True)], with the position of the
    coordinate among the dimension coordinates: the checker changes the
    coordinate it gets in place *)
Definition dim_coord_by_var_name (c : Cube) (v : string)
  : option (nat * Coord) :=
  the_one (filter (fun ic => has_var_name v (snd ic)) (indexed (dim_coords c))).

(** [cube.coord(n, dim_coords=True)] *)
Definition dim_coord_by_name (c : Cube) (n : string) : option (nat * Coord) :=
  the_one (filter (fun ic => has_name n (snd ic)) (indexed (dim_coords c))).

Fixpoint replace_nth {A} (i : nat) (x : A) (l : list A) : list A :=
  match l, i with
  | [], _ => []
  | _ :: r, O => x :: r
  | y :: r, S j => y :: replace_nth j x r
  end.

Definition with_coords (c : Cube) (dc ac : list Coord) : Cube :=
  {| cube_var_name := cube_var_name c;
     cube_standard_name := cube_standard_name c;
     cube_units := cube_units c;
     attributes := attributes c;
     cube_ndim := cube_ndim c;
     dim_coords := dc;
     aux_coords := ac |}.

(** The cube after its [i]-th dimension coordinate was changed in place *)
Definition set_dim_coord (c : Cube) (i : nat) (co : Coord) : Cube :=
  with_coords c (replace_nth i co (dim_coords c)) (aux_coords c).

Definition with_units (c : Cube) (u : Unit) : Cube :=
  {| cube_var_name := cube_var_name c;
     cube_standard_name := cube_standard_name c;
     cube_units := u;
     attributes := attributes c;
     cube_ndim := cube_ndim c;
     dim_coords := dim_coords c;
     aux_coords := aux_coords c |}.

Definition with_attributes (c : Cube) (a : list (string * string)) : Cube :=
  {| cube_var_name := cube_var_name c;
     cube_standard_name := cube_standard_name c;
     cube_units := cube_units c;
     attributes := a;
     cube_ndim := cube_ndim c;
     dim_coords := dim_coords c;
     aux_coords := aux_coords c |}.

Definition set_points (co : Coord) (p : list Q) : Coord :=
  {| var_name := var_name co; standard_name := standard_name co;
     long_name := long_name co; units := units co; points := p;
     ndim := ndim co; dims := dims co |}.

Definition set_units (co : Coord) (u : Unit) : Coord :=
  {| var_name := var_name co; standard_name := standard_name co;
     long_name := long_name co; units := u; points := points co;
     ndim := ndim co; dims := dims co |}.

(** Attributes are a Python dict *)
Fixpoint attr_get (a : list (string * string)) (k : string) : option string :=
  match a with
  | [] => None
  | (k', v) :: r => if k' =? k then Some v else attr_get r k
  end.

Definition attr_del (a : list (string * string)) (k : string)
  : list (string * string) :=
  filter (fun kv => negb (fst kv =? k)) a.

Definition Qltb (x y : Q) : bool := negb (Qle_bool y x).

(** [iris.util.monotonic(points, strict=True)] on two points or more *)
Fixpoint increasing (l : list Q) : bool :=
  match l with
  | x :: ((y :: _) as r) => Qltb x y && increasing r
  | _ => true
  end.

Fixpoint decreasing (l : list Q) : bool :=
  match l with
  | x :: ((y :: _) as r) => Qltb y x && decreasing r
  | _ => true
  end.

(** [coord.is_monotonic()]: iris raises [CoordinateMultiDimError] unless the
    coordinate has exactly one dimension; a single point is monotonic; for
    any other length [iris.util.monotonic] decides, which refuses an array
    without elements with [ValueError]. *)
Definition is_monotonic (co : Coord) : result bool :=
  if negb (ndim co =? 1)%nat then Raise CoordinateMultiDimError
  else
    match points co with
    | [] => Raise ValueError
    | _ => Ok (increasing (points co) || decreasing (points co))
    end.

(** Whether a coordinate runs along one of the dimensions [ds]. *)
Definition on_dims (ds : list nat) (co : Coord) : bool :=
  match dims co with
  | d :: _ => existsb (Nat.eqb d) ds
  | [] => false
  end.

(** [iris.util.reverse(cube, ds)]: every coordinate along one of the
    dimensions is reversed with the data *)
Definition reverse (c : Cube) (ds : list nat) : Cube :=
  let rv co := if on_dims ds co then set_points co (rev (points co)) else co in
  with_coords c (map rv (dim_coords c)) (map rv (aux_coords c)).

Section Checker.

Context {L : Library}.

(** [cube.convert_units(unit)]: iris refuses a cube of unknown units with
    [UnitConversionError]; otherwise cf_units converts the data, or raises
    [ValueError] when the units are not convertible. *)
Definition cube_convert_units (c : Cube) (unit : string) : result Cube :=
  if is_unknown (cube_units c) then Raise UnitConversionError
  else if is_convertible (cube_units c) unit
  then Ok (with_units c (mkUnit unit None))
  else Raise ValueError.

(** [coord.convert_units(unit)], in the same way *)
Definition coord_convert_units (co : Coord) (unit : Unit) : result Coord :=
  if is_unknown (units co) then Raise UnitConversionError
  else
    match convert_points (units co) unit (points co) with
    | Some p => Ok (set_units (set_points co p) unit)
    | None => Raise ValueError
    end.

(** *** [cube.intersection] with the extent [0 <= longitude < 360]

    For a coordinate without bounds iris brings every point into the range by
    whole turns and, when that splits the axis in two blocks, puts the second
    block first, so that the axis stays monotonic.  Every coordinate along the
    same dimension is cut and joined with it.  iris refuses units without a
    modulus, a requested range wider than the modulus (cf_units knows the
    moduli 360 and two pi) and points that span more than the modulus. *)

Definition turns (p : Q) : Z := Qfloor (p / 360).

Definition wrap_lon (p : Q) : Q := (p - 360 * inject_Z (turns p))%Q.

(** Position of the first point that is not as many turns away as the point
    before it; 0 when there is none *)
Fixpoint split_index (prev : Z) (l : list Q) (i : nat) : nat :=
  match l with
  | [] => 0%nat
  | p :: r => if (turns p =? prev)%Z then split_index (turns p) r (S i) else i
  end.

Definition second_block (l : list Q) : nat :=
  match l with
  | [] => 0%nat
  | p :: r => split_index (turns p) r 1
  end.

Definition rotate {A} (k : nat) (l : list A) : list A :=
  skipn k l ++ firstn k l.

Definition too_wide (l : list Q) : bool :=
  existsb (fun p => existsb (fun q => Qltb (p + 360) q) l) l.

Definition intersection (c : Cube) (i : nat) (co : Coord) : option Cube :=
  match modulus (units co) with
  | None => None
  | Some m =>
      if negb (Qeq_bool m 360) then None
      else if too_wide (points co) then None
      else
        let k := second_block (points co) in
        let rot x :=
          if on_dims (dims co) x then set_points x (rotate k (points x))
          else x in
        let c' := with_coords c (map rot (dim_coords c))
                                (map rot (aux_coords c)) in
        Some (set_dim_coord c' i
                (set_points co (rotate k (map wrap_lon (points co)))))
  end.

(** *** [iris.coord_categorisation.add_categorised_coord]

    The new auxiliary coordinate lies along the dimensions of the coordinate
    it is derived from; none of the four category names is a CF standard
    name, so [rename] stores the name as the long name. *)
Definition add_categorised_coord (c : Cube) (nm : string)
    (category : datetime -> Z) : result Cube :=
  match coord_by_name c "time" with
  | None => Raise CoordinateNotFoundError
  | Some t =>
      if existsb (has_name nm) (all_coords c) then Raise ValueError
      else if negb (is_time_reference (units t)) then Raise ValueError
      else
        let new_coord :=
          {| var_name := None; standard_name := None; long_name := Some nm;
             units := mkUnit "1" None;
             points := map (fun x => inject_Z (category (num2date (units t) x)))
                           (points t);
             ndim := ndim t; dims := dims t |} in
        Ok (with_coords c (dim_coords c) (aux_coords c ++ [new_coord])%list)
  end.

(** ** The methods of [CMORCheck] *)

Definition _attr_msg := "{}: {} should be {}, not {}".
Definition _does_msg := "{}: does not {}".
Definition _is_msg := "{}: is not {}".
Definition _vals_msg := "{}: has values {} {}".
Definition _contain_msg := "{}: does not contain {} {}".

(** A formatting that fails raises (an [IndexError] for a missing argument) *)
Definition fmt (template : string) (args : list string) : M string :=
  lift_opt (format template args) IndexError.

Definition has_errors : M bool :=
  s <- get ;; ret (0 <? length (_errors s))%nat.

Definition has_warnings : M bool :=
  s <- get ;; ret (0 <? length (_warnings s))%nat.

Definition report_error (message : string) (args : list string) : M unit :=
  msg <- fmt message args ;;
  s <- get ;;
  if _failerr s then
    tail <- fmt (nl ++ "in cube:" ++ nl ++ "{}") [str_cube (_cube s)] ;;
    raise (CMORCheckError (msg ++ tail))
  else modify (fun s => set_errors (_errors s ++ [msg])%list s).

Definition report_warning (message : string) (args : list string) : M unit :=
  msg <- fmt message args ;;
  s <- get ;;
  if _failerr s then
    line <- fmt "WARNING: {0}" [msg] ;;
    modify (fun s => set_printed (printed s ++ [line])%list s)
  else modify (fun s => set_warnings (_warnings s ++ [msg])%list s).

Definition report_errors : M unit :=
  b <- has_errors ;;
  if b then
    s <- get ;;
    msg <- fmt ("There were errors in variable {}:" ++ nl ++ "{}" ++ nl
                ++ "in cube:" ++ nl ++ "{}")
               [str_opt (cube_var_name (_cube s));
                join (nl ++ " ") (_errors s);
                str_cube (_cube s)] ;;
    raise (CMORCheckError msg)
  else ret tt.

Definition report_warnings : M unit :=
  b <- has_warnings ;;
  if b then
    s <- get ;;
    msg <- fmt ("There were warnings in variable {}:" ++ nl ++ "{}" ++ nl)
               [str_opt (cube_var_name (_cube s));
                join (nl ++ " ") (_warnings s)] ;;
    modify (fun s => set_logged (logged s ++ [msg])%list s)
  else ret tt.

Definition _check_fill_value : M unit := ret tt.

Definition _get_effective_units : M string :=
  s <- get ;;
  if lower (vi_units (_cmor_var s)) =? "psu" then ret "1.0"
  else ret (vi_units (_cmor_var s)).

(** [getattr(var_info, attr)] for the attributes the checker looks at *)
Definition getattr (v : VariableInfo) (attr : string) : M string :=
  if attr =? "positive" then ret (vi_positive v) else raise AttributeError.

(** [_check_var_metadata] has three blocks, each under a comment of its own;
    the second one first repairs the legacy units attribute. *)

(* Check standard_name *)
Definition check_standard_name : M unit :=
  s <- get ;;
  when (truthy (vi_standard_name (_cmor_var s)))
    (when (negb (opt_eqb (cube_standard_name (_cube s))
                         (Some (vi_standard_name (_cmor_var s)))))
       (report_error _attr_msg
          [str_opt (cube_var_name (_cube s)); "standard_name";
           vi_standard_name (_cmor_var s);
           str_opt (cube_standard_name (_cube s))])).

(* Check units *)
Definition fix_invalid_units : M unit :=
  s <- get ;;
  when (automatic_fixes s
        && (lower (match attr_get (attributes (_cube s)) "invalid_units" with
                   | Some v => v
                   | None => ""
                   end) =? "psu"))
    (modify (fun s => set_cube (with_units (_cube s) (mkUnit "1.0" None)) s) ;;
     modify (fun s =>
       set_cube (with_attributes (_cube s)
                   (attr_del (attributes (_cube s)) "invalid_units")) s)).

Definition check_units : M unit :=
  s <- get ;;
  when (truthy (vi_units (_cmor_var s)))
    (units <- _get_effective_units ;;
     s <- get ;;
     when (negb (is_convertible (cube_units (_cube s)) units))
       (report_error
          ("Variable " ++ str_opt (cube_var_name (_cube s)) ++ " units "
           ++ str_unit (cube_units (_cube s)) ++ " can not be "
           ++ "converted to " ++ vi_units (_cmor_var s)) [])).

(* Check other variable attributes that match entries in cube.attributes *)
Definition check_attributes : M unit :=
  for_each ["positive"] (fun attr =>
    s <- get ;;
    attr_value <- getattr (_cmor_var s) attr ;;
    when (truthy attr_value)
      (match attr_get (attributes (_cube s)) attr with
       | None =>
           report_warning "{}: attribute {} not present"
             [str_opt (cube_var_name (_cube s)); attr]
       | Some v =>
           when (negb (v =? attr_value))
             (report_error _attr_msg
                [str_opt (cube_var_name (_cube s)); attr; attr_value; v])
       end)).

Definition _check_var_metadata : M unit :=
  check_standard_name ;;
  fix_invalid_units ;;
  check_units ;;
  check_attributes.

(** The dimensions that [_check_rank] collects, and the count of generic
    levels *)
Fixpoint rank_scan (c : Cube) (l : list CoordinateInfo) (rank : nat)
    (dimensions : list nat) : nat * list nat :=
  match l with
  | [] => (rank, dimensions)
  | coordinate :: r =>
      if ci_generic_level coordinate then
        rank_scan c r (rank + 1) dimensions
      else if negb (truthy (ci_value coordinate)) then
        match coord_by_name c (ci_standard_name coordinate) with
        | Some co => rank_scan c r rank (dimensions ++ dims co)%list
        | None => rank_scan c r rank dimensions
        end
      else rank_scan c r rank dimensions
  end.

Definition _check_rank : M unit :=
  s <- get ;;
  let '(rank, dimensions) :=
    rank_scan (_cube s) (coordinates_values (_cmor_var s)) 0 [] in
  let rank := (rank + length (nodup Nat.eq_dec dimensions))%nat in
  (* Check number of dimension coords matches rank *)
  when (negb (cube_ndim (_cube s) =? rank)%nat)
    (report_error _does_msg
       [str_opt (cube_var_name (_cube s)); "match coordinate rank"]).

Definition _check_dim_names : M unit :=
  s <- get ;;
  for_each (vi_coordinates (_cmor_var s)) (fun '(_, coordinate) =>
    if ci_generic_level coordinate then ret tt
    else
      s <- get ;;
      match coord_by_var_name (_cube s) (ci_out_name coordinate) with
      | Some cube_coord =>
          when (negb (opt_eqb (standard_name cube_coord)
                              (Some (ci_standard_name coordinate))))
            (report_error _attr_msg
               [ci_out_name coordinate; "standard_name";
                ci_standard_name coordinate;
                str_opt (standard_name cube_coord)])
      | None =>
          match coord_by_name (_cube s) (ci_standard_name coordinate) with
          | Some coord =>
              report_error "Coordinate {0} has var name {1} instead of {2}"
                [ci_name coordinate; str_opt (var_name coord);
                 ci_out_name coordinate]
          | None =>
              report_error _does_msg [ci_name coordinate; "exist"]
          end
      end).

Definition _reverse_coord (coord : Coord) : M unit :=
  when (ndim coord =? 1)%nat
    (modify (fun s => set_cube (reverse (_cube s) (dims coord)) s)).

(** [coord.points[i]] *)
Definition point_at (coord : Coord) (i : nat) : M Q :=
  lift_opt (nth_error (points coord) i) IndexError.

Definition _check_coord_monotonicity_and_direction (cmor : CoordinateInfo)
    (coord : Coord) (vn : string) : M unit :=
  monotonic <- lift_result (is_monotonic coord) ;;
  when (negb monotonic) (report_error _is_msg [vn; "monotonic"]) ;;
  if (length (points coord) =? 1)%nat then ret tt
  else
    when (truthy (ci_stored_direction cmor))
      (if ci_stored_direction cmor =? "increasing" then
         p0 <- point_at coord 0 ;;
         p1 <- point_at coord 1 ;;
         when (Qltb p1 p0)
           (s <- get ;;
            if negb (automatic_fixes s) || (1 <? ndim coord)%nat then
              report_error _is_msg [vn; "increasing"]
            else _reverse_coord coord)
       else if ci_stored_direction cmor =? "decreasing" then
         p0 <- point_at coord 0 ;;
         p1 <- point_at coord 1 ;;
         when (Qltb p0 p1)
           (s <- get ;;
            if negb (automatic_fixes s) || (1 <? ndim coord)%nat then
              report_error _is_msg [vn; "decreasing"]
            else _reverse_coord coord)
       else ret tt).

(** [[float(val) for val in requested]] *)
Fixpoint floats (l : list string) : M (list Q) :=
  match l with
  | [] => ret []
  | v :: r =>
      x <- lift_opt (py_float v) ValueError ;;
      xs <- floats r ;;
      ret (x :: xs)
  end.

Definition _check_requested_values (coord : Coord)
    (coord_info : CoordinateInfo) (vn : string) : M unit :=
  match ci_requested coord_info with
  | [] => ret tt
  | requested =>
      cmor_points <- floats requested ;;
      let coord_points := points coord in
      for_each cmor_points (fun point =>
        when (negb (existsb (Qeq_bool point) coord_points))
          (report_warning _contain_msg
             [vn; str_float point; str_unit (units coord)]))
  end.

(** The two range tests of [_check_coord_values]; each returns the flag
    [l_fix_coord_value] as it leaves it. *)
Definition check_valid_min (coord_info : CoordinateInfo) (coord : Coord)
    (vn : string) (l_fix_coord_value : bool) : M bool :=
  if truthy (ci_valid_min coord_info) then
    valid_min <- lift_opt (py_float (ci_valid_min coord_info)) ValueError ;;
    if existsb (fun p => Qltb p valid_min) (points coord) then
      s <- get ;;
      if (ci_standard_name coord_info =? "longitude") && automatic_fixes s
      then ret true
      else
        bound <- fmt "< {} =" ["valid_min"] ;;
        report_error _vals_msg [vn; bound; str_float valid_min] ;;
        ret l_fix_coord_value
    else ret l_fix_coord_value
  else ret l_fix_coord_value.

Definition check_valid_max (coord_info : CoordinateInfo) (coord : Coord)
    (vn : string) (l_fix_coord_value : bool) : M bool :=
  if truthy (ci_valid_max coord_info) then
    valid_max <- lift_opt (py_float (ci_valid_max coord_info)) ValueError ;;
    if existsb (fun p => Qltb valid_max p) (points coord) then
      s <- get ;;
      if (ci_standard_name coord_info =? "longitude") && automatic_fixes s
      then ret true
      else
        bound <- fmt "> {} =" ["valid_max"] ;;
        report_error _vals_msg [vn; bound; str_float valid_max] ;;
        ret l_fix_coord_value
    else ret l_fix_coord_value
  else ret l_fix_coord_value.

(** [i] is the position of [coord] among the dimension coordinates of the
    cube: [cube.intersection] is given the coordinate itself. *)
Definition _check_coord_values (coord_info : CoordinateInfo) (i : nat)
    (coord : Coord) (vn : string) : M unit :=
  (* Check requested coordinate values exist in coord.points *)
  _check_requested_values coord coord_info vn ;;
  let l_fix_coord_value := false in
  (* Check coordinate value ranges *)
  l_fix_coord_value <- check_valid_min coord_info coord vn l_fix_coord_value ;;
  l_fix_coord_value <- check_valid_max coord_info coord vn l_fix_coord_value ;;
  when l_fix_coord_value
    (s <- get ;;
     c <- lift_opt (intersection (_cube s) i coord) ValueError ;;
     modify (set_cube c)).

(** The [try] block of [_check_coord]: [Ok (Some coord')] when the
    coordinate was converted ([fixed = True]), [Ok None] when a [ValueError]
    was caught, from the construction of the new unit or from the
    conversion; the [UnitConversionError] of a coordinate of unknown units
    is not a [ValueError] and passes the handler. *)
Definition try_convert_units (cmor : CoordinateInfo) (coord : Coord)
  : result (option Coord) :=
  if negb (valid_unit (ci_units cmor) (calendar (units coord))) then Ok None
  else
    let new_unit := mkUnit (ci_units cmor) (calendar (units coord)) in
    match coord_convert_units coord new_unit with
    | Ok coord' => Ok (Some coord')
    | Raise e => if value_error e then Ok None else Raise e
    end.

(** [coord.convert_units(new_unit)] changes the coordinate of the cube in
    place; the coordinate the method goes on with is the changed one. *)
Definition _check_coord (cmor : CoordinateInfo) (i : nat) (coord : Coord)
    (vn : string) : M unit :=
  if opt_eqb (var_name coord) (Some "time") then ret tt
  else
    coord <-
      (if truthy (ci_units cmor)
          && negb (str_unit (units coord) =? ci_units cmor) then
         s <- get ;;
         fixed <- (if automatic_fixes s
                   then lift_result (try_convert_units cmor coord)
                   else ret None) ;;
         match fixed with
         | Some coord' =>
             modify (fun s => set_cube (set_dim_coord (_cube s) i coord') s) ;;
             ret coord'
         | None =>
             report_error _attr_msg
               [vn; "units"; ci_units cmor; str_unit (units coord)] ;;
             ret coord
         end
       else ret coord) ;;
    _check_coord_values cmor i coord vn ;;
    s <- get ;;
    when (negb (automatic_fixes s))
      (_check_coord_monotonicity_and_direction cmor coord vn).

(** The body of the loop of [_check_coords] *)
Definition check_coords_body (coordinate : CoordinateInfo) : M unit :=
  (* Cannot check generic_level coords as no CMOR information *)
  if ci_generic_level coordinate then ret tt
  else
    let vn := ci_out_name coordinate in
    (* Get coordinate var_name as it exists! *)
    s <- get ;;
    match dim_coord_by_var_name (_cube s) vn with
    | None => ret tt
    | Some (i, coord) => _check_coord coordinate i coord vn
    end.

Definition _check_coords : M unit :=
  s <- get ;;
  for_each (coordinates_values (_cmor_var s)) check_coords_body.

Definition _check_coords_data : M unit :=
  s <- get ;;
  for_each (coordinates_values (_cmor_var s)) (fun coordinate =>
    if ci_generic_level coordinate then ret tt
    else
      let vn := ci_out_name coordinate in
      s <- get ;;
      match dim_coord_by_var_name (_cube s) vn with
      | None => ret tt
      | Some (_, coord) =>
          _check_coord_monotonicity_and_direction coordinate coord vn
      end).

Definition _simplify_calendar (calendar : option string) : option string :=
  let calendar_aliases :=
    [("all_leap", "366_day"); ("noleap", "365_day");
     ("standard", "gregorian")] in
  match calendar with
  | Some c =>
      match attr_get calendar_aliases c with
      | Some a => Some a
      | None => calendar
      end
  | None => calendar
  end.

(** [coord.cell(i).point] for every point.  iris turns a point into a date
    only for a time reference unit; otherwise the cell holds the number, and
    asking it for its month raises [AttributeError] in the first round of the
    loop.  With fewer than two points the loop body never runs. *)
Definition cell_points (coord : Coord) : M (list datetime) :=
  if (length (points coord) <? 2)%nat then ret []
  else if is_time_reference (units coord) then
    ret (map (num2date (units coord)) (points coord))
  else raise AttributeError.

Definition frequency_msg := "{}: Frequency {} does not match input data".

(** The loop of the monthly frequency; reporting ends it ([break]). *)
Fixpoint mon_scan (vn freq : string) (cells : list datetime) : M unit :=
  match cells with
  | first :: ((second :: _) as rest) =>
      let second_month := (month first + 1)%Z in
      let second_year := year first in
      let '(second_month, second_year) :=
        if (second_month =? 13)%Z then (1%Z, (second_year + 1)%Z)
        else (second_month, second_year) in
      if negb (second_month =? month second)%Z
         || negb (second_year =? year second)%Z
      then report_error frequency_msg [vn; freq]
      else mon_scan vn freq rest
  | _ => ret tt
  end.

(** The loop of the yearly frequency *)
Fixpoint yr_scan (vn freq : string) (cells : list datetime) : M unit :=
  match cells with
  | first :: ((second :: _) as rest) =>
      if negb (year first + 1 =? year second)%Z
      then report_error frequency_msg [vn; freq]
      else yr_scan vn freq rest
  | _ => ret tt
  end.

(** The loop of the frequencies with a fixed interval *)
Fixpoint interval_scan (vn freq : string) (target_interval : Q * Q)
    (pts : list Q) : M unit :=
  match pts with
  | p :: ((q :: _) as rest) =>
      let interval := (q - p)%Q in
      if Qltb interval (fst target_interval)
         || Qltb (snd target_interval) interval
      then report_error frequency_msg [vn; freq]
      else interval_scan vn freq target_interval rest
  | _ => ret tt
  end.

Definition tol : Q := 1 # 1000.

Definition intervals : list (string * (Q * Q)) :=
  [("dec", (3600, 3660)%Q); ("day", (1, 1)%Q)].

Fixpoint intervals_get (l : list (string * (Q * Q))) (k : string)
  : option (Q * Q) :=
  match l with
  | [] => None
  | (k', v) :: r => if k' =? k then Some v else intervals_get r k
  end.

(** [_check_time_coord] in its three steps: it looks the time axis up,
    brings it to the reference epoch and a simplified calendar (changing the
    coordinate of the cube in place), and compares the points with the
    frequency. *)

Definition reference_epoch : string := "days since 1950-1-1 00:00:00".

(** The units that [convert_units] finds here are a time reference, hence
    not unknown: the call comes down to the conversion of cf_units. *)
Definition normalize_time (i : nat) (coord : Coord) (vn : string)
  : M Coord :=
  if negb (is_time_reference (units coord)) then
    report_error _does_msg [vn; "have time reference units"] ;;
    ret coord
  else
    let target := mkUnit reference_epoch (calendar (units coord)) in
    p <- lift_opt (convert_points (units coord) target (points coord))
                  ValueError ;;
    let coord := set_units (set_points coord p) target in
    let simplified_cal := _simplify_calendar (calendar (units coord)) in
    let coord :=
      set_units coord (mkUnit (origin (units coord)) simplified_cal) in
    modify (fun s => set_cube (set_dim_coord (_cube s) i coord) s) ;;
    ret coord.

Definition check_frequency (coord : Coord) (vn : string) : M unit :=
  s <- get ;;
  let freq := frequency s in
  if freq =? "mon" then
    cells <- cell_points coord ;;
    mon_scan vn freq cells
  else if freq =? "yr" then
    cells <- cell_points coord ;;
    yr_scan vn freq cells
  else
    match intervals_get intervals freq with
    | Some interval =>
        interval_scan vn freq
          (fst interval - tol, snd interval + tol)%Q (points coord)
    | None =>
        if endswith_hr freq then
          let frequency := drop_last2 freq in
          if frequency =? "sub" then
            let frequency := (1 / 24)%Q in
            interval_scan vn freq (- tol, frequency + tol)%Q (points coord)
          else
            f <- lift_opt (py_float frequency) ValueError ;;
            let frequency := (f / 24)%Q in
            interval_scan vn freq (frequency - tol, frequency + tol)%Q
              (points coord)
        else
          report_error "{}: Frequency {} not supported by checker" [vn; freq]
    end.

Definition _check_time_coord : M unit :=
  s <- get ;;
  match dim_coord_by_name (_cube s) "time" with
  | None => ret tt
  | Some (i, coord) =>
      let vn := str_opt (var_name coord) in
      coord <- normalize_time i coord vn ;;
      check_frequency coord vn
  end.

(** One statement of [_add_auxiliar_time_coordinates]:
    [if nm not in coords: add_...(self._cube, 'time')] *)
Definition add_if_absent (coords : list string) (nm : string)
    (category : datetime -> Z) : M unit :=
  when (negb (existsb (String.eqb nm) coords))
    (s <- get ;;
     match add_categorised_coord (_cube s) nm category with
     | Ok c => modify (set_cube c)
     | Raise e => raise e
     end).

Definition _add_auxiliar_time_coordinates : M unit :=
  s <- get ;;
  let coords := map name (aux_coords (_cube s)) in
  add_if_absent coords "day_of_month" day ;;
  add_if_absent coords "day_of_year" dayofyr ;;
  add_if_absent coords "month_number" month ;;
  add_if_absent coords "year" year.

Definition check_metadata : M Cube :=
  _check_var_metadata ;;
  _check_fill_value ;;
  _check_dim_names ;;
  _check_coords ;;
  _check_time_coord ;;
  _check_rank ;;
  report_warnings ;;
  report_errors ;;
  _add_auxiliar_time_coordinates ;;
  s <- get ;;
  ret (_cube s).

(** The first statement of [check_data]: the conversion of the cube to the
    units of the specification *)
Definition convert_cube_units : M unit :=
  s <- get ;;
  when (truthy (vi_units (_cmor_var s)))
    (units <- _get_effective_units ;;
     s <- get ;;
     when (negb (str_unit (cube_units (_cube s)) =? units))
       (c <- lift_result (cube_convert_units (_cube s) units) ;;
        modify (set_cube c))).

Definition check_data : M Cube :=
  convert_cube_units ;;
  _check_coords_data ;;
  report_warnings ;;
  report_errors ;;
  s <- get ;;
  ret (_cube s).

End Checker.

(** ** A small implementation of the library interface

    Used to run the checker on concrete cubes.  It reads decimal numbers,
    knows the degree units (modulus 360), a few day-based time references and
    dates in the calendar of twelve months of thirty days. *)

Module Lib360.

Fixpoint parse_digits (s : string) (acc : Z) (scale : positive)
    (seen_dot any : bool) : option Q :=
  match s with
  | EmptyString => if any then Some (Qred (acc # scale)) else None
  | String c r =>
      match digit_of c with
      | Some d =>
          parse_digits r (acc * 10 + Z.of_nat d)
            (if seen_dot then scale * 10 else scale) seen_dot true
      | None =>
          if (c =? ".")%char && negb seen_dot
          then parse_digits r acc scale true any
          else None
      end
  end.

Definition float_of_string (s : string) : option Q :=
  match s with
  | String c r =>
      if (c =? "-")%char
      then option_map Qopp (parse_digits r 0 1 false false)
      else parse_digits s 0 1 false false
  | EmptyString => None
  end.

Definition string_of_Z (z : Z) : string :=
  NilZero.string_of_int (Z.to_int z).

Definition string_of_float (q : Q) : string :=
  let r := Qred q in
  match Qden r with
  | 1%positive => string_of_Z (Qnum r) ++ ".0"
  | d => string_of_Z (Qnum r) ++ "/" ++ string_of_Z (Zpos d)
  end.

Definition summary (c : Cube) : string :=
  "<cube " ++ str_opt (cube_var_name c) ++ " / (" ++ origin (cube_units c)
  ++ ")>".

Definition mem (s : string) (l : list string) : bool :=
  existsb (String.eqb s) l.

Definition degree_units : list string :=
  ["degrees"; "degrees_east"; "degrees_north"; "degree_east"; "degree_north"].

Definition dimensionless_units : list string := ["1"; "1.0"].

Definition unknown_units : list string := ["unknown"; "?"; "???"; ""].

Definition other_units : list string := ["K"; "%"; "m"; "Pa"; "days"].

(** Time references, with the day number of their epoch counted from 1950 *)
Definition epochs : list (string * Q) :=
  [("days since 1950-1-1 00:00:00", 0); ("days since 1850-1-1 00:00:00", - (36000));
   ("days since 2000-1-1 00:00:00", 18000)]%Q.

Fixpoint epoch_of (l : list (string * Q)) (k : string) : option Q :=
  match l with
  | [] => None
  | (k', v) :: r => if k' =? k then Some v else epoch_of r k
  end.

Definition same_family (a b : string) : bool :=
  (a =? b)
  || (mem a degree_units && mem b degree_units)
  || (mem a dimensionless_units && mem b dimensionless_units)
  || (match epoch_of epochs a, epoch_of epochs b with
      | Some _, Some _ => true
      | _, _ => false
      end).

Definition known_unit (s : string) : bool :=
  mem s degree_units || mem s dimensionless_units || mem s unknown_units
  || mem s other_units
  || (match epoch_of epochs s with Some _ => true | None => false end).

Definition convertible (u : Unit) (s : string) : bool :=
  negb (mem (origin u) unknown_units) && same_family (origin u) s.

Definition convert (u u' : Unit) (p : list Q) : option (list Q) :=
  if origin u =? origin u' then Some p
  else
    match epoch_of epochs (origin u), epoch_of epochs (origin u') with
    | Some e, Some e' => Some (map (fun x => Qred (x + e - e')) p)
    | _, _ =>
        if mem (origin u) degree_units && mem (origin u') degree_units
        then Some p else None
    end.

Definition is_time (u : Unit) : bool :=
  match epoch_of epochs (origin u) with Some _ => true | None => false end.

Definition date_of (u : Unit) (x : Q) : datetime :=
  let e := match epoch_of epochs (origin u) with Some e => e | None => 0 end in
  let d := Qfloor (x + e) in
  {| year := 1950 + d / 360;
     month := (d mod 360) / 30 + 1;
     day := d mod 30 + 1;
     dayofyr := d mod 360 + 1 |}%Z.

Definition unit_modulus (u : Unit) : option Q :=
  if mem (origin u) degree_units then Some 360%Q else None.

Definition lib : Library :=
  {| py_float := float_of_string;
     str_float := string_of_float;
     str_cube := summary;
     is_convertible := convertible;
     is_unknown := fun u => mem (origin u) unknown_units;
     valid_unit := fun s _ => known_unit s;
     convert_points := convert;
     is_time_reference := is_time;
     num2date := date_of;
     modulus := unit_modulus |}.

End Lib360.

(** ** Sample cubes and specifications *)

Module Sample.

Definition days_1950 : string := "days since 1950-1-1 00:00:00".

Definition time_coord (pts : list Q) : Coord :=
  {| var_name := Some "time"; standard_name := Some "time";
     long_name := Some "time"; units := mkUnit days_1950 (Some "360_day");
     points := pts; ndim := 1; dims := [0%nat] |}.

Definition lat_coord (pts : list Q) : Coord :=
  {| var_name := Some "lat"; standard_name := Some "latitude";
     long_name := Some "latitude"; units := mkUnit "degrees_north" None;
     points := pts; ndim := 1; dims := [1%nat] |}.

Definition lon_coord (pts : list Q) : Coord :=
  {| var_name := Some "lon"; standard_name := Some "longitude";
     long_name := Some "longitude"; units := mkUnit "degrees_east" None;
     points := pts; ndim := 1; dims := [2%nat] |}.

(** Near-surface air temperature on a time, latitude, longitude grid *)
Definition tas_cube (t la lo : list Q) : Cube :=
  {| cube_var_name := Some "tas";
     cube_standard_name := Some "air_temperature";
     cube_units := mkUnit "K" None; attributes := []; cube_ndim := 3;
     dim_coords := [time_coord t; lat_coord la; lon_coord lo];
     aux_coords := [] |}.

Definition time_info : CoordinateInfo :=
  {| ci_name := "time"; ci_standard_name := "time"; ci_out_name := "time";
     ci_units := "days since 1850-1-1 00:00:00";
     ci_stored_direction := "increasing"; ci_valid_min := "";
     ci_valid_max := ""; ci_generic_level := false; ci_requested := [];
     ci_value := "" |}.

Definition lat_info : CoordinateInfo :=
  {| ci_name := "latitude"; ci_standard_name := "latitude";
     ci_out_name := "lat"; ci_units := "degrees_north";
     ci_stored_direction := "increasing"; ci_valid_min := "-90.0";
     ci_valid_max := "90.0"; ci_generic_level := false; ci_requested := [];
     ci_value := "" |}.

Definition lon_info : CoordinateInfo :=
  {| ci_name := "longitude"; ci_standard_name := "longitude";
     ci_out_name := "lon"; ci_units := "degrees_east";
     ci_stored_direction := "increasing"; ci_valid_min := "0.0";
     ci_valid_max := "360.0"; ci_generic_level := false; ci_requested := [];
     ci_value := "" |}.

Definition tas_info : VariableInfo :=
  {| vi_standard_name := "air_temperature"; vi_units := "K";
     vi_positive := ""; vi_frequency := "mon";
     vi_coordinates :=
       [("time", time_info); ("latitude", lat_info);
        ("longitude", lon_info)] |}.

(** Three months, two latitudes, four longitudes *)
Definition tas : Cube :=
  tas_cube [15; 45; 75]%Q [-45; 45]%Q [10; 80; 170; 260]%Q.

(** The same grid with the longitudes counted from 10 degrees west *)
Definition tas_west : Cube :=
  tas_cube [15; 45; 75]%Q [-45; 45]%Q [-10; 80; 170; 260]%Q.

(** The same grid with the latitudes from north to south *)
Definition tas_north_first : Cube :=
  tas_cube [15; 45; 75]%Q [45; -45]%Q [10; 80; 170; 260]%Q.

(** Land area fraction: a variable without time axis *)
Definition sftlf : Cube :=
  {| cube_var_name := Some "sftlf";
     cube_standard_name := Some "land_area_fraction";
     cube_units := mkUnit "%" None; attributes := []; cube_ndim := 2;
     dim_coords :=
       [{| var_name := Some "lat"; standard_name := Some "latitude";
           long_name := Some "latitude"; units := mkUnit "degrees_north" None;
           points := [-45; 45]%Q; ndim := 1; dims := [0%nat] |};
        {| var_name := Some "lon"; standard_name := Some "longitude";
           long_name := Some "longitude"; units := mkUnit "degrees_east" None;
           points := [10; 80; 170; 260]%Q; ndim := 1; dims := [1%nat] |}];
     aux_coords := [] |}.

Definition sftlf_info : VariableInfo :=
  {| vi_standard_name := "land_area_fraction"; vi_units := "%";
     vi_positive := ""; vi_frequency := "fx";
     vi_coordinates := [("latitude", lat_info); ("longitude", lon_info)] |}.

(** Sea water salinity as iris loads it from a file that gives the unit as
    psu: the unit is unknown and the attribute keeps the word *)
Definition so_cube (std : string) : Cube :=
  {| cube_var_name := Some "so"; cube_standard_name := Some std;
     cube_units := mkUnit "unknown" None;
     attributes := [("invalid_units", "PSU")]; cube_ndim := 3;
     dim_coords :=
       [time_coord [15; 45; 75]%Q; lat_coord [-45; 45]%Q;
        lon_coord [10; 80; 170; 260]%Q];
     aux_coords := [] |}.

Definition so_info : VariableInfo :=
  {| vi_standard_name := "sea_water_salinity"; vi_units := "psu";
     vi_positive := ""; vi_frequency := "mon";
     vi_coordinates :=
       [("time", time_info); ("latitude", lat_info);
        ("longitude", lon_info)] |}.

End Sample.

(** * Properties *)

(** ** Running methods in sequence *)

Lemma bind_ok {A B} (m : M A) (k : A -> M B) s a s1 :
  m s = (Ok a, s1) -> bind m k s = k a s1.
Proof. intros H. unfold bind. now rewrite H. Qed.

Lemma bind_raise {A B} (m : M A) (k : A -> M B) s e s1 :
  m s = (Raise e, s1) -> bind m k s = (Raise e, s1).
Proof. intros H. unfold bind. now rewrite H. Qed.

Lemma bind_inv_ok {A B} (m : M A) (k : A -> M B) s b s' :
  bind m k s = (Ok b, s') ->
  exists a s1, m s = (Ok a, s1) /\ k a s1 = (Ok b, s').
Proof.
  unfold bind. destruct (m s) as [[a|e] s1]; intros H.
  - now exists a, s1.
  - discriminate.
Qed.

Lemma bind_inv_raise {A B} (m : M A) (k : A -> M B) s e s' :
  bind m k s = (Raise e, s') ->
  m s = (Raise e, s') \/
  exists a s1, m s = (Ok a, s1) /\ k a s1 = (Raise e, s').
Proof.
  unfold bind. destruct (m s) as [[a|e0] s1]; intros H.
  - right. now exists a, s1.
  - left. injection H as -> ->. reflexivity.
Qed.

Lemma bind_assoc {A B C} (m : M A) (k : A -> M B) (h : B -> M C) s :
  bind (bind m k) h s = bind m (fun a => bind (k a) h) s.
Proof. unfold bind. destruct (m s) as [[a|e] s1]; reflexivity. Qed.

Lemma bind_ext {A B} (m : M A) (k k' : A -> M B) s :
  (forall a s', k a s' = k' a s') -> bind m k s = bind m k' s.
Proof. intros H. unfold bind. destruct (m s) as [[a|e] s1]; auto. Qed.

(** ** Invariants of methods

    [inv I X m]: the method [m] keeps the property [I] of the state, whether
    it returns or raises, and raises only exceptions in [X]. *)

Section Invariants.

Variable I : CMORCheck -> Prop.
Variable X : exn -> Prop.

Definition inv {A} (m : M A) : Prop :=
  forall s, I s ->
    I (snd (m s)) /\ (forall e, fst (m s) = Raise e -> X e).

Lemma inv_ret {A} (a : A) : inv (ret a).
Proof. intros s Hs. split; [exact Hs | discriminate]. Qed.

Lemma inv_raise {A} (e : exn) : X e -> inv (@raise A e).
Proof.
  intros He s Hs. split; [exact Hs | ].
  intros e' H. simpl in H. now injection H as <-.
Qed.

Lemma inv_get : inv get.
Proof. intros s Hs. split; [exact Hs | discriminate]. Qed.

Lemma inv_modify (f : CMORCheck -> CMORCheck) :
  (forall s, I s -> I (f s)) -> inv (modify f).
Proof. intros Hf s Hs. split; [now apply Hf | discriminate]. Qed.

Lemma inv_bind {A B} (m : M A) (k : A -> M B) :
  inv m -> (forall a, inv (k a)) -> inv (bind m k).
Proof.
  intros Hm Hk s Hs. unfold bind.
  destruct (Hm s Hs) as [H1 H2].
  destruct (m s) as [[a|e] s1]; simpl in *.
  - exact (Hk a s1 H1).
  - split; [exact H1 | ]. intros e' H. apply H2. now injection H as <-.
Qed.

(** After [get] the value read satisfies the invariant. *)
Lemma inv_get_bind {B} (k : CMORCheck -> M B) :
  (forall a, I a -> inv (k a)) -> inv (bind get k).
Proof. intros Hk s Hs. unfold bind, get. exact (Hk s Hs s Hs). Qed.

Lemma inv_when (c : bool) (m : M unit) : inv m -> inv (when c m).
Proof. intros Hm. destruct c; [exact Hm | apply inv_ret]. Qed.

Lemma inv_for_each {A} (l : list A) (body : A -> M unit) :
  (forall x, In x l -> inv (body x)) -> inv (for_each l body).
Proof.
  induction l as [|x r IH]; intros Hb; simpl.
  - apply inv_ret.
  - apply inv_bind.
    + apply Hb. now left.
    + intros _. apply IH. intros y Hy. apply Hb. now right.
Qed.

Lemma inv_lift_opt {A} (o : option A) (e : exn) : X e -> inv (lift_opt o e).
Proof. intros He. destruct o; [apply inv_ret | now apply inv_raise]. Qed.

(** A library call that returned tells what it returned. *)
Lemma inv_bind_lift_opt {A B} (o : option A) (e : exn) (k : A -> M B) :
  X e -> (forall a, o = Some a -> inv (k a)) -> inv (bind (lift_opt o e) k).
Proof.
  intros He Hk. destruct o as [a|]; simpl.
  - intros s Hs. exact (Hk a eq_refl s Hs).
  - intros s Hs. split; [exact Hs | ].
    intros e' H. simpl in H. now injection H as <-.
Qed.

Lemma inv_lift_result {A} (r : result A) :
  (forall e, r = Raise e -> X e) -> inv (lift_result r).
Proof.
  intros He. destruct r as [a|e]; [apply inv_ret | ].
  apply inv_raise. now apply He.
Qed.

Lemma inv_bind_lift_result {A B} (r : result A) (k : A -> M B) :
  (forall e, r = Raise e -> X e) -> (forall a, r = Ok a -> inv (k a)) ->
  inv (bind (lift_result r) k).
Proof.
  intros He Hk. destruct r as [a|e]; simpl.
  - intros s Hs. exact (Hk a eq_refl s Hs).
  - intros s Hs. split; [exact Hs | ].
    intros e' H. simpl in H. injection H as <-. now apply He.
Qed.

End Invariants.

(** One step of a proof of [inv]: follow the structure of the method. *)
Ltac inv_step :=
  lazymatch goal with
  | |- inv _ _ (bind get _) => apply inv_get_bind; intros ? ?
  | |- inv _ _ (bind (lift_opt _ _) _) =>
      apply inv_bind_lift_opt; [ | intros ? ? ]
  | |- inv _ _ (bind (lift_result _) _) =>
      apply inv_bind_lift_result; [intros ? ? | intros ? ? ]
  | |- inv _ _ (lift_result _) => apply inv_lift_result; intros ? ?
  | |- inv _ _ (bind _ _) => apply inv_bind; [ | intros ? ]
  | |- inv _ _ (ret _) => apply inv_ret
  | |- inv _ _ get => apply inv_get
  | |- inv _ _ (when _ _) => apply inv_when
  | |- inv _ _ (for_each _ _) => apply inv_for_each; intros ? ?
  | |- inv _ _ (lift_opt _ _) => apply inv_lift_opt
  | |- inv _ _ (raise _) => apply inv_raise
  | |- inv _ _ (modify _) => apply inv_modify; intros ? ?
  | |- inv _ _ (if ?b then _ else _) => destruct b eqn:?
  | |- inv _ _ (match ?x with _ => _ end) => destruct x eqn:?
  end.

Section Formatting.

Lemma append_empty_r (s : string) : s ++ "" = s.
Proof. induction s as [|c r IH]; simpl; [reflexivity | now rewrite IH]. Qed.

Ltac format_eq :=
  intros; vm_compute; repeat f_equal; try reflexivity; apply append_empty_r.

(** The templates of the reports always format. *)
Lemma format_in_cube (x : string) :
  format (nl ++ "in cube:" ++ nl ++ "{}") [x]
  = Some (nl ++ "in cube:" ++ nl ++ x).
Proof. format_eq. Qed.

Lemma format_warning_line (x : string) :
  format "WARNING: {0}" [x] = Some ("WARNING: " ++ x).
Proof. format_eq. Qed.

Lemma format_errors_report (v e c : string) :
  format ("There were errors in variable {}:" ++ nl ++ "{}" ++ nl
          ++ "in cube:" ++ nl ++ "{}") [v; e; c]
  = Some ("There were errors in variable " ++ v ++ ":" ++ nl ++ e ++ nl
          ++ "in cube:" ++ nl ++ c).
Proof. format_eq. Qed.

Lemma format_warnings_report (v w : string) :
  format ("There were warnings in variable {}:" ++ nl ++ "{}" ++ nl) [v; w]
  = Some ("There were warnings in variable " ++ v ++ ":" ++ nl ++ w ++ nl).
Proof. format_eq. Qed.

Lemma format_is_msg (v w : string) :
  format _is_msg [v; w] = Some (v ++ ": is not " ++ w).
Proof. format_eq. Qed.

Lemma format_does_msg (v w : string) :
  format _does_msg [v; w] = Some (v ++ ": does not " ++ w).
Proof. format_eq. Qed.

Lemma format_vals_msg (v b x : string) :
  format _vals_msg [v; b; x] = Some (v ++ ": has values " ++ b ++ " " ++ x).
Proof. format_eq. Qed.

Lemma format_attr_msg (a b c d : string) :
  format _attr_msg [a; b; c; d]
  = Some (a ++ ": " ++ b ++ " should be " ++ c ++ ", not " ++ d).
Proof. format_eq. Qed.

Lemma format_frequency_msg (v f : string) :
  format frequency_msg [v; f]
  = Some (v ++ ": Frequency " ++ f ++ " does not match input data").
Proof. format_eq. Qed.

Lemma format_bound (b : string) :
  format "< {} =" [b] = Some ("< " ++ b ++ " =").
Proof. format_eq. Qed.

End Formatting.

(** ** Invariants of the checks

    The checks write to the state in few ways: they append to the two lists
    (only when [_failerr] is off), print, log, and change or replace the cube
    by a library call.  A property [I] of the state that survives these
    writes is kept by every check; [R] relates a cube to what a library call
    may put in its place. *)

Create HintDb invdb.

(** What the library calls raise *)

Lemma is_monotonic_raises co e :
  is_monotonic co = Raise e -> e = CoordinateMultiDimError \/ e = ValueError.
Proof.
  unfold is_monotonic. destruct (negb _); [intros [= <-]; now left | ].
  destruct (points co); [intros [= <-]; now right | discriminate].
Qed.

Lemma is_monotonic_one_dimension co b :
  is_monotonic co = Ok b ->
  ndim co = 1%nat /\ points co <> []
  /\ b = increasing (points co) || decreasing (points co).
Proof.
  unfold is_monotonic. destruct (ndim co =? 1)%nat eqn:Hn; [ | discriminate].
  apply Nat.eqb_eq in Hn. simpl.
  destruct (points co) eqn:Hp; [discriminate | ].
  intros [= <-]. repeat split; [exact Hn | discriminate].
Qed.

Section LibraryCalls.

Context {L : Library}.

Lemma cube_convert_units_raises c u e :
  cube_convert_units c u = Raise e ->
  e = UnitConversionError \/ e = ValueError.
Proof.
  unfold cube_convert_units. destruct (is_unknown _); [intros [= <-]; now left | ].
  destruct (is_convertible _ _); [discriminate | intros [= <-]; now right].
Qed.

Lemma cube_convert_units_returns c u c' :
  cube_convert_units c u = Ok c' ->
  is_unknown (cube_units c) = false /\ is_convertible (cube_units c) u = true
  /\ c' = with_units c (mkUnit u None).
Proof.
  unfold cube_convert_units. destruct (is_unknown _); [discriminate | ].
  destruct (is_convertible _ _); [ | discriminate].
  intros [= <-]. repeat split.
Qed.

Lemma coord_convert_units_raises co u e :
  coord_convert_units co u = Raise e ->
  e = UnitConversionError \/ e = ValueError.
Proof.
  unfold coord_convert_units. destruct (is_unknown _); [intros [= <-]; now left | ].
  destruct (convert_points _ _ _); [discriminate | intros [= <-]; now right].
Qed.

Lemma try_convert_units_raises cmor co e :
  try_convert_units cmor co = Raise e -> e = UnitConversionError.
Proof.
  unfold try_convert_units. destruct (negb _); [discriminate | ].
  destruct (coord_convert_units _ _) as [c'|e'] eqn:Hc; [discriminate | ].
  destruct (coord_convert_units_raises _ _ _ Hc) as [-> | ->]; simpl.
  - now intros [= <-].
  - discriminate.
Qed.

Lemma try_convert_units_fixed cmor co co' :
  try_convert_units cmor co = Ok (Some co') ->
  valid_unit (ci_units cmor) (calendar (units co)) = true
  /\ is_unknown (units co) = false
  /\ exists p,
       convert_points (units co)
         (mkUnit (ci_units cmor) (calendar (units co))) (points co) = Some p
       /\ co' = set_units (set_points co p)
                  (mkUnit (ci_units cmor) (calendar (units co))).
Proof.
  unfold try_convert_units, coord_convert_units.
  destruct (valid_unit _ _); [ | discriminate]. simpl.
  destruct (is_unknown _); [discriminate | ].
  destruct (convert_points _ _ _) as [p|]; [ | discriminate].
  intros [= <-]. repeat split. now exists p.
Qed.

Lemma try_convert_units_caught cmor co :
  try_convert_units cmor co = Ok None <->
  valid_unit (ci_units cmor) (calendar (units co)) = false
  \/ (is_unknown (units co) = false
      /\ convert_points (units co)
           (mkUnit (ci_units cmor) (calendar (units co))) (points co) = None).
Proof.
  unfold try_convert_units, coord_convert_units.
  destruct (valid_unit _ _); simpl; [ | now split; [left | ]].
  destruct (is_unknown _); simpl.
  - split; [discriminate | ]. intros [H | [H _]]; discriminate.
  - destruct (convert_points _ _ _); simpl.
    + split; [discriminate | ]. intros [H | [_ H]]; discriminate.
    + split; [now right | reflexivity].
Qed.

Lemma try_convert_units_escapes cmor co e :
  try_convert_units cmor co = Raise e <->
  e = UnitConversionError
  /\ valid_unit (ci_units cmor) (calendar (units co)) = true
  /\ is_unknown (units co) = true.
Proof.
  unfold try_convert_units, coord_convert_units.
  destruct (valid_unit _ _); simpl.
  2:{ split; [discriminate | ]. intros (_ & H & _). discriminate. }
  destruct (is_unknown _); simpl.
  - split; [intros [= <-]; now repeat split | ]. now intros (-> & _).
  - destruct (convert_points _ _ _); simpl;
      (split; [discriminate | ]; intros (_ & _ & H); discriminate).
Qed.

(** The attempt to convert leaves the state as it is. *)
Lemma convert_attempt_inv cmor co (b : bool) s fixed s0 :
  (if b then lift_result (try_convert_units cmor co) else ret None) s
  = (Ok fixed, s0) ->
  s0 = s
  /\ (fixed = None \/ (b = true /\ try_convert_units cmor co = Ok fixed)).
Proof.
  destruct b.
  - destruct (try_convert_units cmor co) as [f|e]; [ | discriminate].
    intros [= <- <-]. split; [reflexivity | right; now split].
  - intros [= <- <-]. split; [reflexivity | now left].
Qed.

End LibraryCalls.

Section CheckInvariants.

Context {L : Library}.

Variable I : CMORCheck -> Prop.
Variable X : exn -> Prop.
Variable R : Cube -> Cube -> Prop.

Hypothesis I_errors :
  forall a msg, I a -> _failerr a = false ->
  forall s, I s -> I (set_errors (_errors s ++ [msg])%list s).
Hypothesis I_warnings :
  forall a msg, I a -> _failerr a = false ->
  forall s, I s -> I (set_warnings (_warnings s ++ [msg])%list s).
Hypothesis I_printed : forall s l, I s -> I (set_printed l s).
Hypothesis I_cube :
  forall a c, I a -> R (_cube a) c -> forall s, I s -> I (set_cube c s).
Hypothesis X_fail_fast :
  forall s msg, I s -> _failerr s = true -> X (CMORCheckError msg).
Hypothesis X_not_found : X CoordinateNotFoundError.
Hypothesis X_value : X ValueError.
Hypothesis X_attribute : X AttributeError.
Hypothesis X_index : X IndexError.
Hypothesis X_multidim : X CoordinateMultiDimError.
Hypothesis X_conversion : X UnitConversionError.
Hypothesis R_reverse : forall c ds, R c (reverse c ds).
Hypothesis R_set_dim_coord : forall c i co, R c (set_dim_coord c i co).
Hypothesis R_intersection :
  forall c i co c', intersection c i co = Some c' -> R c c'.
Hypothesis R_add :
  forall c nm f c', add_categorised_coord c nm f = Ok c' -> R c c'.

Local Abbreviation keeps := (inv I X).

Ltac side :=
  eauto using I_errors, I_warnings, I_printed, X_fail_fast, I_cube,
    R_reverse, R_set_dim_coord, R_intersection, R_add.

Ltac raised :=
  match goal with
  | H : is_monotonic _ = Raise _ |- _ =>
      destruct (is_monotonic_raises _ _ H); subst; assumption
  | H : try_convert_units _ _ = Raise _ |- _ =>
      rewrite (try_convert_units_raises _ _ _ H); assumption
  | H : cube_convert_units _ _ = Raise _ |- _ =>
      destruct (cube_convert_units_raises _ _ _ H); subst; assumption
  end.

Ltac inv_auto := repeat (first [inv_step | solve [auto with invdb]]); side.

Lemma inv_fmt t a : keeps (fmt t a).
Proof. unfold fmt. inv_auto. Qed.

Lemma inv_report_error m a : keeps (report_error m a).
Proof. unfold report_error, fmt. inv_auto. Qed.

Lemma inv_report_warning m a : keeps (report_warning m a).
Proof. unfold report_warning, fmt. inv_auto. Qed.

Hint Resolve inv_fmt inv_report_error inv_report_warning : invdb.

Lemma inv_get_effective_units : keeps _get_effective_units.
Proof. unfold _get_effective_units. inv_auto. Qed.

Hint Resolve inv_get_effective_units : invdb.

Lemma inv_check_standard_name : keeps check_standard_name.
Proof. unfold check_standard_name. inv_auto. Qed.

Lemma inv_check_units : keeps check_units.
Proof. unfold check_units. inv_auto. Qed.

Lemma inv_check_attributes : keeps check_attributes.
Proof. unfold check_attributes, getattr. inv_auto. Qed.

Hint Resolve inv_check_standard_name inv_check_units inv_check_attributes
  : invdb.

Lemma inv_check_rank : keeps _check_rank.
Proof. unfold _check_rank. inv_auto. Qed.

Lemma inv_check_dim_names : keeps _check_dim_names.
Proof. unfold _check_dim_names. inv_auto. Qed.

Lemma inv_reverse_coord c : keeps (_reverse_coord c).
Proof. unfold _reverse_coord. inv_auto. Qed.

Hint Resolve inv_reverse_coord : invdb.

Lemma inv_check_direction cmor coord vn :
  keeps (_check_coord_monotonicity_and_direction cmor coord vn).
Proof.
  unfold _check_coord_monotonicity_and_direction, point_at.
  inv_auto; raised.
Qed.

Lemma inv_floats l : keeps (floats l).
Proof. induction l as [|v r IH]; simpl; inv_auto. Qed.

Hint Resolve inv_check_direction inv_floats : invdb.

Lemma inv_check_requested_values coord info vn :
  keeps (_check_requested_values coord info vn).
Proof. unfold _check_requested_values. inv_auto. Qed.

Hint Resolve inv_check_requested_values : invdb.

Lemma inv_check_valid_min info coord vn l :
  keeps (check_valid_min info coord vn l).
Proof. unfold check_valid_min. inv_auto. Qed.

Lemma inv_check_valid_max info coord vn l :
  keeps (check_valid_max info coord vn l).
Proof. unfold check_valid_max. inv_auto. Qed.

Hint Resolve inv_check_valid_min inv_check_valid_max : invdb.

Lemma inv_check_coord_values info i coord vn :
  keeps (_check_coord_values info i coord vn).
Proof. unfold _check_coord_values. inv_auto. Qed.

Hint Resolve inv_check_coord_values : invdb.

Lemma inv_check_coord cmor i coord vn : keeps (_check_coord cmor i coord vn).
Proof. unfold _check_coord. inv_auto; raised. Qed.

Hint Resolve inv_check_coord : invdb.

Lemma inv_check_coords_body coordinate : keeps (check_coords_body coordinate).
Proof. unfold check_coords_body. inv_auto. Qed.

Hint Resolve inv_check_coords_body : invdb.

Lemma inv_check_coords : keeps _check_coords.
Proof. unfold _check_coords. inv_auto. Qed.

Lemma inv_check_coords_data : keeps _check_coords_data.
Proof. unfold _check_coords_data. inv_auto. Qed.

Lemma inv_cell_points coord : keeps (cell_points coord).
Proof. unfold cell_points. inv_auto. Qed.

Lemma inv_mon_scan vn freq cells : keeps (mon_scan vn freq cells).
Proof.
  induction cells as [|d r IH]; simpl; [inv_auto | ].
  destruct r as [|d' r']; [inv_auto | ].
  destruct (month d + 1 =? 13)%Z; inv_auto.
Qed.

Lemma inv_yr_scan vn freq cells : keeps (yr_scan vn freq cells).
Proof.
  induction cells as [|d r IH]; simpl; [inv_auto | ].
  destruct r as [|d' r']; inv_auto.
Qed.

Lemma inv_interval_scan vn freq t pts : keeps (interval_scan vn freq t pts).
Proof.
  induction pts as [|p r IH]; simpl; [inv_auto | ].
  destruct r as [|q r']; inv_auto.
Qed.

Hint Resolve inv_cell_points inv_mon_scan inv_yr_scan inv_interval_scan
  : invdb.

Lemma inv_normalize_time i coord vn : keeps (normalize_time i coord vn).
Proof. unfold normalize_time. inv_auto. Qed.

Lemma inv_check_frequency coord vn : keeps (check_frequency coord vn).
Proof. unfold check_frequency. inv_auto. Qed.

Hint Resolve inv_normalize_time inv_check_frequency : invdb.

Lemma inv_check_time_coord : keeps _check_time_coord.
Proof. unfold _check_time_coord. inv_auto. Qed.

Lemma add_categorised_coord_raises c nm f e :
  add_categorised_coord c nm f = Raise e ->
  e = CoordinateNotFoundError \/ e = ValueError.
Proof.
  unfold add_categorised_coord.
  destruct (coord_by_name c "time"); [ | intros [= <-]; now left].
  destruct (existsb _ _); [intros [= <-]; now right | ].
  destruct (negb _); [intros [= <-]; now right | discriminate].
Qed.

Lemma inv_add_auxiliar_time_coordinates : keeps _add_auxiliar_time_coordinates.
Proof.
  unfold _add_auxiliar_time_coordinates, add_if_absent. inv_auto;
    match goal with
    | H : add_categorised_coord _ _ _ = Raise _ |- _ =>
        destruct (add_categorised_coord_raises _ _ _ _ H); subst; assumption
    end.
Qed.

Hypothesis I_logged : forall s l, I s -> I (set_logged l s).

Lemma inv_report_warnings : keeps report_warnings.
Proof. unfold report_warnings, has_warnings. inv_auto. Qed.

Hypothesis R_units : forall c u, R c (with_units c u).
Hypothesis R_attributes : forall c a, R c (with_attributes c a).

Lemma inv_fix_invalid_units : keeps fix_invalid_units.
Proof. unfold fix_invalid_units. inv_auto. Qed.

Hint Resolve inv_fix_invalid_units : invdb.

Lemma inv_check_var_metadata : keeps _check_var_metadata.
Proof. unfold _check_var_metadata. inv_auto. Qed.

Lemma inv_check_fill_value : keeps _check_fill_value.
Proof. unfold _check_fill_value. inv_auto. Qed.

Hint Resolve inv_check_var_metadata inv_check_fill_value inv_check_dim_names
  inv_check_coords inv_check_time_coord inv_check_rank inv_report_warnings
  inv_add_auxiliar_time_coordinates inv_check_coords_data : invdb.

(** The batch report raises whatever the mode. *)
Hypothesis X_batch : forall msg, X (CMORCheckError msg).

Lemma inv_report_errors : keeps report_errors.
Proof. unfold report_errors, has_errors. inv_auto. Qed.

Hint Resolve inv_report_errors : invdb.

Lemma inv_check_metadata : keeps check_metadata.
Proof. unfold check_metadata. inv_auto. Qed.

Hypothesis R_convert :
  forall c u c', cube_convert_units c u = Ok c' -> R c c'.

Lemma inv_convert_cube_units : keeps convert_cube_units.
Proof.
  unfold convert_cube_units.
  inv_auto; first [raised | eauto using I_cube, R_convert].
Qed.

Hint Resolve inv_convert_cube_units : invdb.

Lemma inv_check_data : keeps check_data.
Proof. unfold check_data. inv_auto. Qed.

End CheckInvariants.

(** ** Fail-fast mode: the accumulation lists are never written *)

Section FailFast.

Context {L : Library}.

Definition lists_are (E W : list string) (s : CMORCheck) : Prop :=
  _failerr s = true /\ _errors s = E /\ _warnings s = W.

Definition any_exn (e : exn) : Prop := True.

Definition any_cube (c c' : Cube) : Prop := True.

(** The operations of a checker.  What an operation raises the caller may
    catch; the checker lives on in the state the operation left. *)
Inductive operation :=
| Report_error (message : string) (args : list string)
| Report_warning (message : string) (args : list string)
| Report_errors
| Report_warnings
| Has_errors
| Has_warnings
| Check_metadata
| Check_data.

Definition perform (o : operation) (s : CMORCheck) : CMORCheck :=
  match o with
  | Report_error m a => snd (report_error m a s)
  | Report_warning m a => snd (report_warning m a s)
  | Report_errors => snd (report_errors s)
  | Report_warnings => snd (report_warnings s)
  | Has_errors => snd (has_errors s)
  | Has_warnings => snd (has_warnings s)
  | Check_metadata => snd (check_metadata s)
  | Check_data => snd (check_data s)
  end.

Definition perform_all (ops : list operation) (s : CMORCheck) : CMORCheck :=
  fold_left (fun s o => perform o s) ops s.

Ltac ff_side :=
  unfold lists_are, any_exn, any_cube; simpl; intuition congruence.

Lemma perform_keeps_lists E W o s :
  lists_are E W s -> lists_are E W (perform o s).
Proof.
  intros Hs.
  assert (Hall : forall A (m : M A),
             inv (lists_are E W) any_exn m -> lists_are E W (snd (m s))).
  { intros A m Hm. exact (proj1 (Hm s Hs)). }
  destruct o; unfold perform; try exact Hs; apply Hall.
  - apply inv_report_error; ff_side.
  - apply inv_report_warning; ff_side.
  - apply inv_report_errors; ff_side.
  - apply inv_report_warnings; ff_side.
  - apply inv_check_metadata with (R := any_cube); ff_side.
  - apply inv_check_data with (R := any_cube); ff_side.
Qed.

Lemma perform_all_keeps_lists E W ops s :
  lists_are E W s -> lists_are E W (perform_all ops s).
Proof.
  revert s. induction ops as [|o r IH]; intros s Hs; simpl.
  - exact Hs.
  - apply IH. now apply perform_keeps_lists.
Qed.

Lemma report_error_fail_fast m a s :
  _failerr s = true ->
  report_error m a s =
  match format m a with
  | Some msg =>
      (Raise (CMORCheckError
                (msg ++ nl ++ "in cube:" ++ nl ++ str_cube (_cube s))), s)
  | None => (Raise IndexError, s)
  end.
Proof.
  intros Hf. unfold report_error.
  destruct (format m a) as [msg|] eqn:F.
  - rewrite (bind_ok _ _ s msg s) by (unfold fmt; now rewrite F).
    rewrite (bind_ok get _ s s s) by reflexivity. rewrite Hf.
    erewrite bind_ok by (unfold fmt; now rewrite format_in_cube).
    reflexivity.
  - apply bind_raise. unfold fmt. now rewrite F.
Qed.

Lemma report_warning_fail_fast m a s :
  _failerr s = true ->
  report_warning m a s =
  match format m a with
  | Some msg =>
      (Ok tt, set_printed (printed s ++ [("WARNING: " ++ msg)%string])%list s)
  | None => (Raise IndexError, s)
  end.
Proof.
  intros Hf. unfold report_warning.
  destruct (format m a) as [msg|] eqn:F.
  - rewrite (bind_ok _ _ s msg s) by (unfold fmt; now rewrite F).
    rewrite (bind_ok get _ s s s) by reflexivity. rewrite Hf.
    erewrite bind_ok by (unfold fmt; now rewrite format_warning_line).
    reflexivity.
  - apply bind_raise. unfold fmt. now rewrite F.
Qed.

(** C9.  A checker constructed with fail_on_error set keeps both
    accumulation lists empty through every sequence of operations (the two
    report methods, the batch reports, the two queries and the two check
    phases, whatever they raise): has_errors and has_warnings answer false
    afterwards; report_error raises and leaves the state exactly as it was;
    report_warning writes one line to the printed output and leaves both
    lists alone. *)
Theorem fail_fast_keeps_lists_empty :
  forall (cube : Cube) (var_info : VariableInfo) (freq : option string)
         (automatic : bool) (ops : list operation),
    let s := perform_all ops (init cube var_info freq true automatic) in
    _errors s = [] /\ _warnings s = [] /\
    has_errors s = (Ok false, s) /\ has_warnings s = (Ok false, s) /\
    (forall m a,
        report_error m a s =
        match format m a with
        | Some msg =>
            (Raise (CMORCheckError
                      (msg ++ nl ++ "in cube:" ++ nl ++ str_cube (_cube s))),
             s)
        | None => (Raise IndexError, s)
        end) /\
    (forall m a,
        report_warning m a s =
        match format m a with
        | Some msg =>
            (Ok tt, set_printed (printed s ++ [("WARNING: " ++ msg)%string])%list s)
        | None => (Raise IndexError, s)
        end
        /\ _errors (snd (report_warning m a s)) = []
        /\ _warnings (snd (report_warning m a s)) = []).
Proof.
  intros cube var_info freq automatic ops s.
  assert (Hs : lists_are [] [] s).
  { apply perform_all_keeps_lists. unfold lists_are. simpl. auto. }
  destruct Hs as (Hf & He & Hw).
  repeat split.
  - exact He.
  - exact Hw.
  - unfold has_errors, bind, get, ret. now rewrite He.
  - unfold has_warnings, bind, get, ret. now rewrite Hw.
  - intros m a. now apply report_error_fail_fast.
  - now apply report_warning_fail_fast.
  - rewrite report_warning_fail_fast by exact Hf.
    destruct (format m a); exact He.
  - rewrite report_warning_fail_fast by exact Hf.
    destruct (format m a); exact Hw.
Qed.

End FailFast.

(** ** The phases as sequences of checks *)

Section Phases.

Context {L : Library}.

Fixpoint run_all (l : list (M unit)) : M unit :=
  match l with
  | [] => ret tt
  | c :: r => c ;; run_all r
  end.

Definition metadata_checks : list (M unit) :=
  [_check_var_metadata; _check_fill_value; _check_dim_names; _check_coords;
   _check_time_coord; _check_rank].

Definition data_checks : list (M unit) :=
  [convert_cube_units; _check_coords_data].

Definition metadata_tail : M Cube :=
  report_warnings ;;
  report_errors ;;
  _add_auxiliar_time_coordinates ;;
  s <- get ;;
  ret (_cube s).

Definition data_tail : M Cube :=
  report_warnings ;;
  report_errors ;;
  s <- get ;;
  ret (_cube s).

Lemma run_all_then {B} (l : list (M unit)) (k : M B) s :
  (run_all l ;; k) s = fold_right (fun c acc => c ;; acc) k l s.
Proof.
  revert s. induction l as [|c r IH]; intros s; simpl.
  - reflexivity.
  - unfold bind at 1 2 3. destruct (c s) as [[[]|e] s1].
    + apply IH.
    + reflexivity.
Qed.

Lemma check_metadata_run s :
  check_metadata s = (run_all metadata_checks ;; metadata_tail) s.
Proof. rewrite run_all_then. reflexivity. Qed.

Lemma check_data_run s :
  check_data s = (run_all data_checks ;; data_tail) s.
Proof. rewrite run_all_then. reflexivity. Qed.

(** A sequence of checks ends where the first check raises. *)
Lemma run_all_stops pre c post s s1 e s2 :
  run_all pre s = (Ok tt, s1) -> c s1 = (Raise e, s2) ->
  run_all (pre ++ c :: post) s = (Raise e, s2).
Proof.
  revert s. induction pre as [|c0 r IH]; intros s Hpre Hc; simpl in *.
  - injection Hpre as <-. now apply bind_raise.
  - apply bind_inv_ok in Hpre. destruct Hpre as ([] & s0 & H0 & Hr).
    rewrite (bind_ok _ _ _ _ _ H0). now apply IH.
Qed.

(** The message of the batch report *)
Definition batch_message (s : CMORCheck) : string :=
  "There were errors in variable " ++ str_opt (cube_var_name (_cube s)) ++ ":"
  ++ nl ++ join (nl ++ " ") (_errors s) ++ nl ++ "in cube:" ++ nl
  ++ str_cube (_cube s).

Lemma report_errors_run s :
  report_errors s =
  if (0 <? length (_errors s))%nat
  then (Raise (CMORCheckError (batch_message s)), s)
  else (Ok tt, s).
Proof.
  unfold report_errors, has_errors.
  rewrite (bind_ok _ _ s (0 <? length (_errors s))%nat s) by reflexivity.
  destruct (0 <? length (_errors s))%nat; [ | reflexivity].
  rewrite (bind_ok get _ s s s) by reflexivity.
  erewrite bind_ok by (unfold fmt; now rewrite format_errors_report).
  reflexivity.
Qed.

Lemma report_warnings_run s :
  exists l, report_warnings s = (Ok tt, set_logged l s).
Proof.
  unfold report_warnings, has_warnings.
  rewrite (bind_ok _ _ s (0 <? length (_warnings s))%nat s) by reflexivity.
  destruct (0 <? length (_warnings s))%nat.
  - rewrite (bind_ok get _ s s s) by reflexivity.
    erewrite bind_ok by (unfold fmt; now rewrite format_warnings_report).
    eexists. reflexivity.
  - exists (logged s). destruct s; reflexivity.
Qed.

Lemma report_error_collect m a s :
  _failerr s = false ->
  report_error m a s =
  match format m a with
  | Some msg => (Ok tt, set_errors (_errors s ++ [msg])%list s)
  | None => (Raise IndexError, s)
  end.
Proof.
  intros Hf. unfold report_error.
  destruct (format m a) as [msg|] eqn:F.
  - rewrite (bind_ok _ _ s msg s) by (unfold fmt; now rewrite F).
    rewrite (bind_ok get _ s s s) by reflexivity. rewrite Hf. reflexivity.
  - apply bind_raise. unfold fmt. now rewrite F.
Qed.

(** *** Collect-all mode: no check raises the compliance error *)

Definition collecting (s : CMORCheck) : Prop := _failerr s = false.

Definition not_compliance (e : exn) : Prop :=
  forall msg, e <> CMORCheckError msg.

Ltac collect_side :=
  unfold collecting, not_compliance, any_cube; simpl;
  first [congruence | intuition congruence].

Lemma collecting_checks c :
  In c metadata_checks \/ In c data_checks -> inv collecting not_compliance c.
Proof.
  unfold metadata_checks, data_checks. simpl.
  intros [H|H]; repeat (destruct H as [<-|H]); try contradiction.
  - apply inv_check_var_metadata with (R := any_cube); collect_side.
  - apply inv_check_fill_value.
  - apply inv_check_dim_names; collect_side.
  - apply inv_check_coords with (R := any_cube); collect_side.
  - apply inv_check_time_coord with (R := any_cube); collect_side.
  - apply inv_check_rank; collect_side.
  - apply inv_convert_cube_units with (R := any_cube); collect_side.
  - apply inv_check_coords_data with (R := any_cube); collect_side.
Qed.

Lemma collecting_run_all l :
  (forall c, In c l -> inv collecting not_compliance c) ->
  inv collecting not_compliance (run_all l).
Proof.
  induction l as [|c r IH]; intros H; simpl.
  - apply inv_ret.
  - apply inv_bind.
    + apply H. now left.
    + intros _. apply IH. intros c' Hc'. apply H. now right.
Qed.

Lemma report_warnings_keeps s s' :
  report_warnings s = (Ok tt, s') ->
  _errors s' = _errors s /\ _cube s' = _cube s /\ _failerr s' = _failerr s.
Proof.
  destruct (report_warnings_run s) as [l Hl]. rewrite Hl.
  intros [= <-]. now destruct s.
Qed.

(** In collect-all mode a phase raises the compliance error only from its
    batch report, after all its checks have run. *)
Lemma collect_phase_raises (checks : list (M unit))
    (phase : M Cube) (after : M Cube) s msg s2 :
  (forall s, phase s = (run_all checks ;; report_warnings ;; report_errors
                        ;; after) s) ->
  (forall c, In c checks -> inv collecting not_compliance c) ->
  inv collecting not_compliance after ->
  _failerr s = false ->
  (phase s = (Raise (CMORCheckError msg), s2) <->
   exists s1, run_all checks s = (Ok tt, s1) /\ _errors s1 <> []
              /\ msg = batch_message s1
              /\ report_warnings s1 = (Ok tt, s2)).
Proof.
  intros Hphase Hchecks Hafter Hf. rewrite Hphase. split.
  - intros H. apply bind_inv_raise in H. destruct H as [H | H].
    + destruct (collecting_run_all checks Hchecks s Hf) as [_ Hx].
      rewrite H in Hx. now destruct (Hx _ eq_refl msg).
    + destruct H as ([] & s1 & Hrun & H). exists s1.
      destruct (collecting_run_all checks Hchecks s Hf) as [Hf1 _].
      rewrite Hrun in Hf1. simpl in Hf1.
      destruct (report_warnings_run s1) as [l Hl].
      rewrite (bind_ok _ _ _ _ _ Hl) in H.
      destruct (report_warnings_keeps _ _ Hl) as (He & Hc & Hf2).
      unfold bind at 1 in H. rewrite report_errors_run in H.
      destruct (0 <? length (_errors (set_logged l s1)))%nat eqn:Hn.
      * injection H as <- <-. split; [exact Hrun | ]. split; [ | split].
        -- intros Hnil. rewrite He, Hnil in Hn. discriminate.
        -- unfold batch_message. now rewrite He, Hc.
        -- exact Hl.
      * exfalso.
        assert (Hc2 : collecting (set_logged l s1)).
        { unfold collecting. now rewrite Hf2. }
        destruct (Hafter _ Hc2) as [_ Hx]. rewrite H in Hx.
        now destruct (Hx _ eq_refl msg).
  - intros (s1 & Hrun & Hne & -> & Hw).
    rewrite (bind_ok _ _ _ _ _ Hrun), (bind_ok _ _ _ _ _ Hw).
    destruct (report_warnings_keeps _ _ Hw) as (He & Hc & _).
    unfold bind. rewrite report_errors_run, He.
    destruct (_errors s1) as [|x r] eqn:Hes; [contradiction | ]. simpl.
    unfold batch_message. now rewrite He, Hc, Hes.
Qed.


End Phases.



(** ** The legacy salinity unit *)

Section Psu.

Context {L : Library}.

Definition dimensionless : Unit := mkUnit "1.0" None.

(** The library calls of the checks leave the units and the attributes of
    the cube alone. *)
Definition same_metadata (c c' : Cube) : Prop :=
  cube_units c' = cube_units c /\ attributes c' = attributes c.

Definition metadata_is (U : Unit) (A : list (string * string))
    (s : CMORCheck) : Prop :=
  cube_units (_cube s) = U /\ attributes (_cube s) = A.

Lemma intersection_same_metadata c i co c' :
  intersection c i co = Some c' -> same_metadata c c'.
Proof.
  unfold intersection. destruct (modulus (units co)); [ | discriminate].
  destruct (negb _); [discriminate | ].
  destruct (too_wide _); [discriminate | ].
  intros [= <-]. split; reflexivity.
Qed.

Lemma add_categorised_same_metadata c nm f c' :
  add_categorised_coord c nm f = Ok c' -> same_metadata c c'.
Proof.
  unfold add_categorised_coord. destruct (coord_by_name c "time");
    [ | discriminate].
  destruct (existsb _ _); [discriminate | ].
  destruct (negb _); [discriminate | ].
  intros [= <-]. split; reflexivity.
Qed.

Ltac meta_side :=
  first [ exact Logic.I
        | solve [eauto using intersection_same_metadata,
                             add_categorised_same_metadata]
        | unfold metadata_is, same_metadata, any_exn; simpl;
          intuition congruence ].

(** What follows the repair in the metadata phase keeps the units and the
    attributes. *)
Lemma after_repair_keeps U A :
  inv (metadata_is U A) any_exn
    (check_units ;; check_attributes ;; _check_fill_value ;; _check_dim_names
     ;; _check_coords ;; _check_time_coord ;; _check_rank ;; report_warnings
     ;; report_errors ;; _add_auxiliar_time_coordinates ;;
     s <- get ;; ret (_cube s)).
Proof.
  assert (H1 : inv (metadata_is U A) any_exn check_units)
    by (apply inv_check_units; meta_side).
  assert (H2 : inv (metadata_is U A) any_exn check_attributes)
    by (apply inv_check_attributes; meta_side).
  assert (H3 : inv (metadata_is U A) any_exn _check_dim_names)
    by (apply inv_check_dim_names; meta_side).
  assert (H4 : inv (metadata_is U A) any_exn _check_coords)
    by (apply inv_check_coords with (R := same_metadata); meta_side).
  assert (H5 : inv (metadata_is U A) any_exn _check_time_coord)
    by (apply inv_check_time_coord with (R := same_metadata); meta_side).
  assert (H6 : inv (metadata_is U A) any_exn _check_rank)
    by (apply inv_check_rank; meta_side).
  assert (H7 : inv (metadata_is U A) any_exn report_warnings)
    by (apply inv_report_warnings; meta_side).
  assert (H8 : inv (metadata_is U A) any_exn report_errors)
    by (apply inv_report_errors; meta_side).
  assert (H9 : inv (metadata_is U A) any_exn _add_auxiliar_time_coordinates)
    by (apply inv_add_auxiliar_time_coordinates with (R := same_metadata);
        meta_side).
  assert (H0 : inv (metadata_is U A) any_exn _check_fill_value)
    by apply inv_check_fill_value.
  repeat first [assumption | inv_step].
Qed.

Lemma get_effective_units_run s :
  _get_effective_units s =
  (Ok (if lower (vi_units (_cmor_var s)) =? "psu" then "1.0"
       else vi_units (_cmor_var s)), s).
Proof.
  unfold _get_effective_units, bind, get.
  destruct (lower (vi_units (_cmor_var s)) =? "psu"); reflexivity.
Qed.

Lemma psu_truthy u : lower u = "psu" -> truthy u = true.
Proof. destruct u; [discriminate | reflexivity]. Qed.

Lemma attr_get_del a k : attr_get (attr_del a k) k = None.
Proof.
  induction a as [|[k' v] r IH]; simpl; [reflexivity | ].
  destruct (k' =? k) eqn:Hk; simpl; [exact IH | ].
  now rewrite Hk.
Qed.

(** The [invalid_units] attribute of the cube, as the checker reads it *)
Definition invalid_units (c : Cube) : string :=
  match attr_get (attributes c) "invalid_units" with
  | Some v => v
  | None => ""
  end.

(** The standard name check has nothing to report. *)
Definition standard_name_ok (s : CMORCheck) : bool :=
  negb (truthy (vi_standard_name (_cmor_var s)))
  || opt_eqb (cube_standard_name (_cube s))
             (Some (vi_standard_name (_cmor_var s))).

Lemma check_standard_name_returns s :
  _failerr s = false \/ standard_name_ok s = true ->
  exists s1, check_standard_name s = (Ok tt, s1)
             /\ _cube s1 = _cube s
             /\ automatic_fixes s1 = automatic_fixes s.
Proof.
  intros H. unfold check_standard_name, standard_name_ok in *.
  rewrite (bind_ok get _ s s s) by reflexivity.
  destruct (truthy _); simpl; [ | now exists s].
  destruct (opt_eqb _ _); simpl; [now exists s | ].
  destruct H as [H | H]; [ | discriminate].
  rewrite report_error_collect by exact H.
  rewrite format_attr_msg. eexists. split; [reflexivity | ].
  now destruct s.
Qed.

Lemma fix_invalid_units_run s :
  automatic_fixes s = true ->
  lower (invalid_units (_cube s)) = "psu" ->
  fix_invalid_units s =
  (Ok tt,
   set_cube (with_attributes (with_units (_cube s) dimensionless)
               (attr_del (attributes (_cube s)) "invalid_units")) s).
Proof.
  intros Ha Hp. unfold fix_invalid_units, invalid_units in *.
  rewrite (bind_ok get _ s s s) by reflexivity.
  rewrite Ha, Hp. reflexivity.
Qed.

Lemma check_metadata_blocks s :
  check_metadata s =
  (check_standard_name ;; fix_invalid_units ;; check_units ;; check_attributes
   ;; _check_fill_value ;; _check_dim_names ;; _check_coords
   ;; _check_time_coord ;; _check_rank ;; report_warnings ;; report_errors
   ;; _add_auxiliar_time_coordinates ;; s <- get ;; ret (_cube s)) s.
Proof.
  unfold check_metadata, _check_var_metadata.
  rewrite bind_assoc. apply bind_ext; intros.
  rewrite bind_assoc. apply bind_ext; intros.
  rewrite bind_assoc. reflexivity.
Qed.

(** C4 (as amended).  When the units of the specification are psu in any
    letter case, the effective units are the dimensionless unit, and they are
    what the convertibility check of the metadata phase and the conversion of
    the data phase use.  When automatic fixes are on and the cube carries the
    attribute invalid_units with the value psu in any letter case, then,
    unless the standard name check that comes first raises (fail-fast mode
    with a standard name that differs), check_metadata leaves a cube whose
    units are dimensionless and which has lost the attribute, whether it
    returns or raises later. *)
Theorem psu_is_dimensionless (s : CMORCheck) :
  (lower (vi_units (_cmor_var s)) = "psu" ->
   _get_effective_units s = (Ok "1.0", s)
   /\ check_units s =
      (if is_convertible (cube_units (_cube s)) "1.0" then (Ok tt, s)
       else report_error
              ("Variable " ++ str_opt (cube_var_name (_cube s)) ++ " units "
               ++ str_unit (cube_units (_cube s)) ++ " can not be "
               ++ "converted to " ++ vi_units (_cmor_var s)) [] s)
   /\ convert_cube_units s =
      (if str_unit (cube_units (_cube s)) =? "1.0" then (Ok tt, s)
       else if is_unknown (cube_units (_cube s))
            then (Raise UnitConversionError, s)
       else if is_convertible (cube_units (_cube s)) "1.0"
            then (Ok tt, set_cube (with_units (_cube s) dimensionless) s)
            else (Raise ValueError, s)))
  /\
  (automatic_fixes s = true ->
   lower (invalid_units (_cube s)) = "psu" ->
   _failerr s = false \/ standard_name_ok s = true ->
   cube_units (_cube (snd (check_metadata s))) = dimensionless
   /\ attr_get (attributes (_cube (snd (check_metadata s)))) "invalid_units"
      = None).
Proof.
  split.
  - intros Hp. pose proof (psu_truthy _ Hp) as Ht.
    assert (He : _get_effective_units s = (Ok "1.0", s)).
    { rewrite get_effective_units_run, Hp. reflexivity. }
    split; [exact He | split].
    + unfold check_units. rewrite (bind_ok get _ s s s) by reflexivity.
      rewrite Ht. simpl. rewrite (bind_ok _ _ _ _ _ He).
      rewrite (bind_ok get _ s s s) by reflexivity.
      destruct (is_convertible _ _); reflexivity.
    + unfold convert_cube_units. rewrite (bind_ok get _ s s s) by reflexivity.
      rewrite Ht. simpl. rewrite (bind_ok _ _ _ _ _ He).
      rewrite (bind_ok get _ s s s) by reflexivity.
      destruct (str_unit _ =? "1.0"); simpl; [reflexivity | ].
      unfold cube_convert_units, bind.
      destruct (is_unknown _); [reflexivity | ].
      destruct (is_convertible _ _); reflexivity.
  - intros Ha Hp Hn.
    destruct (check_standard_name_returns s Hn) as (s1 & H1 & Hc & Ha1).
    assert (H2 := fix_invalid_units_run s1).
    rewrite Ha1, Hc in H2. specialize (H2 Ha Hp).
    set (A := attr_del (attributes (_cube s)) "invalid_units") in *.
    assert (Hg : metadata_is dimensionless A (snd (check_metadata s))).
    { rewrite check_metadata_blocks.
      rewrite (bind_ok _ _ _ _ _ H1), (bind_ok _ _ _ _ _ H2).
      apply after_repair_keeps. split; reflexivity. }
    destruct Hg as [Hu Hat]. split; [exact Hu | ].
    rewrite Hat. apply attr_get_del.
Qed.

End Psu.

(** A salinity cube with the legacy attribute, under a checker with automatic
    fixes: the effective units of the specification are dimensionless, and
    the metadata phase leaves the cube dimensionless and without the
    attribute. *)
Lemma psu_is_dimensionless_witness :
  let s := init (Sample.so_cube "sea_water_salinity") Sample.so_info None
             true true in
  _get_effective_units s = (Ok "1.0", s)
  /\ cube_units (_cube (snd (check_metadata (L := Lib360.lib) s)))
     = dimensionless
  /\ attr_get (attributes (_cube (snd (check_metadata (L := Lib360.lib) s))))
       "invalid_units" = None.
Proof.
  intros s.
  destruct (psu_is_dimensionless (L := Lib360.lib) s) as [H1 H2].
  split.
  - apply H1. reflexivity.
  - apply H2; [reflexivity | reflexivity | right; reflexivity].
Defined.

(** C4 as stated fails: in fail-fast mode a cube whose standard name differs
    from the specification makes check_metadata raise from the standard name
    check, before the repair: the units stay as they were and the attribute
    stays on the cube, although automatic fixes are on. *)
Lemma psu_repair_not_reached :
  let s := init (Sample.so_cube "sea_water_practical_salinity")
             Sample.so_info None true true in
  automatic_fixes s = true
  /\ lower (invalid_units (_cube s)) = "psu"
  /\ (exists msg,
        fst (check_metadata (L := Lib360.lib) s) = Raise (CMORCheckError msg))
  /\ cube_units (_cube (snd (check_metadata (L := Lib360.lib) s)))
     = mkUnit "unknown" None
  /\ attr_get (attributes (_cube (snd (check_metadata (L := Lib360.lib) s))))
       "invalid_units" = Some "PSU".
Proof.
  intros s. repeat split; try (vm_compute; reflexivity).
  eexists. vm_compute. reflexivity.
Qed.

(** ** The frequency of the time axis *)

Definition consecutive {A} (l : list A) : list (A * A) := combine l (tl l).

(** The test of the monthly loop on one pair of dates *)
Definition month_follows (first second : datetime) : bool :=
  let second_month := (month first + 1)%Z in
  let second_year := year first in
  let '(second_month, second_year) :=
    if (second_month =? 13)%Z then (1%Z, (second_year + 1)%Z)
    else (second_month, second_year) in
  (second_month =? month second)%Z && (second_year =? year second)%Z.

(** One calendar month apart: the next month of the same year, or January
    of the next year after December *)
Definition one_month_after (first second : datetime) : Prop :=
  (month first = 12 /\ month second = 1 /\ year second = year first + 1)%Z
  \/ (month first <> 12 /\ month second = month first + 1
      /\ year second = year first)%Z.

Definition monthly (cells : list datetime) : Prop :=
  Forall (fun ab => one_month_after (fst ab) (snd ab)) (consecutive cells).

(** The test of the interval loop on one pair of points *)
Definition gap_fits (t : Q * Q) (p q : Q) : bool :=
  negb (Qltb (q - p) (fst t) || Qltb (snd t) (q - p)).

Definition gaps_within (lo hi : Q) (pts : list Q) : Prop :=
  Forall (fun pq => lo <= snd pq - fst pq /\ snd pq - fst pq <= hi)%Q
         (consecutive pts).

Section Frequency.

Context {L : Library}.

Lemma month_follows_spec d1 d2 :
  month_follows d1 d2 = true <-> one_month_after d1 d2.
Proof.
  unfold month_follows, one_month_after.
  destruct (month d1 + 1 =? 13)%Z eqn:H13.
  - apply Z.eqb_eq in H13. rewrite andb_true_iff, !Z.eqb_eq. lia.
  - apply Z.eqb_neq in H13. rewrite andb_true_iff, !Z.eqb_eq. lia.
Qed.

Lemma consecutive_cons {A} (a b : A) r :
  consecutive (a :: b :: r) = (a, b) :: consecutive (b :: r).
Proof. reflexivity. Qed.

Lemma monthly_forallb cells :
  forallb (fun ab => month_follows (fst ab) (snd ab)) (consecutive cells)
  = true <-> monthly cells.
Proof.
  unfold monthly. rewrite forallb_forall, Forall_forall.
  split; intros H x Hx; apply month_follows_spec; now apply H.
Qed.

Lemma Qltb_false x y : Qltb x y = false <-> (y <= x)%Q.
Proof.
  unfold Qltb. rewrite negb_false_iff. apply Qle_bool_iff.
Qed.

Lemma gap_fits_spec lo hi p q :
  gap_fits (lo, hi) p q = true <-> (lo <= q - p /\ q - p <= hi)%Q.
Proof.
  unfold gap_fits. simpl. rewrite negb_true_iff, orb_false_iff.
  now rewrite !Qltb_false.
Qed.

Lemma gaps_forallb lo hi pts :
  forallb (fun pq => gap_fits (lo, hi) (fst pq) (snd pq)) (consecutive pts)
  = true <-> gaps_within lo hi pts.
Proof.
  unfold gaps_within. rewrite forallb_forall, Forall_forall.
  split; intros H x Hx; apply gap_fits_spec; now apply H.
Qed.

(** The loops report once, at the first pair that fails, and return when
    no pair fails. *)
Lemma mon_scan_run vn freq cells s :
  mon_scan vn freq cells s =
  if forallb (fun ab => month_follows (fst ab) (snd ab)) (consecutive cells)
  then (Ok tt, s)
  else report_error frequency_msg [vn; freq] s.
Proof.
  induction cells as [|d r IH]; [reflexivity | ].
  destruct r as [|d' r']; [reflexivity | ].
  rewrite consecutive_cons.
  cbn [forallb fst snd]. unfold month_follows at 1.
  cbn [mon_scan].
  destruct (month d + 1 =? 13)%Z;
    destruct (_ =? month d')%Z; destruct (_ =? year d')%Z; simpl;
    try reflexivity; exact IH.
Qed.

Lemma interval_scan_run vn freq t pts s :
  interval_scan vn freq t pts s =
  if forallb (fun pq => gap_fits t (fst pq) (snd pq)) (consecutive pts)
  then (Ok tt, s)
  else report_error frequency_msg [vn; freq] s.
Proof.
  induction pts as [|p r IH]; [reflexivity | ].
  destruct r as [|q r']; [reflexivity | ].
  rewrite consecutive_cons.
  cbn [forallb fst snd]. unfold gap_fits at 1.
  cbn [interval_scan].
  destruct (Qltb (q - p) (fst t) || Qltb (snd t) (q - p)); simpl;
    [reflexivity | exact IH].
Qed.

(** The time axis after [normalize_time]: converted points, the reference
    epoch, the simplified calendar *)
Definition normalized_time (coord : Coord) (p : list Q) : Coord :=
  set_units (set_points coord p)
    (mkUnit reference_epoch (_simplify_calendar (calendar (units coord)))).

(** The points of the time axis in the reference epoch, when the cube has a
    time axis with a time reference unit that converts *)
Definition time_axis (c : Cube) : option (nat * Coord * list Q) :=
  match dim_coord_by_name c "time" with
  | Some (i, coord) =>
      if is_time_reference (units coord) then
        match convert_points (units coord)
                (mkUnit reference_epoch (calendar (units coord)))
                (points coord) with
        | Some p => Some (i, coord, p)
        | None => None
        end
      else None
  | None => None
  end.

Lemma check_time_coord_run s i coord p :
  time_axis (_cube s) = Some (i, coord, p) ->
  _check_time_coord s =
  check_frequency (normalized_time coord p) (str_opt (var_name coord))
    (set_cube (set_dim_coord (_cube s) i (normalized_time coord p)) s).
Proof.
  unfold time_axis, _check_time_coord. intros H.
  rewrite (bind_ok get _ s s s) by reflexivity.
  destruct (dim_coord_by_name (_cube s) "time") as [[i' coord']|];
    [ | discriminate].
  destruct (is_time_reference (units coord')) eqn:Ht; [ | discriminate].
  destruct (convert_points _ _ _) as [p'|] eqn:Hp; [ | discriminate].
  injection H as -> -> ->.
  unfold normalize_time. rewrite Ht. simpl negb. cbv iota.
  rewrite Hp. reflexivity.
Qed.

Lemma cell_points_scan coord vn freq s :
  is_time_reference (units coord) = true ->
  (cells <- cell_points coord ;; mon_scan vn freq cells) s =
  mon_scan vn freq (map (num2date (units coord)) (points coord)) s.
Proof.
  intros Ht. unfold cell_points. rewrite Ht.
  destruct (length (points coord) <? 2)%nat eqn:Hl; [ | reflexivity].
  destruct (points coord) as [|p [|q r]]; try reflexivity.
  discriminate.
Qed.

Lemma check_frequency_mon coord vn s :
  frequency s = "mon" ->
  is_time_reference (units coord) = true ->
  check_frequency coord vn s =
  if forallb (fun ab => month_follows (fst ab) (snd ab))
       (consecutive (map (num2date (units coord)) (points coord)))
  then (Ok tt, s)
  else report_error frequency_msg [vn; "mon"] s.
Proof.
  intros Hf Ht. unfold check_frequency.
  rewrite (bind_ok get _ s s s) by reflexivity.
  rewrite Hf. cbn [String.eqb Ascii.eqb Bool.eqb].
  rewrite cell_points_scan by exact Ht.
  apply mon_scan_run.
Qed.

Lemma in_consecutive {A} (pre : list A) a b rest :
  In (a, b) (consecutive (pre ++ a :: b :: rest)%list).
Proof.
  induction pre as [|x pre' IH].
  - simpl. now left.
  - destruct pre' as [|y pre'']; simpl in *; right; exact IH.
Qed.

Lemma report_error_changes m a s : report_error m a s <> (Ok tt, s).
Proof.
  intros H. destruct (_failerr s) eqn:Hf.
  - rewrite report_error_fail_fast in H by exact Hf.
    destruct (format m a); discriminate.
  - rewrite report_error_collect in H by exact Hf.
    destruct (format m a) as [msg|]; [ | discriminate].
    injection H as H. apply (f_equal _errors) in H. simpl in H.
    apply (f_equal (@length string)) in H. rewrite length_app in H.
    simpl in H. lia.
Qed.

(** C3.  For the frequency mon, on a cube whose time axis has a time
    reference unit: the time check returns without reporting exactly when
    every pair of neighbouring dates is one calendar month apart (January of
    the next year after December).  Otherwise it reports the frequency error
    once (one message appended in collect-all mode, the compliance error
    raised in fail-fast mode), and the scan ends at the first failing pair:
    what follows that pair has no influence. *)
Theorem monthly_frequency_check (s : CMORCheck) i coord p :
  frequency s = "mon" ->
  time_axis (_cube s) = Some (i, coord, p) ->
  is_time_reference (units (normalized_time coord p)) = true ->
  let coord' := normalized_time coord p in
  let s' := set_cube (set_dim_coord (_cube s) i coord') s in
  let cells := map (num2date (units coord')) p in
  let vn := str_opt (var_name coord) in
  let msg := vn ++ ": Frequency mon does not match input data" in
  (_check_time_coord s = (Ok tt, s') <-> monthly cells)
  /\ (~ monthly cells ->
      (_failerr s = false ->
       _check_time_coord s
       = (Ok tt, set_errors (_errors s ++ [msg])%list s'))
      /\
      (_failerr s = true ->
       _check_time_coord s
       = (Raise (CMORCheckError
                   (msg ++ nl ++ "in cube:" ++ nl ++ str_cube (_cube s'))),
          s')))
  /\ (forall pre d1 d2 rest rest' st,
        monthly (pre ++ [d1])%list -> ~ one_month_after d1 d2 ->
        mon_scan vn "mon" (pre ++ d1 :: d2 :: rest)%list st
        = mon_scan vn "mon" (pre ++ d1 :: d2 :: rest')%list st).
Proof.
  intros Hf Hax Ht coord' s' cells vn msg.
  assert (Hrun : _check_time_coord s =
                 if forallb (fun ab => month_follows (fst ab) (snd ab))
                      (consecutive cells)
                 then (Ok tt, s')
                 else report_error frequency_msg [vn; "mon"] s').
  { rewrite (check_time_coord_run s i coord p Hax).
    now rewrite check_frequency_mon. }
  split; [ | split].
  - rewrite Hrun. rewrite <- monthly_forallb.
    destruct (forallb _ _); split; intros H; try reflexivity;
      try discriminate.
    now apply report_error_changes in H.
  - intros Hn. rewrite <- monthly_forallb in Hn. rewrite Hrun.
    destruct (forallb _ _); [now destruct Hn | ].
    split; intros Hm.
    + rewrite report_error_collect by exact Hm.
      now rewrite format_frequency_msg.
    + rewrite report_error_fail_fast by exact Hm.
      now rewrite format_frequency_msg.
  - intros pre d1 d2 rest rest' st _ Hbad.
    rewrite !mon_scan_run.
    assert (Hfalse : forall r,
               forallb (fun ab => month_follows (fst ab) (snd ab))
                 (consecutive (pre ++ d1 :: d2 :: r)%list) = false).
    { intros r. apply not_true_is_false. intros H.
      rewrite forallb_forall in H.
      specialize (H _ (in_consecutive pre d1 d2 r)).
      apply month_follows_spec in H. now apply Hbad. }
    now rewrite !Hfalse.
Qed.

(** *** Frequencies in hours *)

Lemma app_hr_not_r N : (N ++ "hr" =? "r") = false.
Proof.
  destruct N as [|c [|c' r]]; try reflexivity.
  - simpl. destruct (Ascii.eqb c "r"); reflexivity.
  - simpl. destruct (Ascii.eqb c "r"); reflexivity.
Qed.

Lemma endswith_hr_app N : endswith_hr (N ++ "hr") = true.
Proof.
  induction N as [|c r IH]; [reflexivity | ].
  simpl. now rewrite app_hr_not_r.
Qed.

Lemma app_hr_two N : exists a b t, N ++ "hr" = String a (String b t).
Proof. destruct N as [|a [|b t]]; simpl; eauto. Qed.

Lemma drop_last2_app N : drop_last2 (N ++ "hr") = N.
Proof.
  induction N as [|c r IH]; [reflexivity | ].
  change (String c r ++ "hr") with (String c (r ++ "hr")).
  destruct (app_hr_two r) as (a & b & t & H).
  rewrite H in *. simpl in *. now rewrite IH.
Qed.

Lemma hr_differs N k : endswith_hr k = false -> (N ++ "hr" =? k) = false.
Proof.
  intros Hk. apply String.eqb_neq. intros <-.
  rewrite endswith_hr_app in Hk. discriminate.
Qed.

Lemma check_frequency_subhr coord vn s :
  frequency s = "subhr" ->
  check_frequency coord vn s =
  interval_scan vn "subhr" (- tol, 1 / 24 + tol)%Q (points coord) s.
Proof.
  intros Hf. unfold check_frequency.
  rewrite (bind_ok get _ s s s) by reflexivity.
  rewrite Hf. reflexivity.
Qed.

Lemma check_frequency_hr coord vn s N f :
  frequency s = N ++ "hr" -> N <> "sub" -> py_float N = Some f ->
  check_frequency coord vn s =
  interval_scan vn (N ++ "hr") (f / 24 - tol, f / 24 + tol)%Q
    (points coord) s.
Proof.
  intros Hf Hn Hp. unfold check_frequency.
  rewrite (bind_ok get _ s s s) by reflexivity.
  rewrite Hf. cbv zeta. rewrite !hr_differs by reflexivity.
  unfold intervals. cbn [intervals_get].
  rewrite !(String.eqb_sym _ (N ++ "hr")), !hr_differs by reflexivity.
  rewrite endswith_hr_app, drop_last2_app.
  apply String.eqb_neq in Hn. rewrite Hn.
  rewrite Hp. reflexivity.
Qed.

(** What the time check does with a test [ok] of the gaps: it returns
    without reporting exactly when the test holds, and otherwise reports the
    frequency error once. *)
Definition frequency_outcome (s s' : CMORCheck) (vn : string) (ok : Prop)
  : Prop :=
  let msg :=
    vn ++ ": Frequency " ++ frequency s ++ " does not match input data" in
  (_check_time_coord s = (Ok tt, s') <-> ok)
  /\ (~ ok ->
      (_failerr s = false ->
       _check_time_coord s
       = (Ok tt, set_errors (_errors s ++ [msg])%list s'))
      /\
      (_failerr s = true ->
       _check_time_coord s
       = (Raise (CMORCheckError
                   (msg ++ nl ++ "in cube:" ++ nl ++ str_cube (_cube s'))),
          s'))).

Lemma interval_outcome s s' vn lo hi pts :
  _check_time_coord s = interval_scan vn (frequency s) (lo, hi) pts s' ->
  _failerr s' = _failerr s -> _errors s' = _errors s ->
  frequency_outcome s s' vn (gaps_within lo hi pts).
Proof.
  intros Hrun Hfe Her. unfold frequency_outcome.
  rewrite Hrun, interval_scan_run. rewrite <- gaps_forallb.
  destruct (forallb _ _); split.
  - split; reflexivity.
  - intros H. now destruct H.
  - split; intros H; [now apply report_error_changes in H | discriminate].
  - intros _. split; intros Hm.
    + rewrite report_error_collect by congruence.
      rewrite format_frequency_msg, Her. reflexivity.
    + rewrite report_error_fail_fast by congruence.
      rewrite format_frequency_msg. reflexivity.
Qed.

End Frequency.

(** Three mid-month dates of 1950 pass the monthly check. *)
Lemma monthly_frequency_check_witness :
  let s := init Sample.tas Sample.tas_info None false false in
  frequency s = "mon"
  /\ fst (_check_time_coord (L := Lib360.lib) s) = Ok tt
  /\ _errors (snd (_check_time_coord (L := Lib360.lib) s)) = [].
Proof.
  intros s.
  destruct (monthly_frequency_check (L := Lib360.lib) s 0
              (Sample.time_coord [15; 45; 75]%Q) [15; 45; 75]%Q
              eq_refl eq_refl eq_refl) as [H _].
  assert (Hm : monthly (map (num2date (Library := Lib360.lib)
                               (units (normalized_time
                                         (Sample.time_coord [15; 45; 75]%Q)
                                         [15; 45; 75]%Q)))
                          [15; 45; 75]%Q)).
  { unfold monthly. simpl.
    apply Forall_cons; [ | apply Forall_cons; [ | apply Forall_nil]];
      right; cbv; repeat split; congruence. }
  apply H in Hm. rewrite Hm. repeat split; reflexivity.
Defined.

Section HourlyFrequency.

Context {L : Library}.

(** C5 (as amended).  On a cube whose time axis has a time reference unit:
    for the sub-hourly frequency (token subhr) the time check accepts the
    gaps between neighbouring points from minus the tolerance 0.001 up to
    1/24 plus the tolerance; for every other token N followed by hr, with N
    a number, it accepts the gaps from N/24 minus the tolerance up to N/24
    plus the tolerance.  In both cases it otherwise reports the frequency
    error once, and the scan ends at the first failing pair. *)
Theorem hourly_frequency_check (s : CMORCheck) i coord p :
  time_axis (_cube s) = Some (i, coord, p) ->
  let s' := set_cube (set_dim_coord (_cube s) i (normalized_time coord p)) s in
  let vn := str_opt (var_name coord) in
  (frequency s = "subhr" ->
   frequency_outcome s s' vn (gaps_within (- tol) (1 / 24 + tol) p))
  /\
  (forall N f,
     frequency s = N ++ "hr" -> N <> "sub" -> py_float N = Some f ->
     frequency_outcome s s' vn
       (gaps_within (f / 24 - tol) (f / 24 + tol) p))
  /\
  (forall t pre p1 p2 rest rest' st,
     gap_fits t p1 p2 = false ->
     interval_scan vn (frequency s) t (pre ++ p1 :: p2 :: rest)%list st
     = interval_scan vn (frequency s) t (pre ++ p1 :: p2 :: rest')%list st).
Proof.
  intros Hax s' vn. split; [ | split].
  - intros Hf. apply interval_outcome; try reflexivity.
    rewrite (check_time_coord_run s i coord p Hax).
    rewrite check_frequency_subhr by exact Hf. now rewrite Hf.
  - intros N f Hf Hn Hp. apply interval_outcome; try reflexivity.
    rewrite (check_time_coord_run s i coord p Hax).
    rewrite (check_frequency_hr _ _ _ N f) by assumption. now rewrite Hf.
  - intros t pre p1 p2 rest rest' st Hbad.
    rewrite !interval_scan_run.
    assert (Hfalse : forall r,
               forallb (fun pq => gap_fits t (fst pq) (snd pq))
                 (consecutive (pre ++ p1 :: p2 :: r)%list) = false).
    { intros r. apply not_true_is_false. intros H.
      rewrite forallb_forall in H.
      specialize (H _ (in_consecutive pre p1 p2 r)). simpl in H.
      congruence. }
    now rewrite !Hfalse.
Qed.

End HourlyFrequency.

(** Three-hourly and sub-hourly series on the sample grid *)
Lemma hourly_frequency_check_witness :
  let three := init (Sample.tas_cube [0; 1 # 8; 2 # 8]%Q [-45; 45]%Q [10; 80]%Q)
                 Sample.tas_info (Some "3hr") false false in
  let sub := init (Sample.tas_cube [0; 1 # 48; 2 # 48]%Q [-45; 45]%Q [10; 80]%Q)
               Sample.tas_info (Some "subhr") false false in
  fst (_check_time_coord (L := Lib360.lib) three) = Ok tt
  /\ fst (_check_time_coord (L := Lib360.lib) sub) = Ok tt.
Proof.
  intros three sub. split.
  - destruct (hourly_frequency_check (L := Lib360.lib) three 0
                (Sample.time_coord [0; 1 # 8; 2 # 8]%Q) [0; 1 # 8; 2 # 8]%Q
                eq_refl) as (_ & H & _).
    destruct (H "3" 3%Q eq_refl ltac:(discriminate) eq_refl) as [Hok _].
    rewrite (proj2 Hok); [reflexivity | ].
    unfold gaps_within. simpl.
    apply Forall_cons; [ | apply Forall_cons; [ | apply Forall_nil]];
      simpl; split; vm_compute; discriminate.
  - destruct (hourly_frequency_check (L := Lib360.lib) sub 0
                (Sample.time_coord [0; 1 # 48; 2 # 48]%Q)
                [0; 1 # 48; 2 # 48]%Q eq_refl) as (H & _ & _).
    destruct (H eq_refl) as [Hok _].
    rewrite (proj2 Hok); [reflexivity | ].
    unfold gaps_within. simpl.
    apply Forall_cons; [ | apply Forall_cons; [ | apply Forall_nil]];
      simpl; split; vm_compute; discriminate.
Defined.

(** C5 as stated fails: under the sub-hourly frequency a gap below zero, down
    to minus the tolerance, is accepted, so the lower bound is not 0.  (And
    the token has no blank: with a blank before hr the prefix is not the word
    sub, and its conversion to a number raises.) *)
Lemma subhr_accepts_gap_below_zero :
  let pts := [0; - (1 # 2000)]%Q in
  let s := init (Sample.tas_cube pts [-45; 45]%Q [10; 80]%Q)
             Sample.tas_info (Some "subhr") false false in
  let blank := init (Sample.tas_cube pts [-45; 45]%Q [10; 80]%Q)
                 Sample.tas_info (Some "sub hr") false false in
  ~ gaps_within 0 (1 / 24 + tol) pts
  /\ fst (_check_time_coord (L := Lib360.lib) s) = Ok tt
  /\ _errors (snd (_check_time_coord (L := Lib360.lib) s)) = []
  /\ fst (_check_time_coord (L := Lib360.lib) blank) = Raise ValueError.
Proof.
  intros pts s blank. split; [ | repeat split; vm_compute; reflexivity].
  intros H. unfold gaps_within in H. simpl in H.
  inversion H as [|x l [Hlo _] _]. simpl in Hlo.
  vm_compute in Hlo. now apply Hlo.
Qed.

(** ** The direction of a coordinate *)

(** The outcome [r] of a method started in [s] has reported [msg]: the
    compliance error was raised, or [msg] is the last message appended to the
    error list. *)
Definition reported (r : result unit * CMORCheck) (s : CMORCheck)
    (msg : string) : Prop :=
  (exists text, fst r = Raise (CMORCheckError text))
  \/ (fst r = Ok tt
      /\ exists before, _errors (snd r) = (_errors s ++ before ++ [msg])%list).

Section Direction.

Context {L : Library}.

(** The monotonicity test that opens the check *)
Definition monotonic_test (coord : Coord) (vn : string) : M unit :=
  monotonic <- lift_result (is_monotonic coord) ;;
  when (negb monotonic) (report_error _is_msg [vn; "monotonic"]).

(** What the test reports for a coordinate that is not monotonic *)
Definition not_monotonic (vn : string) (s : CMORCheck)
  : result unit * CMORCheck :=
  if _failerr s then
    (Raise (CMORCheckError
              ((vn ++ ": is not monotonic") ++ nl ++ "in cube:" ++ nl
               ++ str_cube (_cube s))), s)
  else (Ok tt,
        set_errors (_errors s ++ [(vn ++ ": is not monotonic")%string])%list s).

Lemma monotonic_test_run coord vn s :
  monotonic_test coord vn s =
  match is_monotonic coord with
  | Ok true => (Ok tt, s)
  | Ok false => not_monotonic vn s
  | Raise e => (Raise e, s)
  end.
Proof.
  unfold monotonic_test, not_monotonic.
  destruct (is_monotonic coord) as [[|]|e]; try reflexivity.
  cbn [lift_result]. rewrite (bind_ok (ret false) _ s false s) by reflexivity.
  simpl. destruct (_failerr s) eqn:Hf.
  - rewrite report_error_fail_fast by exact Hf. now rewrite format_is_msg.
  - rewrite report_error_collect by exact Hf. now rewrite format_is_msg.
Qed.

(** A coordinate of one dimension with a point has an answer. *)
Lemma is_monotonic_returns coord :
  ndim coord = 1%nat -> points coord <> [] ->
  is_monotonic coord
  = Ok (increasing (points coord) || decreasing (points coord)).
Proof.
  intros Hn Hp. unfold is_monotonic. rewrite Hn. simpl.
  destruct (points coord); [contradiction | reflexivity].
Qed.

Lemma is_monotonic_refuses coord :
  ndim coord <> 1%nat -> is_monotonic coord = Raise CoordinateMultiDimError.
Proof.
  intros Hn. unfold is_monotonic.
  apply Nat.eqb_neq in Hn. now rewrite Hn.
Qed.

(** After the monotonicity test, reporting [dir] is reporting an error and
    leaves the cube alone. *)
Lemma test_then_report coord vn dir s b :
  is_monotonic coord = Ok b ->
  let r := (monotonic_test coord vn ;; report_error _is_msg [vn; dir]) s in
  reported r s (vn ++ ": is not " ++ dir) /\ _cube (snd r) = _cube s.
Proof.
  intros Hb. unfold bind. rewrite monotonic_test_run, Hb. unfold not_monotonic.
  destruct b; [ | destruct (_failerr s) eqn:Hf].
  - destruct (_failerr s) eqn:Hf.
    + rewrite report_error_fail_fast by exact Hf. rewrite format_is_msg.
      split; [left; eexists; reflexivity | reflexivity].
    + rewrite report_error_collect by exact Hf. rewrite format_is_msg.
      split; [right; split; [reflexivity | now exists []] | reflexivity].
  - split; [left; eexists; reflexivity | reflexivity].
  - rewrite report_error_collect by exact Hf. rewrite format_is_msg.
    split; [ | reflexivity]. right. split; [reflexivity | ].
    exists [(vn ++ ": is not monotonic")%string]. simpl.
    now rewrite <- app_assoc.
Qed.

(** The check on a coordinate whose first two points run against the stored
    direction *)
Lemma direction_mismatch_run cmor coord vn s p0 p1 rest dir :
  points coord = p0 :: p1 :: rest ->
  ci_stored_direction cmor = dir ->
  (dir = "increasing" /\ (p1 < p0)%Q) \/ (dir = "decreasing" /\ (p0 < p1)%Q) ->
  _check_coord_monotonicity_and_direction cmor coord vn s =
  (monotonic_test coord vn ;;
   s <- get ;;
   if negb (automatic_fixes s) || (1 <? ndim coord)%nat
   then report_error _is_msg [vn; dir]
   else _reverse_coord coord) s.
Proof.
  intros Hp Hd Hdir. unfold _check_coord_monotonicity_and_direction.
  unfold monotonic_test. rewrite bind_assoc.
  apply bind_ext. intros b s0. apply bind_ext. intros [] s1.
  rewrite Hp. cbn [length Nat.eqb]. unfold point_at. rewrite Hp.
  cbn [nth_error lift_opt]. rewrite Hd.
  assert (Hlt : forall x y, (x < y)%Q -> Qltb x y = true).
  { intros x y H. unfold Qltb. apply negb_true_iff.
    destruct (Qle_bool y x) eqn:E; [ | reflexivity].
    apply Qle_bool_iff in E. exfalso. now apply (Qlt_not_le x y). }
  destruct Hdir as [[-> H] | [-> H]].
  - cbn. rewrite (Hlt _ _ H). reflexivity.
  - cbn. rewrite (Hlt _ _ H). reflexivity.
Qed.

Lemma bind_ext_on {A B} (m : M A) (k k' : A -> M B) s :
  (forall a s1, m s = (Ok a, s1) -> k a s1 = k' a s1) ->
  bind m k s = bind m k' s.
Proof.
  intros H. unfold bind. destruct (m s) as [[a|e] s1]; [ | reflexivity].
  now apply H.
Qed.

Lemma monotonic_test_keeps coord vn s s1 :
  monotonic_test coord vn s = (Ok tt, s1) ->
  automatic_fixes s1 = automatic_fixes s.
Proof.
  rewrite monotonic_test_run. unfold not_monotonic.
  destruct (is_monotonic coord) as [[|]|e];
    [now intros [= <-] | | discriminate].
  destruct (_failerr s); [discriminate | now intros [= <-]].
Qed.


End Direction.



(** ** Longitudes outside the valid range *)

(** The state [s1] differs from [s] at most in the warnings and the two
    output channels. *)
Definition only_warned (s s1 : CMORCheck) : Prop :=
  _cube s1 = _cube s /\ _errors s1 = _errors s /\ _failerr s1 = _failerr s
  /\ automatic_fixes s1 = automatic_fixes s.

(** Every requested value of the specification reads as a number. *)
Definition numbers {L : Library} (l : list string) : Prop :=
  Forall (fun v => py_float v <> None) l.

Definition in_range (p : Q) : Prop := (0 <= p /\ p < 360)%Q.

Section Longitude.

Context {L : Library}.

Lemma only_warned_refl s : only_warned s s.
Proof. repeat split. Qed.

Lemma only_warned_trans s s1 s2 :
  only_warned s s1 -> only_warned s1 s2 -> only_warned s s2.
Proof. unfold only_warned. intuition congruence. Qed.

Lemma format_contain_msg (v x u : string) :
  format _contain_msg [v; x; u]
  = Some (v ++ ": does not contain " ++ x ++ " " ++ u).
Proof.
  intros; vm_compute; repeat f_equal; try reflexivity; apply append_empty_r.
Qed.

Lemma report_warning_returns m a s msg :
  format m a = Some msg ->
  exists s1, report_warning m a s = (Ok tt, s1) /\ only_warned s s1.
Proof.
  intros F. unfold report_warning.
  rewrite (bind_ok _ _ s msg s) by (unfold fmt; now rewrite F).
  rewrite (bind_ok get _ s s s) by reflexivity.
  destruct (_failerr s).
  - erewrite bind_ok by (unfold fmt; now rewrite format_warning_line).
    eexists. split; [reflexivity | repeat split].
  - eexists. split; [reflexivity | repeat split].
Qed.

Lemma floats_return l :
  numbers l -> exists qs, forall s, floats l s = (Ok qs, s).
Proof.
  induction 1 as [|v r Hv _ IH].
  - exists []. reflexivity.
  - destruct IH as [qs Hqs]. destruct (py_float v) as [x|] eqn:Hx;
      [ | contradiction].
    exists (x :: qs). intros s. simpl. rewrite Hx.
    unfold bind at 1. simpl. unfold bind at 1. rewrite Hqs. reflexivity.
Qed.

Lemma requested_values_return coord info vn s :
  numbers (ci_requested info) ->
  exists s1, _check_requested_values coord info vn s = (Ok tt, s1)
             /\ only_warned s s1.
Proof.
  intros Hn. unfold _check_requested_values.
  destruct (ci_requested info) as [|v r] eqn:Hr.
  - exists s. split; [reflexivity | apply only_warned_refl].
  - destruct (floats_return _ Hn) as [qs Hqs].
    rewrite (bind_ok _ _ _ _ _ (Hqs s)).
    clear Hqs Hn Hr. revert s. induction qs as [|q qs IH]; intros s.
    + exists s. split; [reflexivity | apply only_warned_refl].
    + cbn [for_each].
      destruct (negb (existsb (Qeq_bool q) (points coord))).
      * destruct (report_warning_returns _ _ s _
                    (format_contain_msg vn (str_float q)
                       (str_unit (units coord)))) as (s1 & H1 & Hw1).
        cbn [when]. rewrite (bind_ok _ _ _ _ _ H1).
        destruct (IH s1) as (s2 & H2 & Hw2).
        exists s2. split; [exact H2 | ].
        now apply only_warned_trans with s1.
      * cbn [when]. rewrite (bind_ok (ret tt) _ s tt s) by reflexivity.
        apply IH.
Qed.

Lemma wrap_lon_in_range p : in_range (wrap_lon p).
Proof.
  unfold in_range, wrap_lon, turns.
  pose proof (Qfloor_le (p / 360)) as Hlo.
  pose proof (Qlt_floor (p / 360)) as Hhi.
  rewrite inject_Z_plus in Hhi. change (inject_Z 1) with 1%Q in Hhi.
  generalize dependent (inject_Z (Qfloor (p / 360))). intros x Hlo Hhi.
  assert (H1 : (p / 360 == p * (1 # 360))%Q) by (unfold Qdiv; reflexivity).
  rewrite H1 in Hlo, Hhi. split; lra.
Qed.

Lemma in_rotate {A} k (l : list A) x : In x (rotate k l) <-> In x l.
Proof.
  unfold rotate. rewrite in_app_iff.
  rewrite <- (firstn_skipn k l) at 3. rewrite in_app_iff. tauto.
Qed.

Lemma nth_error_replace_nth {A} i (x y : A) l :
  nth_error l i = Some y -> nth_error (replace_nth i x l) i = Some x.
Proof.
  revert i. induction l as [|z r IH]; intros [|i] H; simpl in *;
    try discriminate; [reflexivity | now apply IH].
Qed.

Lemma exists_below vmin pts p :
  In p pts -> (p < vmin)%Q -> existsb (fun q => Qltb q vmin) pts = true.
Proof.
  intros Hin Hlt. apply existsb_exists. exists p. split; [exact Hin | ].
  unfold Qltb. apply negb_true_iff.
  destruct (Qle_bool vmin p) eqn:E; [ | reflexivity].
  apply Qle_bool_iff in E. exfalso. now apply (Qlt_not_le p vmin).
Qed.

Lemma check_valid_min_run info coord vn l s vmin :
  truthy (ci_valid_min info) = true ->
  py_float (ci_valid_min info) = Some vmin ->
  existsb (fun p => Qltb p vmin) (points coord) = true ->
  check_valid_min info coord vn l s =
  if (ci_standard_name info =? "longitude") && automatic_fixes s
  then (Ok true, s)
  else (report_error _vals_msg [vn; "< valid_min ="; str_float vmin] ;;
        ret l) s.
Proof.
  intros Ht Hf He. unfold check_valid_min. rewrite Ht, Hf.
  cbn [lift_opt]. rewrite (bind_ok (ret vmin) _ s vmin s) by reflexivity.
  rewrite He. rewrite (bind_ok get _ s s s) by reflexivity.
  destruct (_ && _); [reflexivity | ].
  erewrite bind_ok by (unfold fmt; now rewrite format_bound).
  reflexivity.
Qed.

(** With the re-wrap already decided the upper test changes nothing. *)
Lemma check_valid_max_fixing info coord vn s :
  ci_standard_name info = "longitude" -> automatic_fixes s = true ->
  truthy (ci_valid_max info) = false
  \/ (exists vmax, py_float (ci_valid_max info) = Some vmax) ->
  check_valid_max info coord vn true s = (Ok true, s).
Proof.
  intros Hl Ha Hm. unfold check_valid_max.
  destruct (truthy (ci_valid_max info)); [ | reflexivity].
  destruct Hm as [Hm | [vmax Hm]]; [discriminate | ].
  rewrite Hm. cbn [lift_opt].
  rewrite (bind_ok (ret vmax) _ s vmax s) by reflexivity.
  destruct (existsb _ _); [ | reflexivity].
  rewrite (bind_ok get _ s s s) by reflexivity.
  rewrite Hl, Ha. reflexivity.
Qed.

(** Without automatic fixes, in collect-all mode, the upper test returns the
    flag as it got it and appends at most its own message. *)
Lemma check_valid_max_collect info coord vn s :
  automatic_fixes s = false -> _failerr s = false ->
  truthy (ci_valid_max info) = false
  \/ (exists vmax, py_float (ci_valid_max info) = Some vmax) ->
  exists s1 after,
    check_valid_max info coord vn false s = (Ok false, s1)
    /\ _cube s1 = _cube s /\ _errors s1 = (_errors s ++ after)%list.
Proof.
  intros Ha Hf Hm. unfold check_valid_max.
  destruct (truthy (ci_valid_max info)).
  2:{ exists s, []. now rewrite app_nil_r. }
  destruct Hm as [Hm | [vmax Hm]]; [discriminate | ].
  rewrite Hm. cbn [lift_opt].
  rewrite (bind_ok (ret vmax) _ s vmax s) by reflexivity.
  destruct (existsb _ _).
  2:{ exists s, []. now rewrite app_nil_r. }
  rewrite (bind_ok get _ s s s) by reflexivity.
  rewrite Ha, andb_false_r.
  erewrite bind_ok by (unfold fmt; vm_compute; reflexivity).
  unfold bind. rewrite report_error_collect by exact Hf.
  rewrite format_vals_msg. eexists. eexists.
  split; [reflexivity | split; reflexivity].
Qed.

(** Whether the library makes the intersection for the coordinate: its
    units have the modulus 360 and its points span no more than that. *)
Definition rewrappable (co : Coord) : bool :=
  match modulus (units co) with
  | Some m => Qeq_bool m 360 && negb (too_wide (points co))
  | None => false
  end.

Lemma intersection_refused c i co :
  rewrappable co = false -> intersection c i co = None.
Proof.
  unfold rewrappable, intersection.
  destruct (modulus (units co)) as [m|]; [ | reflexivity].
  destruct (Qeq_bool m 360); simpl; [ | reflexivity].
  destruct (too_wide (points co)); [reflexivity | discriminate].
Qed.

Lemma intersection_made c i co :
  rewrappable co = true -> exists c', intersection c i co = Some c'.
Proof.
  unfold rewrappable, intersection.
  destruct (modulus (units co)) as [m|]; [ | discriminate].
  destruct (Qeq_bool m 360); simpl; [ | discriminate].
  destruct (too_wide (points co)); [discriminate | ].
  intros _. eexists. reflexivity.
Qed.

Lemma intersection_longitudes c i coord c' :
  intersection c i coord = Some c' ->
  nth_error (dim_coords c) i = Some coord ->
  exists lon,
    nth_error (dim_coords c') i = Some lon
    /\ points lon
       = rotate (second_block (points coord)) (map wrap_lon (points coord))
    /\ Forall in_range (points lon)
    /\ (forall q, In q (points coord) -> In (wrap_lon q) (points lon)).
Proof.
  unfold intersection.
  destruct (modulus (units coord)) as [m|]; [ | discriminate].
  destruct (negb _); [discriminate | ].
  destruct (too_wide _); [discriminate | ].
  intros [= <-] Hi. eexists. split; [ | split; [ | split]].
  - unfold set_dim_coord. cbn [dim_coords with_coords].
    eapply nth_error_replace_nth.
    apply map_nth_error. exact Hi.
  - reflexivity.
  - cbn [points set_points]. apply Forall_forall. intros q Hq.
    apply in_rotate, in_map_iff in Hq. destruct Hq as (x & <- & _).
    apply wrap_lon_in_range.
  - intros q Hq. cbn [points set_points]. apply in_rotate.
    now apply in_map.
Qed.


End Longitude.



(** ** The auxiliary coordinates of the time axis *)

Definition time_categories : list string :=
  ["day_of_month"; "day_of_year"; "month_number"; "year"].

Section AuxiliaryCoordinates.

Context {L : Library}.

Lemma add_categorised_coord_ok c nm f c' :
  truthy nm = true ->
  add_categorised_coord c nm f = Ok c' ->
  exists new, aux_coords c' = (aux_coords c ++ [new])%list
              /\ name new = nm /\ var_name new = None
              /\ dim_coords c' = dim_coords c
              /\ existsb (has_name nm) (all_coords c) = false
              /\ coord_by_name c "time" <> None.
Proof.
  intros Hnm. unfold add_categorised_coord.
  destruct (coord_by_name c "time") as [t|]; [ | discriminate].
  destruct (existsb _ _); [discriminate | ].
  destruct (negb _); [discriminate | ].
  intros [= <-]. eexists. split; [reflexivity | ].
  repeat split; try discriminate.
  unfold name. simpl. now rewrite Hnm.
Qed.

Lemma add_if_absent_ok coords nm cat s s' :
  truthy nm = true ->
  add_if_absent coords nm cat s = (Ok tt, s') ->
  exists added,
    aux_coords (_cube s') = (aux_coords (_cube s) ++ added)%list
    /\ map name added = (if existsb (String.eqb nm) coords then [] else [nm])
    /\ dim_coords (_cube s') = dim_coords (_cube s).
Proof.
  intros Hnm. unfold add_if_absent.
  destruct (existsb (String.eqb nm) coords); simpl.
  - intros [= <-]. exists []. now rewrite app_nil_r.
  - rewrite (bind_ok get _ s s s) by reflexivity.
    destruct (add_categorised_coord (_cube s) nm cat) as [c|e] eqn:Hc;
      [ | discriminate].
    intros [= <-].
    destruct (add_categorised_coord_ok _ _ _ _ Hnm Hc)
      as (new & Ha & Hn & _ & Hd & _).
    exists [new]. simpl. now rewrite Hn.
Qed.

(** What the method adds: for each of the four names, in order, one
    coordinate of that name if no auxiliary coordinate had it. *)
Lemma add_auxiliar_time_coordinates_ok s1 s2 :
  _add_auxiliar_time_coordinates s1 = (Ok tt, s2) ->
  exists added,
    aux_coords (_cube s2) = (aux_coords (_cube s1) ++ added)%list
    /\ map name added =
       filter (fun nm => negb (existsb (String.eqb nm)
                                 (map name (aux_coords (_cube s1)))))
              time_categories
    /\ dim_coords (_cube s2) = dim_coords (_cube s1).
Proof.
  unfold _add_auxiliar_time_coordinates. intros H.
  rewrite (bind_ok get _ s1 s1 s1) in H by reflexivity.
  set (coords := map name (aux_coords (_cube s1))) in *.
  apply bind_inv_ok in H. destruct H as ([] & sa & Ha & H).
  apply bind_inv_ok in H. destruct H as ([] & sb & Hb & H).
  apply bind_inv_ok in H. destruct H as ([] & sc & Hc & Hd).
  apply add_if_absent_ok in Ha; [ | reflexivity].
  apply add_if_absent_ok in Hb; [ | reflexivity].
  apply add_if_absent_ok in Hc; [ | reflexivity].
  apply add_if_absent_ok in Hd; [ | reflexivity].
  destruct Ha as (a1 & Ha1 & Hn1 & Hd1). destruct Hb as (a2 & Ha2 & Hn2 & Hd2).
  destruct Hc as (a3 & Ha3 & Hn3 & Hd3). destruct Hd as (a4 & Ha4 & Hn4 & Hd4).
  exists (a1 ++ a2 ++ a3 ++ a4)%list. split; [ | split].
  - rewrite Ha4, Ha3, Ha2, Ha1. now rewrite <- !app_assoc.
  - rewrite !map_app, Hn1, Hn2, Hn3, Hn4. unfold time_categories.
    cbn [filter].
    destruct (existsb (String.eqb "day_of_month") coords);
      destruct (existsb (String.eqb "day_of_year") coords);
      destruct (existsb (String.eqb "month_number") coords);
      destruct (existsb (String.eqb "year") coords); reflexivity.
  - congruence.
Qed.

(** The metadata phase up to and including its batch report *)
Definition before_attachment : M unit :=
  run_all metadata_checks ;; report_warnings ;; report_errors.

Lemma check_metadata_attaches s :
  check_metadata s =
  (before_attachment ;; _add_auxiliar_time_coordinates ;;
   s <- get ;; ret (_cube s)) s.
Proof.
  rewrite check_metadata_run. unfold before_attachment, metadata_tail.
  rewrite !bind_assoc. apply bind_ext. intros [] s1.
  rewrite bind_assoc. reflexivity.
Qed.

Lemma existsb_eqb_in nm l : existsb (String.eqb nm) l = true <-> In nm l.
Proof.
  rewrite existsb_exists. split.
  - intros (x & Hx & He). apply String.eqb_eq in He. now subst.
  - intros H. exists nm. split; [exact H | apply String.eqb_refl].
Qed.

Lemma add_if_absent_present coords nm cat s :
  existsb (String.eqb nm) coords = true ->
  add_if_absent coords nm cat s = (Ok tt, s).
Proof. intros H. unfold add_if_absent. now rewrite H. Qed.

Lemma add_if_absent_no_time coords nm cat s :
  existsb (String.eqb nm) coords = false ->
  coord_by_name (_cube s) "time" = None ->
  add_if_absent coords nm cat s = (Raise CoordinateNotFoundError, s).
Proof.
  intros H Ht. unfold add_if_absent. rewrite H. simpl.
  rewrite (bind_ok get _ s s s) by reflexivity.
  unfold add_categorised_coord. now rewrite Ht.
Qed.

Lemma add_auxiliar_no_time s :
  coord_by_name (_cube s) "time" = None ->
  (exists nm, In nm time_categories
              /\ ~ In nm (map name (aux_coords (_cube s)))) ->
  _add_auxiliar_time_coordinates s = (Raise CoordinateNotFoundError, s).
Proof.
  intros Ht (nm & Hin & Hnot). unfold _add_auxiliar_time_coordinates.
  rewrite (bind_ok get _ s s s) by reflexivity.
  set (coords := map name (aux_coords (_cube s))) in *.
  destruct (existsb (String.eqb "day_of_month") coords) eqn:H1.
  2:{ apply bind_raise. now apply add_if_absent_no_time. }
  rewrite (bind_ok _ _ _ _ _ (add_if_absent_present _ _ _ s H1)).
  destruct (existsb (String.eqb "day_of_year") coords) eqn:H2.
  2:{ apply bind_raise. now apply add_if_absent_no_time. }
  rewrite (bind_ok _ _ _ _ _ (add_if_absent_present _ _ _ s H2)).
  destruct (existsb (String.eqb "month_number") coords) eqn:H3.
  2:{ apply bind_raise. now apply add_if_absent_no_time. }
  rewrite (bind_ok _ _ _ _ _ (add_if_absent_present _ _ _ s H3)).
  destruct (existsb (String.eqb "year") coords) eqn:H4.
  2:{ now apply add_if_absent_no_time. }
  exfalso. apply Hnot. apply existsb_eqb_in.
  unfold time_categories in Hin. simpl in Hin.
  destruct Hin as [<- | [<- | [<- | [<- | []]]]]; assumption.
Qed.


End AuxiliaryCoordinates.


(** ** The units after the data phase *)

Section DataPhase.

Context {L : Library}.

(** The units that [_get_effective_units] returns *)
Definition effective_units (v : VariableInfo) : string :=
  if lower (vi_units v) =? "psu" then "1.0" else vi_units v.

Definition units_are (u : string) (s : CMORCheck) : Prop :=
  str_unit (cube_units (_cube s)) = u.

Definition same_units (c c' : Cube) : Prop := cube_units c' = cube_units c.

Lemma convert_cube_units_ok s s1 :
  truthy (vi_units (_cmor_var s)) = true ->
  convert_cube_units s = (Ok tt, s1) ->
  units_are (effective_units (_cmor_var s)) s1
  /\ _cmor_var s1 = _cmor_var s.
Proof.
  intros Ht. unfold convert_cube_units.
  rewrite (bind_ok get _ s s s) by reflexivity. rewrite Ht. cbn [when].
  rewrite (bind_ok _ _ _ _ _ (get_effective_units_run s)).
  fold (effective_units (_cmor_var s)).
  rewrite (bind_ok get _ s s s) by reflexivity.
  destruct (str_unit (cube_units (_cube s)) =? effective_units (_cmor_var s))
    eqn:He; cbn [negb when].
  - intros [= <-]. split; [ | reflexivity].
    now apply String.eqb_eq in He.
  - destruct (cube_convert_units _ _) as [c|e] eqn:Hc; [ | discriminate].
    apply cube_convert_units_returns in Hc. destruct Hc as (_ & _ & ->).
    cbn [lift_result]. intros [= <-]. split; reflexivity.
Qed.

Lemma after_conversion_keeps u :
  inv (units_are u) any_exn
    (_check_coords_data ;; report_warnings ;; report_errors ;;
     s <- get ;; ret (_cube s)).
Proof.
  assert (H1 : inv (units_are u) any_exn _check_coords_data).
  { apply inv_check_coords_data with (R := same_units);
      unfold units_are, same_units, any_exn; simpl;
      first [exact Logic.I | congruence | intuition congruence]. }
  assert (H2 : inv (units_are u) any_exn report_warnings).
  { apply inv_report_warnings;
      unfold units_are, any_exn; simpl;
      first [exact Logic.I | congruence | intuition congruence]. }
  assert (H3 : inv (units_are u) any_exn report_errors).
  { apply inv_report_errors;
      unfold units_are, any_exn; simpl;
      first [exact Logic.I | congruence | intuition congruence]. }
  repeat first [assumption | inv_step].
Qed.

(** Whenever the specification declares units and the data phase returns,
    the cube it returns has the effective units of the specification,
    whatever the automatic fixes flag. *)
Lemma check_data_units s c s' :
  truthy (vi_units (_cmor_var s)) = true ->
  check_data s = (Ok c, s') ->
  str_unit (cube_units c) = effective_units (_cmor_var s).
Proof.
  intros Ht H. unfold check_data in H.
  apply bind_inv_ok in H. destruct H as ([] & s1 & Hc & H).
  destruct (convert_cube_units_ok s s1 Ht Hc) as [Hu _].
  pose proof (proj1 (after_conversion_keeps _ s1 Hu)) as Hk.
  rewrite H in Hk. simpl in Hk.
  apply bind_inv_ok in H. destruct H as ([] & s2 & _ & H).
  apply bind_inv_ok in H. destruct H as ([] & s3 & _ & H).
  apply bind_inv_ok in H. destruct H as ([] & s4 & _ & H).
  injection H as <- <-. exact Hk.
Qed.

End DataPhase.

(** C8 fails on the code.  The land area fraction cube has the units and
    exactly the coordinates of its specification, which has no time axis:
    every check of the metadata phase passes and nothing is reported, in
    either mode and with or without automatic fixes, and check_metadata
    raises the not-found error of the library, from the attachment of the
    time categories. *)
Theorem metadata_phase_needs_time_axis :
  forall fail_on_error automatic : bool,
    let s := init Sample.sftlf Sample.sftlf_info None fail_on_error automatic in
    is_convertible (Library := Lib360.lib) (cube_units (_cube s))
      (vi_units (_cmor_var s)) = true
    /\ before_attachment (L := Lib360.lib) s = (Ok tt, s)
    /\ check_metadata (L := Lib360.lib) s = (Raise CoordinateNotFoundError, s).
Proof.
  intros [|] [|]; repeat split; vm_compute; reflexivity.
Qed.

(** ** Running the metadata phase again *)

(** The cube with more auxiliary coordinates behind those it has *)
Definition extend (c : Cube) (E : list Coord) : Cube :=
  with_coords c (dim_coords c) (aux_coords c ++ E)%list.

(** *** The steps of the metadata checks

    The checks of [check_metadata] before its reports, with the loop of
    [_check_coords] over the coordinates of the specification [v] written
    out, and the cube after each of them. *)

Section Steps.

Context {L : Library}.

Definition metadata_steps (v : VariableInfo) : list (M unit) :=
  ([_check_var_metadata; _check_fill_value; _check_dim_names]
   ++ map check_coords_body (coordinates_values v)
   ++ [_check_time_coord; _check_rank])%list.

Fixpoint cubes_along (l : list (M unit)) (s : CMORCheck) : list Cube :=
  match l with
  | [] => []
  | c :: r => let s' := snd (c s) in _cube s' :: cubes_along r s'
  end.

(** The cube of the checker needs no repair: it comes out of every step of
    the metadata checks as it went in (the units of its coordinates, the
    epoch and the calendar of its time axis, the range of its longitudes and
    the direction of its axes are those that the checks would set). *)
Definition normalized (s : CMORCheck) : Prop :=
  Forall (eq (_cube s)) (cubes_along (metadata_steps (_cmor_var s)) s).

End Steps.

(** *** A re-wrap that changes nothing *)

Section Rewrap.

Context {L : Library}.

Lemma Qfloor_unit x : (0 <= x)%Q -> (x < 1)%Q -> Qfloor x = 0%Z.
Proof.
  intros H0 H1.
  pose proof (Qfloor_le x) as Hlo. pose proof (Qlt_floor x) as Hhi.
  assert (Ha : (Qfloor x < 1)%Z).
  { rewrite Zlt_Qlt. eapply Qle_lt_trans; [exact Hlo | exact H1]. }
  assert (Hb : (0 < Qfloor x + 1)%Z).
  { rewrite Zlt_Qlt. eapply Qle_lt_trans; [exact H0 | exact Hhi]. }
  lia.
Qed.

Lemma turns_wrap_lon q : turns (wrap_lon q) = 0%Z.
Proof.
  destruct (wrap_lon_in_range q) as [H0 H1]. unfold turns.
  apply Qfloor_unit.
  - assert (H : (wrap_lon q / 360 == wrap_lon q * (1 # 360))%Q)
      by (unfold Qdiv; reflexivity).
    rewrite H. lra.
  - assert (H : (wrap_lon q / 360 == wrap_lon q * (1 # 360))%Q)
      by (unfold Qdiv; reflexivity).
    rewrite H. lra.
Qed.

Lemma split_index_same z l i :
  (forall p, In p l -> turns p = z) -> split_index z l i = 0%nat.
Proof.
  revert i. induction l as [|p r IH]; intros i H; simpl; [reflexivity | ].
  rewrite (H p (or_introl eq_refl)), Z.eqb_refl.
  apply IH. intros q Hq. apply H. now right.
Qed.

Lemma second_block_wrapped l :
  (forall p, In p l -> exists q, p = wrap_lon q) -> second_block l = 0%nat.
Proof.
  intros H. destruct l as [|p r]; [reflexivity | ]. simpl.
  assert (Hz : forall x, In x (p :: r) -> turns x = 0%Z).
  { intros x Hx. destruct (H x Hx) as [q ->]. apply turns_wrap_lon. }
  rewrite (Hz p (or_introl eq_refl)).
  apply split_index_same. intros x Hx. apply Hz. now right.
Qed.

Lemma rotate_0 {A} (l : list A) : rotate 0 l = l.
Proof. unfold rotate. simpl. apply app_nil_r. Qed.

Lemma set_points_same x : set_points x (points x) = x.
Proof. now destruct x. Qed.

Lemma intersection_fixed_point c i coord :
  intersection c i coord = Some c ->
  nth_error (dim_coords c) i = Some coord ->
  second_block (points coord) = 0%nat.
Proof.
  unfold intersection.
  destruct (modulus (units coord)) as [m|]; [ | discriminate].
  destruct (negb _); [discriminate | ].
  destruct (too_wide _); [discriminate | ].
  intros [= H] Hi.
  apply (f_equal (fun x => nth_error (dim_coords x) i)) in H.
  unfold set_dim_coord in H. cbn [dim_coords with_coords] in H.
  erewrite nth_error_replace_nth in H
    by (apply map_nth_error; exact Hi).
  rewrite Hi in H. injection H as H.
  apply (f_equal points) in H. cbn [points set_points] in H.
  apply second_block_wrapped. intros p Hp.
  rewrite <- H in Hp. apply in_rotate, in_map_iff in Hp.
  destruct Hp as (q & <- & _). now exists q.
Qed.

Lemma intersection_extend c i coord E :
  intersection c i coord = Some c ->
  nth_error (dim_coords c) i = Some coord ->
  intersection (extend c E) i coord = Some (extend c E).
Proof.
  intros H Hi. pose proof (intersection_fixed_point c i coord H Hi) as Hk.
  unfold intersection in *.
  destruct (modulus (units coord)) as [m|]; [ | discriminate].
  destruct (negb _); [discriminate | ].
  destruct (too_wide _); [discriminate | ].
  rewrite Hk in *. injection H as H. f_equal.
  unfold set_dim_coord, extend in *. cbn [dim_coords aux_coords with_coords
    cube_var_name cube_standard_name cube_units attributes cube_ndim] in *.
  rewrite map_app.
  assert (Hid : forall x : Coord,
             (if on_dims (dims coord) x
              then set_points x (rotate 0 (points x)) else x) = x).
  { intros x. destruct (on_dims _ x); [ | reflexivity].
    rewrite rotate_0. apply set_points_same. }
  rewrite (map_ext _ (fun x => x) Hid E), map_id.
  destruct c. cbn in *. injection H as H1 H2. now rewrite H1, H2.
Qed.

End Rewrap.

Section Frame.

Context {L : Library}.

(** The extension, and a checker that gives the configuration *)
Variable E : list Coord.
Variable cfg : CMORCheck.

(** The state with the cube extended *)
Definition ext (s : CMORCheck) : CMORCheck :=
  set_cube (extend (_cube s) E) s.

(** The state has the flags, the specification and the frequency of [cfg]. *)
Definition configured (s : CMORCheck) : Prop :=
  _failerr s = _failerr cfg /\ _cmor_var s = _cmor_var cfg
  /\ frequency s = frequency cfg /\ automatic_fixes s = automatic_fixes cfg.

(** [frame m m']: [m] keeps the configuration and only appends to the error
    list, and a run of [m] that returns without appending is matched by the
    run of [m'] on the extended cube, which returns the same and leaves the
    extension of the same state. *)
Definition frame {A} (m m' : M A) : Prop :=
  forall s, configured s ->
    configured (snd (m s))
    /\ (exists d, _errors (snd (m s)) = (_errors s ++ d)%list)
    /\ (forall a s', m s = (Ok a, s') -> _errors s' = _errors s ->
        m' (ext s) = (Ok a, ext s')).

Lemma frame_ret {A} (a : A) : frame (ret a) (ret a).
Proof.
  intros s Hs. split; [exact Hs | split].
  - exists []. simpl. now rewrite app_nil_r.
  - intros a' s' [= <- <-] _. reflexivity.
Qed.

Lemma frame_raise {A} (e e' : exn) : frame (@raise A e) (raise e').
Proof.
  intros s Hs. split; [exact Hs | split].
  - exists []. simpl. now rewrite app_nil_r.
  - discriminate.
Qed.

Lemma frame_bind {A B} (m m' : M A) (k k' : A -> M B) :
  frame m m' -> (forall a, frame (k a) (k' a)) ->
  frame (bind m k) (bind m' k').
Proof.
  intros Hm Hk s Hs. destruct (Hm s Hs) as (Hc1 & [d1 Hd1] & Hf1).
  unfold bind at 1 2 3. destruct (m s) as [[a|e] s1] eqn:Hms;
    simpl in Hd1, Hc1.
  - destruct (Hk a s1 Hc1) as (Hc2 & [d2 Hd2] & Hf2).
    split; [exact Hc2 | split].
    + exists (d1 ++ d2)%list. rewrite Hd2, Hd1. now rewrite app_assoc.
    + intros b s2 Hks He.
      rewrite Hks in Hd2. simpl in Hd2.
      assert (Hnil : (d1 ++ d2)%list = []).
      { rewrite Hd2, Hd1, <- app_assoc in He.
        rewrite <- (app_nil_r (_errors s)) in He at 2.
        now apply app_inv_head in He. }
      apply app_eq_nil in Hnil. destruct Hnil as [-> ->].
      rewrite app_nil_r in Hd1, Hd2.
      unfold bind. rewrite (Hf1 a s1 eq_refl Hd1).
      apply Hf2; [exact Hks | exact Hd2].
  - split; [exact Hc1 | split; [now exists d1 | discriminate]].
Qed.

Lemma frame_get_bind {B} (k k' : CMORCheck -> M B) :
  (forall a, configured a -> frame (k a) (k' (ext a))) ->
  frame (bind get k) (bind get k').
Proof. intros Hk s Hs. exact (Hk s Hs s Hs). Qed.

Lemma frame_modify (f f' : CMORCheck -> CMORCheck) :
  (forall s, f' (ext s) = ext (f s)) ->
  (forall s, _errors (f s) = _errors s) ->
  (forall s, configured s -> configured (f s)) ->
  frame (modify f) (modify f').
Proof.
  intros Hf He Hc s Hs. split; [now apply Hc | split].
  - exists []. simpl. now rewrite He, app_nil_r.
  - intros a s' [= <- <-] _. unfold modify. now rewrite Hf.
Qed.

Lemma frame_when (c : bool) (m m' : M unit) :
  frame m m' -> frame (when c m) (when c m').
Proof. intros H. destruct c; [exact H | apply frame_ret]. Qed.

Lemma frame_for_each {A} (l : list A) (body body' : A -> M unit) :
  (forall x, In x l -> frame (body x) (body' x)) ->
  frame (for_each l body) (for_each l body').
Proof.
  induction l as [|x r IH]; intros Hb; simpl.
  - apply frame_ret.
  - apply frame_bind.
    + apply Hb. now left.
    + intros _. apply IH. intros y Hy. apply Hb. now right.
Qed.

Lemma frame_lift_opt {A} (o : option A) (e e' : exn) :
  frame (lift_opt o e) (lift_opt o e').
Proof. destruct o; [apply frame_ret | apply frame_raise]. Qed.

Lemma frame_lift_result {A} (r : result A) :
  frame (lift_result r) (lift_result r).
Proof. destruct r; [apply frame_ret | apply frame_raise]. Qed.

(** Reporting an error does not return without appending. *)
Lemma frame_report_error m a m' a' :
  frame (report_error m a) (report_error m' a').
Proof.
  intros s Hs. destruct (_failerr s) eqn:Hf.
  - rewrite report_error_fail_fast by exact Hf.
    destruct (format m a); (split; [exact Hs | split]);
      try discriminate; exists []; simpl; now rewrite app_nil_r.
  - rewrite report_error_collect by exact Hf.
    destruct (format m a) as [msg|]; (split; [exact Hs | split]).
    + now exists [msg].
    + intros x s' [= <- <-] He. simpl in He.
      rewrite <- (app_nil_r (_errors s)) in He at 2.
      apply app_inv_head in He. discriminate.
    + exists []. simpl. now rewrite app_nil_r.
    + discriminate.
Qed.

Lemma frame_report_warning m a : frame (report_warning m a) (report_warning m a).
Proof.
  intros s Hs. destruct (format m a) as [msg|] eqn:F.
  - destruct (_failerr s) eqn:Hf.
    + rewrite report_warning_fail_fast by exact Hf. rewrite F.
      split; [exact Hs | split].
      * exists []. simpl. now rewrite app_nil_r.
      * intros x s' [= <- <-] _.
        rewrite report_warning_fail_fast by exact Hf. now rewrite F.
    + assert (Hr : forall st, _failerr st = false ->
                     report_warning m a st
                     = (Ok tt, set_warnings (_warnings st ++ [msg])%list st)).
      { intros st Hst. unfold report_warning.
        rewrite (bind_ok _ _ st msg st) by (unfold fmt; now rewrite F).
        rewrite (bind_ok get _ st st st) by reflexivity. now rewrite Hst. }
      rewrite (Hr s Hf). split; [exact Hs | split].
      * exists []. simpl. now rewrite app_nil_r.
      * intros x s' [= <- <-] _. now rewrite (Hr (ext s) Hf).
  - assert (Hr : forall st, report_warning m a st = (Raise IndexError, st)).
    { intros st. unfold report_warning. apply bind_raise.
      unfold fmt. now rewrite F. }
    rewrite Hr. split; [exact Hs | split; [ | discriminate]].
    exists []. simpl. now rewrite app_nil_r.
Qed.

(** One step of a proof of [frame]: the parts of the extended state that
    the methods read are those of the state, except the auxiliary
    coordinates. *)
Lemma dim_coord_by_name_ext a n :
  dim_coord_by_name (_cube (ext a)) n = dim_coord_by_name (_cube a) n.
Proof. reflexivity. Qed.

Lemma dim_coord_by_var_name_ext a v :
  dim_coord_by_var_name (_cube (ext a)) v
  = dim_coord_by_var_name (_cube a) v.
Proof. reflexivity. Qed.

Ltac frame_norm :=
  rewrite ?dim_coord_by_name_ext, ?dim_coord_by_var_name_ext;
  cbn beta iota delta
    [ext extend set_cube with_coords _cube _failerr _errors _warnings
     _cmor_var frequency automatic_fixes printed logged cube_var_name
     cube_standard_name cube_units attributes cube_ndim dim_coords].

Ltac frame_step :=
  frame_norm;
  lazymatch goal with
  | |- frame (bind get _) (bind get _) => apply frame_get_bind; intros ? ?
  | |- frame (bind _ _) (bind _ _) => apply frame_bind; [ | intros ? ]
  | |- frame (ret _) (ret _) => apply frame_ret
  | |- frame (when ?c _) (when ?c _) => apply frame_when
  | |- frame (for_each ?l _) (for_each ?l _) =>
      apply frame_for_each; intros ? ?
  | |- frame (lift_opt ?o _) (lift_opt ?o _) => apply frame_lift_opt
  | |- frame (lift_result ?r) (lift_result ?r) => apply frame_lift_result
  | |- frame (raise _) (raise _) => apply frame_raise
  | |- frame (report_error _ _) (report_error _ _) => apply frame_report_error
  | |- frame (report_warning _ _) (report_warning _ _) =>
      apply frame_report_warning
  | |- frame (modify _) (modify _) =>
      apply frame_modify; [intros ?; reflexivity | intros ?; reflexivity
                          | intros ? ?; assumption]
  | |- frame (if ?b then _ else _) (if ?b then _ else _) => destruct b eqn:?
  | |- frame (match ?x with _ => _ end) (match ?x with _ => _ end) =>
      destruct x eqn:?
  end.

Create HintDb framedb.

Ltac frame_auto := repeat (first [frame_step | solve [auto with framedb]]).

Lemma frame_fmt t a : frame (fmt t a) (fmt t a).
Proof. unfold fmt. frame_auto. Qed.

Hint Resolve frame_fmt : framedb.

Lemma frame_check_standard_name : frame check_standard_name check_standard_name.
Proof. unfold check_standard_name. frame_auto. Qed.

Lemma frame_fix_invalid_units : frame fix_invalid_units fix_invalid_units.
Proof. unfold fix_invalid_units. frame_auto. Qed.

Lemma frame_get_effective_units :
  frame _get_effective_units _get_effective_units.
Proof. unfold _get_effective_units. frame_auto. Qed.

Hint Resolve frame_get_effective_units : framedb.

Lemma frame_check_units : frame check_units check_units.
Proof. unfold check_units. frame_auto. Qed.

Lemma frame_check_attributes : frame check_attributes check_attributes.
Proof. unfold check_attributes, getattr. frame_auto. Qed.

Lemma frame_check_fill_value : frame _check_fill_value _check_fill_value.
Proof. unfold _check_fill_value. frame_auto. Qed.

Lemma frame_cell_points coord : frame (cell_points coord) (cell_points coord).
Proof. unfold cell_points. frame_auto. Qed.

Lemma frame_mon_scan vn freq cells :
  frame (mon_scan vn freq cells) (mon_scan vn freq cells).
Proof.
  induction cells as [|d r IH]; simpl; [frame_auto | ].
  destruct r as [|d' r']; [frame_auto | ].
  destruct (month d + 1 =? 13)%Z; frame_auto.
Qed.

Lemma frame_yr_scan vn freq cells :
  frame (yr_scan vn freq cells) (yr_scan vn freq cells).
Proof.
  induction cells as [|d r IH]; simpl; [frame_auto | ].
  destruct r as [|d' r']; frame_auto.
Qed.

Lemma frame_interval_scan vn freq t pts :
  frame (interval_scan vn freq t pts) (interval_scan vn freq t pts).
Proof.
  induction pts as [|p r IH]; simpl; [frame_auto | ].
  destruct r as [|q r']; frame_auto.
Qed.

Hint Resolve frame_cell_points frame_mon_scan frame_yr_scan
  frame_interval_scan : framedb.

Lemma frame_normalize_time i coord vn :
  frame (normalize_time i coord vn) (normalize_time i coord vn).
Proof. unfold normalize_time. frame_auto. Qed.

Lemma frame_check_frequency coord vn :
  frame (check_frequency coord vn) (check_frequency coord vn).
Proof. unfold check_frequency. frame_auto. Qed.

Hint Resolve frame_normalize_time frame_check_frequency : framedb.

Lemma frame_check_time_coord : frame _check_time_coord _check_time_coord.
Proof. unfold _check_time_coord. frame_auto. Qed.

Lemma frame_floats l : frame (floats l) (floats l).
Proof. induction l as [|v r IH]; simpl; frame_auto. Qed.

Hint Resolve frame_floats : framedb.

Lemma frame_check_requested_values coord info vn :
  frame (_check_requested_values coord info vn)
        (_check_requested_values coord info vn).
Proof. unfold _check_requested_values. frame_auto. Qed.

Lemma frame_check_valid_min info coord vn l :
  frame (check_valid_min info coord vn l) (check_valid_min info coord vn l).
Proof. unfold check_valid_min. frame_auto. Qed.

Lemma frame_check_valid_max info coord vn l :
  frame (check_valid_max info coord vn l) (check_valid_max info coord vn l).
Proof. unfold check_valid_max. frame_auto. Qed.

(** Without automatic fixes the direction check only reports. *)
Lemma frame_check_direction cmor coord vn :
  automatic_fixes cfg = false ->
  frame (_check_coord_monotonicity_and_direction cmor coord vn)
        (_check_coord_monotonicity_and_direction cmor coord vn).
Proof.
  intros Hcfg.
  unfold _check_coord_monotonicity_and_direction, point_at. frame_auto;
    match goal with
    | Hc : configured ?a,
      Hb : negb (automatic_fixes ?a) || _ = false |- _ =>
        destruct Hc as (_ & _ & _ & Haf);
        rewrite Haf, Hcfg in Hb; discriminate
    end.
Qed.

Lemma in_combine_seq {A} (l : list A) a i x :
  In (i, x) (combine (seq a (length l)) l) ->
  exists j, i = (a + j)%nat /\ nth_error l j = Some x.
Proof.
  revert a. induction l as [|y r IH]; intros a H; simpl in H; [easy | ].
  destruct H as [[= <- <-] | H].
  - exists 0%nat. split; [lia | reflexivity].
  - destruct (IH _ H) as (j & -> & Hj). exists (S j). split; [lia | exact Hj].
Qed.

Lemma in_indexed {A} (l : list A) i x :
  In (i, x) (indexed l) -> nth_error l i = Some x.
Proof.
  intros H. destruct (in_combine_seq l 0 i x H) as (j & -> & Hj). exact Hj.
Qed.

Lemma the_one_in {A} (l : list A) x : the_one l = Some x -> In x l.
Proof.
  destruct l as [|y [|z r]]; simpl; try discriminate.
  intros [= <-]. now left.
Qed.

Lemma dim_coord_by_var_name_nth c v i coord :
  dim_coord_by_var_name c v = Some (i, coord) ->
  nth_error (dim_coords c) i = Some coord.
Proof.
  unfold dim_coord_by_var_name. intros H. apply the_one_in in H.
  apply filter_In in H. destruct H as [H _]. now apply in_indexed.
Qed.

(** What a framed method leaves when it returns *)
Lemma frame_run {A} (m m' : M A) s a s1 :
  frame m m' -> configured s -> m s = (Ok a, s1) ->
  configured s1 /\ exists d, _errors s1 = (_errors s ++ d)%list.
Proof.
  intros Hm Hs H. destruct (Hm s Hs) as (Hc & Hd & _).
  rewrite H in Hc, Hd. now split.
Qed.

Lemma frame_apply {A} (m m' : M A) s a s1 :
  frame m m' -> configured s -> m s = (Ok a, s1) ->
  _errors s1 = _errors s -> m' (ext s) = (Ok a, ext s1).
Proof. intros Hm Hs H He. destruct (Hm s Hs) as (_ & _ & Hf). now apply Hf. Qed.

Definition cube_is (c : Cube) (s : CMORCheck) : Prop := _cube s = c.

Ltac cube_side :=
  unfold cube_is, any_exn; simpl;
  first [exact Logic.I | congruence | intuition congruence].

Lemma requested_keeps_cube coord info vn s s1 :
  _check_requested_values coord info vn s = (Ok tt, s1) -> _cube s1 = _cube s.
Proof.
  intros H.
  assert (Hi : inv (cube_is (_cube s)) any_exn
                 (_check_requested_values coord info vn))
    by (apply inv_check_requested_values; cube_side).
  pose proof (proj1 (Hi s eq_refl)) as Hk. now rewrite H in Hk.
Qed.

Lemma valid_min_keeps_cube info coord vn l s l1 s1 :
  check_valid_min info coord vn l s = (Ok l1, s1) -> _cube s1 = _cube s.
Proof.
  intros H.
  assert (Hi : inv (cube_is (_cube s)) any_exn
                 (check_valid_min info coord vn l))
    by (apply inv_check_valid_min; cube_side).
  pose proof (proj1 (Hi s eq_refl)) as Hk. now rewrite H in Hk.
Qed.

Lemma valid_max_keeps_cube info coord vn l s l1 s1 :
  check_valid_max info coord vn l s = (Ok l1, s1) -> _cube s1 = _cube s.
Proof.
  intros H.
  assert (Hi : inv (cube_is (_cube s)) any_exn
                 (check_valid_max info coord vn l))
    by (apply inv_check_valid_max; cube_side).
  pose proof (proj1 (Hi s eq_refl)) as Hk. now rewrite H in Hk.
Qed.

Lemma app_unit {A} (l d : list A) : (l ++ d)%list = l -> d = [].
Proof.
  intros H. rewrite <- (app_nil_r l) in H at 2. now apply app_inv_head in H.
Qed.

(** The value check that leaves the cube as it is does the same on the
    extended cube. *)
Lemma check_coord_values_frame info i coord vn s s' :
  configured s ->
  nth_error (dim_coords (_cube s)) i = Some coord ->
  _check_coord_values info i coord vn s = (Ok tt, s') ->
  _errors s' = _errors s -> _cube s' = _cube s ->
  _check_coord_values info i coord vn (ext s) = (Ok tt, ext s').
Proof.
  intros Hs Hi H He Hc. unfold _check_coord_values in *.
  apply bind_inv_ok in H. destruct H as ([] & s1 & H1 & H).
  apply bind_inv_ok in H. destruct H as (l1 & s2 & H2 & H).
  apply bind_inv_ok in H. destruct H as (l2 & s3 & H3 & H4).
  destruct (frame_run _ _ _ _ _
              (frame_check_requested_values coord info vn) Hs H1)
    as (Hs1 & d1 & Hd1).
  destruct (frame_run _ _ _ _ _
              (frame_check_valid_min info coord vn false) Hs1 H2)
    as (Hs2 & d2 & Hd2).
  destruct (frame_run _ _ _ _ _
              (frame_check_valid_max info coord vn l1) Hs2 H3)
    as (Hs3 & d3 & Hd3).
  pose proof (requested_keeps_cube _ _ _ _ _ H1) as Hc1.
  pose proof (valid_min_keeps_cube _ _ _ _ _ _ _ H2) as Hc2.
  pose proof (valid_max_keeps_cube _ _ _ _ _ _ _ H3) as Hc3.
  assert (He4 : _errors s' = _errors s3 /\
                (l2 = false /\ s' = s3
                 \/ l2 = true /\ s' = set_cube (_cube s') s3
                    /\ intersection (_cube s3) i coord = Some (_cube s'))).
  { destruct l2; cbn [when] in H4.
    - rewrite (bind_ok get _ s3 s3 s3) in H4 by reflexivity.
      destruct (intersection (_cube s3) i coord) as [c'|];
        [ | discriminate].
      cbn in H4. injection H4 as <-. split; [reflexivity | ].
      right. repeat split.
    - injection H4 as <-. split; [reflexivity | ]. now left. }
  destruct He4 as [He4 Hfin].
  assert (Hnil : d1 = [] /\ d2 = [] /\ d3 = []).
  { rewrite He4, Hd3, Hd2, Hd1, <- !app_assoc in He.
    apply app_unit in He. apply app_eq_nil in He. destruct He as [-> He].
    apply app_eq_nil in He. now destruct He as [-> ->]. }
  destruct Hnil as (-> & -> & ->). rewrite app_nil_r in Hd1, Hd2, Hd3.
  rewrite (bind_ok _ _ _ _ _
             (frame_apply _ _ _ _ _
                (frame_check_requested_values coord info vn) Hs H1 Hd1)).
  rewrite (bind_ok _ _ _ _ _
             (frame_apply _ _ _ _ _
                (frame_check_valid_min info coord vn false) Hs1 H2 Hd2)).
  rewrite (bind_ok _ _ _ _ _
             (frame_apply _ _ _ _ _
                (frame_check_valid_max info coord vn l1) Hs2 H3 Hd3)).
  destruct Hfin as [[-> ->] | (-> & Hs' & Hx)]; [reflexivity | ].
  assert (Hc3' : _cube s3 = _cube s) by congruence.
  rewrite Hc in Hx, Hs'. rewrite Hc3' in Hx.
  cbn [when]. rewrite (bind_ok get _ (ext s3) (ext s3) (ext s3))
    by reflexivity.
  cbn [_cube ext set_cube]. rewrite Hc3'.
  rewrite (intersection_extend _ _ _ E Hx Hi). cbn.
  rewrite Hs'. unfold ext. cbn. reflexivity.
Qed.

(** The error list of the state begins with [l0]. *)
Definition errors_from (l0 : list string) (st : CMORCheck) : Prop :=
  exists d, _errors st = (l0 ++ d)%list.

Lemma errors_from_refl s : errors_from (_errors s) s.
Proof. exists []. now rewrite app_nil_r. Qed.

Lemma errors_from_append l0 msg s :
  errors_from l0 s -> errors_from l0 (set_errors (_errors s ++ [msg])%list s).
Proof.
  intros [d Hd]. exists (d ++ [msg])%list. simpl. now rewrite Hd, app_assoc.
Qed.

Ltac grow_side :=
  first [ exact Logic.I
        | intros; apply errors_from_append; assumption
        | unfold errors_from, any_exn, any_cube; simpl; intros; assumption
        | unfold errors_from, any_exn, any_cube; simpl; intuition congruence ].

Lemma check_coord_values_grows info i coord vn l0 :
  inv (errors_from l0) any_exn (_check_coord_values info i coord vn).
Proof.
  apply inv_check_coord_values with (R := any_cube); grow_side.
Qed.

Lemma check_direction_grows cmor coord vn l0 :
  inv (errors_from l0) any_exn
    (_check_coord_monotonicity_and_direction cmor coord vn).
Proof.
  apply inv_check_direction with (R := any_cube); grow_side.
Qed.

(** After the value check the coordinate at position [i] has the units of
    the coordinate the check was given. *)
Lemma check_coord_values_units info i co vn s s2 :
  nth_error (dim_coords (_cube s)) i = Some co ->
  _check_coord_values info i co vn s = (Ok tt, s2) ->
  exists x, nth_error (dim_coords (_cube s2)) i = Some x
            /\ units x = units co.
Proof.
  intros Hi H. unfold _check_coord_values in H.
  apply bind_inv_ok in H. destruct H as ([] & s1 & H1 & H).
  apply bind_inv_ok in H. destruct H as (l1 & sa & H2 & H).
  apply bind_inv_ok in H. destruct H as (l2 & s3 & H3 & H4).
  pose proof (requested_keeps_cube _ _ _ _ _ H1) as Hc1.
  pose proof (valid_min_keeps_cube _ _ _ _ _ _ _ H2) as Hc2.
  pose proof (valid_max_keeps_cube _ _ _ _ _ _ _ H3) as Hc3.
  assert (Hc : _cube s3 = _cube s) by congruence.
  destruct l2; cbn [when] in H4.
  - rewrite (bind_ok get _ s3 s3 s3) in H4 by reflexivity.
    rewrite Hc in H4.
    destruct (intersection (_cube s) i co) as [c'|] eqn:Hx;
      [ | discriminate].
    cbn in H4. injection H4 as <-. cbn [_cube set_cube].
    unfold intersection in Hx.
    destruct (modulus (units co)) as [m|]; [ | discriminate].
    destruct (negb _); [discriminate | ].
    destruct (too_wide _); [discriminate | ].
    injection Hx as <-. eexists. split.
    + unfold set_dim_coord. cbn [dim_coords with_coords].
      eapply nth_error_replace_nth. apply map_nth_error. exact Hi.
    + reflexivity.
  - injection H4 as <-. exists co. rewrite Hc. now split.
Qed.

(** Without automatic fixes the direction check leaves the cube alone. *)
Lemma check_direction_keeps_cube cmor coord vn c :
  inv (fun st => _cube st = c /\ automatic_fixes st = false) any_exn
    (_check_coord_monotonicity_and_direction cmor coord vn).
Proof.
  unfold _check_coord_monotonicity_and_direction, point_at, _reverse_coord.
  repeat first
    [ inv_step
    | apply inv_report_error;
      [ simpl; intros; assumption | exact (fun _ _ _ _ => Logic.I)
      | exact Logic.I ] ];
    try exact Logic.I;
    try match goal with
        | Ha : _ /\ automatic_fixes ?a = false,
          Hb : negb (automatic_fixes ?a) || _ = false |- _ =>
            destruct Ha as [_ Ha]; rewrite Ha in Hb; discriminate
        end.
Qed.

Ltac config_side :=
  first [ exact Logic.I
        | unfold configured, any_exn, any_cube; simpl; intros; assumption
        | unfold configured, any_exn, any_cube; simpl; intuition congruence ].

Lemma check_coord_values_configured info i coord vn :
  inv configured any_exn (_check_coord_values info i coord vn).
Proof.
  apply inv_check_coord_values with (R := any_cube); config_side.
Qed.

Lemma report_error_ok_grows m a s s1 :
  report_error m a s = (Ok tt, s1) ->
  exists msg, _errors s1 = (_errors s ++ [msg])%list.
Proof.
  destruct (_failerr s) eqn:Hf.
  - rewrite report_error_fail_fast by exact Hf.
    destruct (format m a); discriminate.
  - rewrite report_error_collect by exact Hf.
    destruct (format m a) as [msg|]; [ | discriminate].
    intros [= <-]. now exists msg.
Qed.

(** The check of one coordinate that leaves the cube as it is and reports
    nothing does the same on the extended cube. *)
Lemma check_coord_frame cmor i coord vn s s' :
  configured s ->
  nth_error (dim_coords (_cube s)) i = Some coord ->
  _check_coord cmor i coord vn s = (Ok tt, s') ->
  _errors s' = _errors s -> _cube s' = _cube s ->
  _check_coord cmor i coord vn (ext s) = (Ok tt, ext s').
Proof.
  intros Hs Hi H He Hc. unfold _check_coord in *.
  destruct (opt_eqb (var_name coord) (Some "time")).
  { injection H as <-. reflexivity. }
  apply bind_inv_ok in H. destruct H as (co & s1 & HB & H).
  apply bind_inv_ok in H. destruct H as ([] & s2 & HV & H).
  rewrite (bind_ok get _ s2 s2 s2) in H by reflexivity.
  pose proof (proj1 (check_coord_values_grows cmor i co vn (_errors s1) s1
                       (errors_from_refl s1))) as [d1 Hd1].
  rewrite HV in Hd1. cbn [snd] in Hd1.
  assert (Hd2 : exists d2, _errors s' = (_errors s2 ++ d2)%list).
  { destruct (negb (automatic_fixes s2)); cbn [when] in H.
    - pose proof (proj1 (check_direction_grows cmor co vn (_errors s2) s2
                           (errors_from_refl s2))) as Hg.
      now rewrite H in Hg.
    - injection H as <-. exists []. now rewrite app_nil_r. }
  destruct Hd2 as [d2 Hd2].
  destruct (truthy (ci_units cmor)
            && negb (str_unit (units coord) =? ci_units cmor)) eqn:Hcond.
  - rewrite (bind_ok get _ s s s) in HB by reflexivity.
    apply bind_inv_ok in HB. destruct HB as (fixed & s0 & HF & HB).
    apply convert_attempt_inv in HF. destruct HF as [-> HF].
    destruct fixed as [coord'|].
    + exfalso.
      destruct HF as [HF | [Haf HF]]; [discriminate | ].
      apply try_convert_units_fixed in HF.
      destruct HF as (_ & _ & p & _ & ->).
      cbn in HB. injection HB as <- <-.
      assert (Hi1 : nth_error
                      (dim_coords
                         (_cube
                            (set_cube
                               (set_dim_coord (_cube s) i
                                  (set_units (set_points coord p)
                                     (mkUnit (ci_units cmor)
                                        (calendar (units coord))))) s))) i
                    = Some (set_units (set_points coord p)
                              (mkUnit (ci_units cmor)
                                 (calendar (units coord))))).
      { cbn [_cube set_cube]. unfold set_dim_coord.
        cbn [dim_coords with_coords].
        eapply nth_error_replace_nth. exact Hi. }
      destruct (check_coord_values_units _ _ _ _ _ _ Hi1 HV)
        as (x & Hx & Hux).
      assert (Haf2 : automatic_fixes s2 = true).
      { pose proof (proj1 (check_coord_values_configured cmor i
                             (set_units (set_points coord p)
                                (mkUnit (ci_units cmor)
                                   (calendar (units coord)))) vn
                             (set_cube
                                (set_dim_coord (_cube s) i
                                   (set_units (set_points coord p)
                                      (mkUnit (ci_units cmor)
                                         (calendar (units coord))))) s)
                             Hs)) as Hcf.
        rewrite HV in Hcf. cbn [snd] in Hcf.
        destruct Hcf as (_ & _ & _ & Hcf). destruct Hs as (_ & _ & _ & Hs).
        congruence. }
      rewrite Haf2 in H. cbn in H. injection H as <-.
      rewrite Hc, Hi in Hx. injection Hx as <-.
      cbn in Hux. rewrite Hux in Hcond. cbn [str_unit origin] in Hcond.
      rewrite String.eqb_refl, andb_false_r in Hcond. discriminate.
    + exfalso.
      apply bind_inv_ok in HB. destruct HB as ([] & s0 & HB & HB').
      injection HB' as <- <-.
      destruct (report_error_ok_grows _ _ _ _ HB) as [msg Hm].
      rewrite Hd2, Hd1, Hm, <- !app_assoc in He.
      apply app_unit in He. discriminate.
  - injection HB as <- <-.
    assert (Hnil : d1 = [] /\ d2 = []).
    { rewrite Hd2, Hd1, <- app_assoc in He. apply app_unit in He.
      now apply app_eq_nil in He. }
    destruct Hnil as [-> ->]. rewrite app_nil_r in Hd1, Hd2.
    pose proof (proj1 (check_coord_values_configured cmor i coord vn _ Hs))
      as Hs2.
    rewrite HV in Hs2. cbn [snd] in Hs2.
    assert (Hc2 : _cube s2 = _cube s).
    { destruct (automatic_fixes s2) eqn:Haf; cbn in H.
      - injection H as <-. exact Hc.
      - pose proof (proj1 (check_direction_keeps_cube cmor coord vn
                             (_cube s2) s2 (conj eq_refl Haf))) as Hk.
        rewrite H in Hk. cbn [snd] in Hk. destruct Hk as [Hk _]. congruence. }
    rewrite (bind_ok (ret coord) _ (ext s) coord (ext s)) by reflexivity.
    rewrite (bind_ok _ _ _ _ _
               (check_coord_values_frame cmor i coord vn s s2 Hs Hi HV
                  Hd1 Hc2)).
    rewrite (bind_ok get _ (ext s2) (ext s2) (ext s2)) by reflexivity.
    cbn [automatic_fixes ext set_cube].
    destruct (automatic_fixes s2) eqn:Haf; cbn in H |- *.
    + injection H as <-. reflexivity.
    + apply (frame_apply _ _ s2 tt s'
               (frame_check_direction cmor coord vn
                  ltac:(destruct Hs2 as (_ & _ & _ & Hx); congruence))
               Hs2 H Hd2).
Qed.

(** [stable m]: as [frame m m], for a run of [m] that also leaves the cube
    as it is. *)
Definition stable (m : M unit) : Prop :=
  forall s, configured s ->
    configured (snd (m s))
    /\ (exists d, _errors (snd (m s)) = (_errors s ++ d)%list)
    /\ (forall s', m s = (Ok tt, s') -> _errors s' = _errors s ->
        _cube s' = _cube s -> m (ext s) = (Ok tt, ext s')).

Lemma frame_stable (m : M unit) : frame m m -> stable m.
Proof.
  intros H s Hs. destruct (H s Hs) as (Hc & Hd & Hf).
  split; [exact Hc | split; [exact Hd | ]].
  intros s' Hm He _. now apply Hf.
Qed.

Lemma check_coords_body_configured coordinate :
  inv configured any_exn (check_coords_body coordinate).
Proof.
  apply inv_check_coords_body with (R := any_cube); config_side.
Qed.

Lemma check_coords_body_grows coordinate l0 :
  inv (errors_from l0) any_exn (check_coords_body coordinate).
Proof.
  apply inv_check_coords_body with (R := any_cube); grow_side.
Qed.

Lemma check_coords_body_stable coordinate :
  stable (check_coords_body coordinate).
Proof.
  intros s Hs. split; [ | split].
  - exact (proj1 (check_coords_body_configured coordinate s Hs)).
  - exact (proj1 (check_coords_body_grows coordinate (_errors s) s
                    (errors_from_refl s))).
  - unfold check_coords_body.
    destruct (ci_generic_level coordinate).
    { intros s' [= <-] _ _. reflexivity. }
    intros s' H He Hc.
    rewrite (bind_ok get _ s s s) in H by reflexivity.
    rewrite (bind_ok get _ (ext s) (ext s) (ext s)) by reflexivity.
    rewrite dim_coord_by_var_name_ext.
    destruct (dim_coord_by_var_name (_cube s) (ci_out_name coordinate))
      as [[i coord]|] eqn:Hd.
    + apply check_coord_frame; try assumption.
      apply dim_coord_by_var_name_nth in Hd. exact Hd.
    + injection H as <-. reflexivity.
Qed.

(** *** The dimension names and the rank *)

Hypothesis E_var_names : forall e, In e E -> var_name e = None.

Lemma filter_none {A} (f : A -> bool) (l : list A) :
  (forall x, In x l -> f x = false) -> filter f l = [].
Proof.
  induction l as [|x r IH]; intros H; simpl; [reflexivity | ].
  rewrite (H x) by now left. apply IH. intros y Hy. apply H. now right.
Qed.

Lemma coord_by_var_name_extend c v :
  coord_by_var_name (extend c E) v = coord_by_var_name c v.
Proof.
  unfold coord_by_var_name, all_coords, extend. cbn [dim_coords aux_coords
                                                      with_coords].
  rewrite app_assoc, filter_app.
  rewrite (filter_none (has_var_name v) E), app_nil_r; [reflexivity | ].
  intros e He. unfold has_var_name. now rewrite (E_var_names e He).
Qed.

Lemma coord_by_name_extend c n :
  (forall e, In e E -> has_name n e = false) ->
  coord_by_name (extend c E) n = coord_by_name c n.
Proof.
  intros H. unfold coord_by_name, all_coords, extend.
  cbn [dim_coords aux_coords with_coords].
  rewrite app_assoc, filter_app.
  now rewrite (filter_none (has_name n) E H), app_nil_r.
Qed.

Lemma coord_by_var_name_ext a v :
  coord_by_var_name (_cube (ext a)) v = coord_by_var_name (_cube a) v.
Proof. apply coord_by_var_name_extend. Qed.

Lemma frame_check_dim_names : frame _check_dim_names _check_dim_names.
Proof.
  unfold _check_dim_names. apply frame_get_bind. intros a Ha.
  cbn [ext set_cube _cmor_var].
  apply frame_for_each. intros [k coordinate] _.
  destruct (ci_generic_level coordinate); [apply frame_ret | ].
  apply frame_get_bind. intros b Hb.
  rewrite coord_by_var_name_ext.
  destruct (coord_by_var_name (_cube b) (ci_out_name coordinate)).
  - apply frame_when. apply frame_report_error.
  - destruct (coord_by_name (_cube b) (ci_standard_name coordinate));
      destruct (coord_by_name (_cube (ext b)) (ci_standard_name coordinate));
      apply frame_report_error.
Qed.

Hypothesis E_names :
  forall e coordinate,
    In e E -> In coordinate (coordinates_values (_cmor_var cfg)) ->
    ci_generic_level coordinate = false ->
    has_name (ci_standard_name coordinate) e = false.

Lemma rank_scan_extend c l rank dimensions :
  (forall coordinate, In coordinate l ->
     In coordinate (coordinates_values (_cmor_var cfg))) ->
  rank_scan (extend c E) l rank dimensions = rank_scan c l rank dimensions.
Proof.
  revert rank dimensions.
  induction l as [|coordinate r IH]; intros rank dimensions Hl;
    [reflexivity | ].
  assert (Hr : forall x, In x r ->
                 In x (coordinates_values (_cmor_var cfg))).
  { intros x Hx. apply Hl. now right. }
  cbn [rank_scan].
  destruct (ci_generic_level coordinate) eqn:Hg; [now apply IH | ].
  destruct (negb (truthy (ci_value coordinate))); [ | now apply IH].
  rewrite coord_by_name_extend.
  - destruct (coord_by_name c (ci_standard_name coordinate));
      now apply IH.
  - intros e He. apply E_names; [exact He | apply Hl; now left | exact Hg].
Qed.

Lemma frame_check_rank : frame _check_rank _check_rank.
Proof.
  unfold _check_rank. apply frame_get_bind. intros a Ha.
  cbn [ext set_cube _cmor_var _cube].
  rewrite rank_scan_extend.
  2:{ intros x Hx. destruct Ha as (_ & Hv & _). now rewrite <- Hv. }
  destruct (rank_scan (_cube a) (coordinates_values (_cmor_var a)) 0 [])
    as [rank dimensions].
  cbn [extend with_coords cube_ndim cube_var_name].
  apply frame_when. apply frame_report_error.
Qed.

(** *** The steps on the extended cube *)

Lemma frame_check_var_metadata :
  frame _check_var_metadata _check_var_metadata.
Proof.
  unfold _check_var_metadata.
  apply frame_bind; [apply frame_check_standard_name | intros _].
  apply frame_bind; [apply frame_fix_invalid_units | intros _].
  apply frame_bind; [apply frame_check_units | intros _].
  apply frame_check_attributes.
Qed.

Lemma frame_report_warnings : frame report_warnings report_warnings.
Proof. unfold report_warnings, has_warnings. frame_auto. Qed.

Lemma metadata_steps_stable v : Forall stable (metadata_steps v).
Proof.
  unfold metadata_steps. rewrite !Forall_app. split; [ | split].
  - repeat apply Forall_cons; try apply Forall_nil; apply frame_stable.
    + apply frame_check_var_metadata.
    + apply frame_check_fill_value.
    + apply frame_check_dim_names.
  - apply Forall_forall. intros m Hm. apply in_map_iff in Hm.
    destruct Hm as (coordinate & <- & _). apply check_coords_body_stable.
  - repeat apply Forall_cons; try apply Forall_nil; apply frame_stable.
    + apply frame_check_time_coord.
    + apply frame_check_rank.
Qed.

Lemma run_all_grows l :
  Forall stable l ->
  forall s, configured s ->
    configured (snd (run_all l s))
    /\ exists d, _errors (snd (run_all l s)) = (_errors s ++ d)%list.
Proof.
  induction 1 as [|c r Hc _ IH]; intros s Hs; simpl.
  - split; [exact Hs | exists []; now rewrite app_nil_r].
  - destruct (Hc s Hs) as (Hc1 & [d1 Hd1] & _).
    unfold bind. destruct (c s) as [[[]|e] s1]; simpl in Hc1, Hd1.
    + destruct (IH s1 Hc1) as (Hc2 & [d2 Hd2]). split; [exact Hc2 | ].
      exists (d1 ++ d2)%list. now rewrite Hd2, Hd1, app_assoc.
    + split; [exact Hc1 | now exists d1].
Qed.

(** A run of steps that reports nothing and leaves the cube as it is after
    every step does the same on the extended cube. *)
Lemma run_all_stable l :
  Forall stable l ->
  forall s s', configured s ->
    run_all l s = (Ok tt, s') -> _errors s' = _errors s ->
    Forall (eq (_cube s)) (cubes_along l s) ->
    run_all l (ext s) = (Ok tt, ext s')
    /\ _cube s' = _cube s /\ configured s'.
Proof.
  induction 1 as [|c r Hc Hr IH]; intros s s' Hs Hrun He Ht; simpl in *.
  - injection Hrun as <-. repeat split; apply Hs.
  - apply bind_inv_ok in Hrun. destruct Hrun as ([] & s1 & H1 & Hrun).
    destruct (Hc s Hs) as (Hc1 & [d1 Hd1] & Hf).
    rewrite H1 in Hc1, Hd1, Ht. cbn [snd] in Hc1, Hd1, Ht.
    destruct (run_all_grows r Hr s1 Hc1) as (_ & [d2 Hd2]).
    rewrite Hrun in Hd2. cbn [snd] in Hd2.
    assert (Hnil : d1 = [] /\ d2 = []).
    { rewrite Hd2, Hd1, <- app_assoc in He. apply app_unit in He.
      now apply app_eq_nil in He. }
    destruct Hnil as [-> ->]. rewrite app_nil_r in Hd1, Hd2.
    inversion Ht as [|? ? Hcube Hrest]; subst.
    rewrite Hcube in Hrest.
    destruct (IH s1 s' Hc1 Hrun Hd2 Hrest) as (Hx & Hy & Hz).
    split; [ | split; [congruence | exact Hz]].
    rewrite (bind_ok _ _ _ _ _ (Hf s1 H1 Hd1 (eq_sym Hcube))). exact Hx.
Qed.

(** In such a run every step starts from the cube of the beginning and
    returns without reporting. *)
Lemma run_all_reaches pre c post :
  Forall stable (pre ++ c :: post)%list ->
  forall s s', configured s ->
    run_all (pre ++ c :: post)%list s = (Ok tt, s') ->
    _errors s' = _errors s ->
    Forall (eq (_cube s)) (cubes_along (pre ++ c :: post)%list s) ->
    exists s2 s3,
      configured s2 /\ _cube s2 = _cube s
      /\ c s2 = (Ok tt, s3) /\ _errors s3 = _errors s2.
Proof.
  induction pre as [|c0 pre IH]; intros Hl s s' Hs Hrun He Ht;
    cbn [app run_all cubes_along] in *;
    inversion Hl as [|? ? Hc Hr]; subst;
    apply bind_inv_ok in Hrun; destruct Hrun as ([] & s1 & H1 & Hrun);
    destruct (Hc s Hs) as (Hc1 & [d1 Hd1] & _);
    rewrite H1 in Hc1, Hd1, Ht; cbn [snd] in Hc1, Hd1, Ht;
    destruct (run_all_grows _ Hr s1 Hc1) as (_ & [d2 Hd2]);
    rewrite Hrun in Hd2; cbn [snd] in Hd2;
    assert (Hnil : d1 = [] /\ d2 = [])
      by (rewrite Hd2, Hd1, <- app_assoc in He; apply app_unit in He;
          now apply app_eq_nil in He);
    destruct Hnil as [-> ->]; rewrite app_nil_r in Hd1, Hd2.
  - exists s, s1. repeat split; try apply Hs; assumption.
  - inversion Ht as [|? ? Hcube Hrest]; subst.
    rewrite Hcube in Hrest.
    destruct (IH Hr s1 s' Hc1 Hrun Hd2 Hrest) as (s2 & s3 & K1 & K2 & K3).
    exists s2, s3. split; [exact K1 | split; [congruence | exact K3]].
Qed.

End Frame.

(** *** The second run *)

Section Again.

Context {L : Library}.

Lemma run_all_app (l1 l2 : list (M unit)) s :
  run_all (l1 ++ l2) s = (run_all l1 ;; run_all l2) s.
Proof.
  revert s. induction l1 as [|c r IH]; intros s; simpl.
  - reflexivity.
  - rewrite bind_assoc. apply bind_ext. intros [] s1. apply IH.
Qed.

Lemma run_all_map {A} (l : list A) (body : A -> M unit) s :
  run_all (map body l) s = for_each l body s.
Proof.
  revert s. induction l as [|x r IH]; intros s; simpl.
  - reflexivity.
  - apply bind_ext. intros [] s1. apply IH.
Qed.

Lemma bind_ext_l {A B} (m m' : M A) (k : A -> M B) s :
  m s = m' s -> bind m k s = bind m' k s.
Proof. intros H. unfold bind. now rewrite H. Qed.

Definition var_is (v : VariableInfo) (s : CMORCheck) : Prop :=
  _cmor_var s = v.

Ltac var_side :=
  first [ exact Logic.I
        | unfold var_is, any_exn, any_cube; simpl; intros; assumption
        | unfold var_is, any_exn, any_cube; simpl; intuition congruence ].

Lemma var_metadata_keeps_var v : inv (var_is v) any_exn _check_var_metadata.
Proof. apply inv_check_var_metadata with (R := any_cube); var_side. Qed.

Lemma fill_value_keeps_var v : inv (var_is v) any_exn _check_fill_value.
Proof. apply inv_check_fill_value; var_side. Qed.

Lemma dim_names_keeps_var v : inv (var_is v) any_exn _check_dim_names.
Proof. apply inv_check_dim_names; var_side. Qed.

(** The checks of the metadata phase are the steps of [metadata_steps] for
    the specification of the checker. *)
Lemma metadata_checks_steps s :
  run_all metadata_checks s = run_all (metadata_steps (_cmor_var s)) s.
Proof.
  unfold metadata_checks, metadata_steps.
  cbn [run_all app].
  apply bind_ext_on. intros [] s1 H1.
  apply bind_ext_on. intros [] s2 H2.
  apply bind_ext_on. intros [] s3 H3.
  rewrite run_all_app.
  transitivity
    ((for_each (coordinates_values (_cmor_var s)) check_coords_body ;;
      run_all [_check_time_coord; _check_rank]) s3).
  2:{ symmetry. apply bind_ext_l. apply run_all_map. }
  assert (Hv : _cmor_var s3 = _cmor_var s).
  { pose proof (proj1 (var_metadata_keeps_var (_cmor_var s) s eq_refl)) as K1.
    rewrite H1 in K1. cbn [snd] in K1.
    pose proof (proj1 (fill_value_keeps_var (_cmor_var s) s1 K1)) as K2.
    rewrite H2 in K2. cbn [snd] in K2.
    pose proof (proj1 (dim_names_keeps_var (_cmor_var s) s2 K2)) as K3.
    rewrite H3 in K3. exact K3. }
  unfold _check_coords. rewrite bind_assoc.
  rewrite (bind_ok get _ s3 s3 s3) by reflexivity.
  rewrite Hv. reflexivity.
Qed.

(** What [_add_auxiliar_time_coordinates] does to the state when it
    returns: it extends the cube by coordinates without variable name, each
    named after a category that no coordinate of the cube had as its name,
    and then every category names an auxiliary coordinate. *)

Lemma extend_nil c : extend c [] = c.
Proof.
  destruct c. unfold extend, with_coords. simpl. now rewrite app_nil_r.
Qed.

Lemma extend_extend c E1 E2 :
  extend (extend c E1) E2 = extend c (E1 ++ E2).
Proof.
  unfold extend, with_coords. simpl. now rewrite app_assoc.
Qed.

Lemma set_cube_same s : set_cube (_cube s) s = s.
Proof. now destruct s. Qed.

Definition fresh_category (c : Cube) (e : Coord) : Prop :=
  var_name e = None /\ In (name e) time_categories
  /\ existsb (has_name (name e)) (all_coords c) = false.

Lemma add_if_absent_extends coords nm cat s s' :
  In nm time_categories ->
  add_if_absent coords nm cat s = (Ok tt, s') ->
  exists E1,
    s' = set_cube (extend (_cube s) E1) s
    /\ Forall (fresh_category (_cube s)) E1
    /\ (In nm coords \/ In nm (map name E1)).
Proof.
  intros Hnm. unfold add_if_absent.
  destruct (existsb (String.eqb nm) coords) eqn:Hex; simpl.
  - intros [= <-]. exists []. rewrite extend_nil, set_cube_same.
    split; [reflexivity | split; [constructor | left]].
    now apply existsb_eqb_in.
  - rewrite (bind_ok get _ s s s) by reflexivity.
    destruct (add_categorised_coord (_cube s) nm cat) as [c|e] eqn:Hc;
      [ | discriminate].
    intros [= <-].
    assert (Ht : truthy nm = true).
    { unfold time_categories in Hnm. simpl in Hnm.
      destruct Hnm as [<-|[<-|[<-|[<-|[]]]]]; reflexivity. }
    unfold add_categorised_coord in Hc.
    destruct (coord_by_name (_cube s) "time"); [ | discriminate].
    destruct (existsb (has_name nm) (all_coords (_cube s))) eqn:Hf;
      [discriminate | ].
    destruct (negb _); [discriminate | ].
    injection Hc as <-.
    eexists [_]. split; [reflexivity | split].
    + constructor; [ | constructor].
      unfold fresh_category, name. simpl. rewrite Ht.
      split; [reflexivity | split; [exact Hnm | exact Hf]].
    + right. left. unfold name. simpl. now rewrite Ht.
Qed.

Lemma all_coords_extend c E1 :
  all_coords (extend c E1) = (all_coords c ++ E1)%list.
Proof. unfold all_coords, extend. simpl. now rewrite app_assoc. Qed.

Lemma fresh_category_extend c E1 e :
  fresh_category (extend c E1) e -> fresh_category c e.
Proof.
  intros (Hv & Hn & Hf). split; [exact Hv | split; [exact Hn | ]].
  rewrite all_coords_extend, existsb_app in Hf.
  now apply orb_false_iff in Hf.
Qed.

Lemma add_auxiliar_extends s s' :
  _add_auxiliar_time_coordinates s = (Ok tt, s') ->
  exists E1,
    s' = set_cube (extend (_cube s) E1) s
    /\ Forall (fresh_category (_cube s)) E1
    /\ (forall nm, In nm time_categories ->
        In nm (map name (aux_coords (_cube s) ++ E1))).
Proof.
  unfold _add_auxiliar_time_coordinates. intros H.
  rewrite (bind_ok get _ s s s) in H by reflexivity.
  set (coords := map name (aux_coords (_cube s))) in *.
  apply bind_inv_ok in H. destruct H as ([] & sa & Ha & H).
  apply bind_inv_ok in H. destruct H as ([] & sb & Hb & H).
  apply bind_inv_ok in H. destruct H as ([] & sc & Hc & Hd).
  apply add_if_absent_extends in Ha; [ | simpl; tauto].
  apply add_if_absent_extends in Hb; [ | simpl; tauto].
  apply add_if_absent_extends in Hc; [ | simpl; tauto].
  apply add_if_absent_extends in Hd; [ | simpl; tauto].
  destruct Ha as (E1 & -> & F1 & I1). cbn [_cube set_cube] in Hb.
  destruct Hb as (E2 & -> & F2 & I2). cbn [_cube set_cube] in Hc.
  destruct Hc as (E3 & -> & F3 & I3). cbn [_cube set_cube] in Hd.
  destruct Hd as (E4 & -> & F4 & I4).
  rewrite !extend_extend in *.
  exists (E1 ++ E2 ++ E3 ++ E4)%list. split; [ | split].
  - repeat rewrite app_assoc. reflexivity.
  - rewrite !Forall_app. repeat split.
    + exact F1.
    + eapply Forall_impl; [ | exact F2]. intros e.
      apply fresh_category_extend.
    + eapply Forall_impl; [ | exact F3]. intros e.
      apply fresh_category_extend.
    + eapply Forall_impl; [ | exact F4]. intros e.
      apply fresh_category_extend.
  - intros nm Hnm. rewrite map_app, !map_app, !in_app_iff.
    fold coords. simpl in Hnm.
    destruct Hnm as [<-|[<-|[<-|[<-|[]]]]]; tauto.
Qed.

Lemma add_auxiliar_present s :
  (forall nm, In nm time_categories ->
     In nm (map name (aux_coords (_cube s)))) ->
  _add_auxiliar_time_coordinates s = (Ok tt, s).
Proof.
  intros H. unfold _add_auxiliar_time_coordinates.
  rewrite (bind_ok get _ s s s) by reflexivity.
  assert (Hp : forall nm, In nm time_categories ->
                 existsb (String.eqb nm) (map name (aux_coords (_cube s)))
                 = true).
  { intros nm Hnm. apply existsb_eqb_in. now apply H. }
  assert (H1 := Hp "day_of_month" ltac:(simpl; tauto)).
  assert (H2 := Hp "day_of_year" ltac:(simpl; tauto)).
  assert (H3 := Hp "month_number" ltac:(simpl; tauto)).
  assert (H4 := Hp "year" ltac:(simpl; tauto)).
  rewrite (bind_ok _ _ _ _ _ (add_if_absent_present _ _ day s H1)).
  rewrite (bind_ok _ _ _ _ _ (add_if_absent_present _ _ dayofyr s H2)).
  rewrite (bind_ok _ _ _ _ _ (add_if_absent_present _ _ month s H3)).
  now apply add_if_absent_present.
Qed.

(** The check of the dimension names that returns without reporting has
    found, for every coordinate of the specification that is not a generic
    level, a coordinate of the cube with the standard name of the
    specification. *)

Lemma opt_eqb_eq a b : opt_eqb a b = true -> a = b.
Proof.
  destruct a, b; simpl; try discriminate; [ | reflexivity].
  intros H. apply String.eqb_eq in H. now subst.
Qed.

Lemma report_error_ok_state m a s s' :
  report_error m a s = (Ok tt, s') ->
  exists msg, s' = set_errors (_errors s ++ [msg])%list s.
Proof.
  destruct (_failerr s) eqn:Hf.
  - rewrite report_error_fail_fast by exact Hf.
    destruct (format m a); discriminate.
  - rewrite report_error_collect by exact Hf.
    destruct (format m a) as [msg|]; [ | discriminate].
    intros [= <-]. now exists msg.
Qed.

Definition named_in (c : Cube) (coordinate : CoordinateInfo) : Prop :=
  ci_generic_level coordinate = false ->
  exists x, In x (all_coords c)
            /\ standard_name x = Some (ci_standard_name coordinate).

Lemma for_each_found {A} (P : Cube -> A -> Prop) (body : A -> M unit) :
  (forall x s s', body x s = (Ok tt, s') ->
     (exists d, _errors s' = (_errors s ++ d)%list) /\ _cube s' = _cube s
     /\ (_errors s' = _errors s -> P (_cube s) x)) ->
  forall l s s', for_each l body s = (Ok tt, s') ->
    (exists d, _errors s' = (_errors s ++ d)%list) /\ _cube s' = _cube s
    /\ (_errors s' = _errors s -> forall x, In x l -> P (_cube s) x).
Proof.
  intros Hb. induction l as [|y r IH]; intros s s' H; simpl in H.
  - injection H as <-. split; [ | split; [reflexivity | ]].
    + exists []. now rewrite app_nil_r.
    + intros _ x [].
  - apply bind_inv_ok in H. destruct H as ([] & s1 & H1 & H).
    destruct (Hb y s s1 H1) as ([d1 Hd1] & Hc1 & Hp1).
    destruct (IH s1 s' H) as ([d2 Hd2] & Hc2 & Hp2).
    split; [ | split; [congruence | ]].
    + exists (d1 ++ d2)%list. now rewrite Hd2, Hd1, app_assoc.
    + intros He.
      assert (Hnil : d1 = [] /\ d2 = []).
      { rewrite Hd2, Hd1, <- app_assoc in He.
        rewrite <- (app_nil_r (_errors s)) in He at 2.
        apply app_inv_head in He. now apply app_eq_nil in He. }
      destruct Hnil as [-> ->]. rewrite app_nil_r in Hd1, Hd2.
      intros x [<-|Hx]; [now apply Hp1 | ].
      rewrite <- Hc1. now apply Hp2.
Qed.

Lemma dim_names_found s s' :
  _check_dim_names s = (Ok tt, s') -> _errors s' = _errors s ->
  forall coordinate,
    In coordinate (coordinates_values (_cmor_var s)) ->
    named_in (_cube s) coordinate.
Proof.
  unfold _check_dim_names. intros H He coordinate Hin.
  rewrite (bind_ok get _ s s s) in H by reflexivity.
  apply (for_each_found (fun c kc => named_in c (snd kc))) in H.
  - destruct H as (_ & _ & H). unfold coordinates_values in Hin.
    apply in_map_iff in Hin. destruct Hin as (kc & <- & Hkc).
    now apply H.
  - clear. intros [k coordinate] s s' H. cbn [snd]. unfold named_in.
    assert (Hrep : forall m a, report_error m a s = (Ok tt, s') ->
              (exists d, _errors s' = (_errors s ++ d)%list)
              /\ _cube s' = _cube s
              /\ (_errors s' = _errors s ->
                  ci_generic_level coordinate = false ->
                  exists x, In x (all_coords (_cube s))
                    /\ standard_name x = Some (ci_standard_name coordinate))).
    { intros m a Hr. apply report_error_ok_state in Hr.
      destruct Hr as [msg ->]. split; [now exists [msg] | ].
      split; [reflexivity | ]. simpl. intros He.
      rewrite <- (app_nil_r (_errors s)) in He at 2.
      apply app_inv_head in He. discriminate. }
    destruct (ci_generic_level coordinate).
    { injection H as <-. split; [ | split; [reflexivity | discriminate]].
      exists []. now rewrite app_nil_r. }
    rewrite (bind_ok get _ s s s) in H by reflexivity.
    destruct (coord_by_var_name (_cube s) (ci_out_name coordinate))
      as [cube_coord|] eqn:Hv.
    + destruct (negb (opt_eqb (standard_name cube_coord)
                        (Some (ci_standard_name coordinate)))) eqn:Hs;
        cbn [when] in H.
      * now apply Hrep in H.
      * injection H as <-. split; [ | split; [reflexivity | ]].
        { exists []. now rewrite app_nil_r. }
        intros _ _. exists cube_coord. split.
        -- unfold coord_by_var_name in Hv. apply the_one_in in Hv.
           apply filter_In in Hv. apply Hv.
        -- apply negb_false_iff in Hs. now apply opt_eqb_eq.
    + destruct (coord_by_name (_cube s) (ci_standard_name coordinate));
        now apply Hrep in H.
Qed.

(** A coordinate named after a category that no coordinate of the cube has
    as its name does not have the name of a standard name of the cube. *)
Lemma fresh_not_named c e x n :
  fresh_category c e -> In x (all_coords c) -> standard_name x = Some n ->
  has_name n e = false.
Proof.
  intros (_ & Hn & Hf) Hx Hs.
  destruct (has_name n e) eqn:H; [exfalso | reflexivity].
  unfold has_name in H. apply String.eqb_eq in H. rewrite H in Hn, Hf.
  assert (Ht : truthy n = true).
  { simpl in Hn. destruct Hn as [<-|[<-|[<-|[<-|[]]]]]; reflexivity. }
  assert (Hnx : has_name n x = true).
  { unfold has_name, name. rewrite Hs. simpl. rewrite Ht.
    apply String.eqb_refl. }
  assert (Hex : existsb (has_name n) (all_coords c) = true).
  { apply existsb_exists. now exists x. }
  congruence.
Qed.

(** C7.  check_metadata is idempotent on clean input.  When check_metadata
    returns a cube for a checker whose cube is normalized (every step of the
    metadata checks leaves it as it is: units, calendar, longitudes and
    directions are already those the checks would set), a second run of
    check_metadata, by a checker constructed in the same way on the returned
    cube, returns this very cube, ends with an empty error list, and its
    cube is the returned cube: no new error and no further change. *)
Theorem check_metadata_idempotent
    (cube : Cube) (var_info : VariableInfo) (freq : option string)
    (fail_on_error automatic : bool) (c1 : Cube) (s1 : CMORCheck) :
  let s0 := init cube var_info freq fail_on_error automatic in
  check_metadata s0 = (Ok c1, s1) ->
  normalized s0 ->
  exists s2,
    check_metadata (init c1 var_info freq fail_on_error automatic)
    = (Ok c1, s2)
    /\ _errors s2 = [] /\ _cube s2 = c1.
Proof.
  intros s0 H Hn.
  rewrite check_metadata_run in H.
  apply bind_inv_ok in H. destruct H as ([] & sa & Hrun & H).
  unfold metadata_tail in H.
  apply bind_inv_ok in H. destruct H as ([] & sb & Hw & H).
  apply bind_inv_ok in H. destruct H as ([] & sc & Hre & H).
  apply bind_inv_ok in H. destruct H as ([] & sd & Hadd & H).
  injection H as <- <-.
  rewrite report_errors_run in Hre.
  destruct (0 <? length (_errors sb))%nat eqn:Hlen; [discriminate | ].
  injection Hre as <-.
  assert (Hb : _errors sb = []).
  { destruct (_errors sb); [reflexivity | discriminate]. }
  destruct (report_warnings_keeps _ _ Hw) as (Hwe & Hwc & _).
  assert (Hea : _errors sa = _errors s0) by (rewrite <- Hwe; exact Hb).
  destruct (add_auxiliar_extends _ _ Hadd) as (E1 & -> & Hfresh & Hall).
  rewrite metadata_checks_steps in Hrun.
  assert (Hs0 : configured s0 s0) by (repeat split).
  (* what the check of the dimension names has found *)
  assert (Hnames : forall coordinate,
            In coordinate (coordinates_values (_cmor_var s0)) ->
            named_in (_cube s0) coordinate).
  { destruct (run_all_reaches [] s0
                [_check_var_metadata; _check_fill_value] _check_dim_names
                (map check_coords_body (coordinates_values (_cmor_var s0))
                 ++ [_check_time_coord; _check_rank])%list
                (metadata_steps_stable [] s0
                   ltac:(intros ? [])
                   ltac:(intros ? ? []) (_cmor_var s0))
                s0 sa Hs0 Hrun Hea Hn)
      as (s2 & s3 & (_ & Hv & _) & Hc & Hd & He).
    intros coordinate Hin. rewrite <- Hc.
    apply (dim_names_found s2 s3 Hd He). now rewrite Hv. }
  assert (HE1 : forall e, In e E1 -> var_name e = None).
  { intros e He. rewrite Forall_forall in Hfresh. now apply Hfresh. }
  assert (HE2 : forall e coordinate,
            In e E1 -> In coordinate (coordinates_values (_cmor_var s0)) ->
            ci_generic_level coordinate = false ->
            has_name (ci_standard_name coordinate) e = false).
  { intros e coordinate He Hin Hg.
    destruct (Hnames coordinate Hin Hg) as (x & Hx & Hsn).
    rewrite Forall_forall in Hfresh.
    assert (Hf := Hfresh e He). rewrite Hwc in Hf.
    destruct (run_all_stable [] s0 _
                (metadata_steps_stable [] s0
                   ltac:(intros ? [])
                   ltac:(intros ? ? []) (_cmor_var s0))
                s0 sa Hs0 Hrun Hea Hn) as (_ & Hca & _).
    rewrite Hca in Hf.
    exact (fresh_not_named _ _ _ _ Hf Hx Hsn). }
  destruct (run_all_stable E1 s0 _
              (metadata_steps_stable E1 s0 HE1 HE2 (_cmor_var s0))
              s0 sa Hs0 Hrun Hea Hn) as (Hrun2 & Hca & Hsa).
  exists (ext E1 sb).
  assert (Hinit : init (_cube (set_cube (extend (_cube sb) E1) sb)) var_info
                    freq fail_on_error automatic = ext E1 s0).
  { cbn [_cube set_cube]. rewrite Hwc, Hca. reflexivity. }
  rewrite Hinit. split; [ | split; [exact Hb | reflexivity]].
  rewrite check_metadata_run.
  rewrite (bind_ok _ _ (ext E1 s0) tt (ext E1 sa)).
  2:{ rewrite metadata_checks_steps. exact Hrun2. }
  unfold metadata_tail.
  rewrite (bind_ok _ _ _ _ _
             (frame_apply E1 s0 _ _ sa tt sb (frame_report_warnings E1 s0)
                Hsa Hw Hwe)).
  rewrite (bind_ok _ _ (ext E1 sb) tt (ext E1 sb)).
  2:{ rewrite report_errors_run. cbn [ext set_cube _errors].
      now rewrite Hlen. }
  rewrite (bind_ok _ _ (ext E1 sb) tt (ext E1 sb)).
  2:{ apply add_auxiliar_present. exact Hall. }
  reflexivity.
Qed.

End Again.

(** The sample cube, with automatic fixes on, needs no repair: the second
    run returns the cube of the first with its four category coordinates. *)
Lemma check_metadata_idempotent_witness :
  let s0 := init Sample.tas Sample.tas_info None false true in
  normalized (L := Lib360.lib) s0
  /\ exists c1 s2,
       fst (check_metadata (L := Lib360.lib) s0) = Ok c1
       /\ map name (aux_coords c1) = time_categories
       /\ check_metadata (L := Lib360.lib)
            (init c1 Sample.tas_info None false true) = (Ok c1, s2)
       /\ _errors s2 = [] /\ _cube s2 = c1.
Proof.
  intros s0.
  assert (Hn : normalized (L := Lib360.lib) s0).
  { unfold normalized. vm_compute. repeat constructor. }
  split; [exact Hn | ].
  destruct (check_metadata (L := Lib360.lib) s0) as [[c1|e] s1] eqn:H;
    [ | vm_compute in H; discriminate].
  destruct (check_metadata_idempotent (L := Lib360.lib) Sample.tas
              Sample.tas_info None false true c1 s1 H Hn)
    as (s2 & H2 & He & Hc).
  exists c1, s2. split; [reflexivity | ].
  split; [ | split; [exact H2 | split; [exact He | exact Hc]]].
  vm_compute in H. injection H as <- _. reflexivity.
Defined.

(** * Further properties of the checker *)

(** ** Calendars *)

Definition calendar_alias_names : list string :=
  ["all_leap"; "noleap"; "standard"].

(** X1.  _simplify_calendar is idempotent; it never returns one of the alias
    names all_leap, noleap, standard; and it returns what it is given when
    that is no calendar at all or a calendar that is not an alias name. *)
Theorem simplify_calendar_idempotent (calendar : option string) :
  _simplify_calendar (_simplify_calendar calendar)
  = _simplify_calendar calendar
  /\ (forall alias, In alias calendar_alias_names ->
      _simplify_calendar calendar <> Some alias)
  /\ ((forall alias, In alias calendar_alias_names ->
       calendar <> Some alias) ->
      _simplify_calendar calendar = calendar).
Proof.
  destruct calendar as [c|]; unfold _simplify_calendar; cbn [attr_get].
  2:{ split; [reflexivity | split; [discriminate | reflexivity]]. }
  destruct ("all_leap" =? c) eqn:H1;
    [ | destruct ("noleap" =? c) eqn:H2;
        [ | destruct ("standard" =? c) eqn:H3]].
  - split; [reflexivity | split].
    + intros alias [<-|[<-|[<-|[]]]]; discriminate.
    + intros H. apply String.eqb_eq in H1. subst c.
      exfalso. apply (H "all_leap"); [now left | reflexivity].
  - split; [reflexivity | split].
    + intros alias [<-|[<-|[<-|[]]]]; discriminate.
    + intros H. apply String.eqb_eq in H2. subst c.
      exfalso. apply (H "noleap"); [right; now left | reflexivity].
  - split; [reflexivity | split].
    + intros alias [<-|[<-|[<-|[]]]]; discriminate.
    + intros H. apply String.eqb_eq in H3. subst c.
      exfalso. apply (H "standard"); [right; right; now left | reflexivity].
  - split; [now rewrite H1, H2, H3 | split; [ | reflexivity]].
    apply String.eqb_neq in H1, H2, H3.
    intros alias [<-|[<-|[<-|[]]]] [= ->]; congruence.
Qed.

(** The calendar of the sample grid is no alias and stays. *)
Lemma simplify_calendar_idempotent_witness :
  _simplify_calendar (Some "360_day") = Some "360_day"
  /\ _simplify_calendar (Some "noleap") = Some "365_day".
Proof.
  split; [ | reflexivity].
  apply (proj2 (proj2 (simplify_calendar_idempotent (Some "360_day")))).
  intros alias [<-|[<-|[<-|[]]]]; discriminate.
Defined.

(** ** The other frequencies of the time check *)

(** The test of the yearly loop on one pair of dates *)
Definition year_follows (first second : datetime) : bool :=
  (year first + 1 =? year second)%Z.

Definition yearly (cells : list datetime) : Prop :=
  Forall (fun ab => year (snd ab) = (year (fst ab) + 1)%Z) (consecutive cells).

Section OtherFrequencies.

Context {L : Library}.

Lemma yearly_forallb cells :
  forallb (fun ab => year_follows (fst ab) (snd ab)) (consecutive cells)
  = true <-> yearly cells.
Proof.
  unfold yearly, year_follows. rewrite forallb_forall, Forall_forall.
  split; intros H x Hx.
  - symmetry. apply Z.eqb_eq. now apply H.
  - apply Z.eqb_eq. symmetry. now apply H.
Qed.

Lemma yr_scan_run vn freq cells s :
  yr_scan vn freq cells s =
  if forallb (fun ab => year_follows (fst ab) (snd ab)) (consecutive cells)
  then (Ok tt, s)
  else report_error frequency_msg [vn; freq] s.
Proof.
  induction cells as [|d r IH]; [reflexivity | ].
  destruct r as [|d' r']; [reflexivity | ].
  rewrite consecutive_cons.
  cbn [forallb fst snd]. unfold year_follows at 1.
  cbn [yr_scan].
  destruct (year d + 1 =? year d')%Z; simpl; [exact IH | reflexivity].
Qed.

Lemma check_frequency_yr coord vn s :
  frequency s = "yr" ->
  is_time_reference (units coord) = true ->
  check_frequency coord vn s =
  yr_scan vn "yr" (map (num2date (units coord)) (points coord)) s.
Proof.
  intros Hf Ht. unfold check_frequency.
  rewrite (bind_ok get _ s s s) by reflexivity.
  rewrite Hf. cbn [String.eqb Ascii.eqb Bool.eqb].
  unfold cell_points. rewrite Ht.
  destruct (length (points coord) <? 2)%nat eqn:Hl; [ | reflexivity].
  destruct (points coord) as [|p [|q r]]; try reflexivity.
  discriminate.
Qed.

Lemma check_frequency_table coord vn s lo hi :
  intervals_get intervals (frequency s) = Some (lo, hi) ->
  check_frequency coord vn s =
  interval_scan vn (frequency s) (lo - tol, hi + tol)%Q (points coord) s.
Proof.
  intros Hi. unfold check_frequency.
  rewrite (bind_ok get _ s s s) by reflexivity. cbv zeta.
  unfold intervals in Hi. cbn [intervals_get] in Hi.
  destruct ("dec" =? frequency s) eqn:Hd.
  - apply String.eqb_eq in Hd. rewrite <- Hd in *.
    injection Hi as <- <-. reflexivity.
  - destruct ("day" =? frequency s) eqn:Hy; [ | discriminate].
    apply String.eqb_eq in Hy. rewrite <- Hy in *.
    injection Hi as <- <-. reflexivity.
Qed.

Lemma format_not_supported (v f : string) :
  format "{}: Frequency {} not supported by checker" [v; f]
  = Some (v ++ ": Frequency " ++ f ++ " not supported by checker").
Proof.
  vm_compute. repeat f_equal; try reflexivity; apply append_empty_r.
Qed.

Lemma check_frequency_unsupported coord vn s :
  ~ In (frequency s) ["mon"; "yr"; "dec"; "day"] ->
  endswith_hr (frequency s) = false ->
  check_frequency coord vn s =
  report_error "{}: Frequency {} not supported by checker"
    [vn; frequency s] s.
Proof.
  intros Hn He. unfold check_frequency.
  rewrite (bind_ok get _ s s s) by reflexivity. cbv zeta.
  assert (H1 : (frequency s =? "mon") = false).
  { apply String.eqb_neq. intros H. apply Hn. rewrite H. now left. }
  assert (H2 : (frequency s =? "yr") = false).
  { apply String.eqb_neq. intros H. apply Hn. rewrite H. right. now left. }
  assert (H3 : ("dec" =? frequency s) = false).
  { apply String.eqb_neq. intros H. apply Hn. rewrite <- H.
    right. right. now left. }
  assert (H4 : ("day" =? frequency s) = false).
  { apply String.eqb_neq. intros H. apply Hn. rewrite <- H.
    right. right. right. now left. }
  rewrite H1, H2. unfold intervals. cbn [intervals_get].
  rewrite H3, H4, He. reflexivity.
Qed.

Lemma check_frequency_hr_not_a_number coord vn s N :
  frequency s = N ++ "hr" -> N <> "sub" -> py_float N = None ->
  check_frequency coord vn s = (Raise ValueError, s).
Proof.
  intros Hf Hn Hp. unfold check_frequency.
  rewrite (bind_ok get _ s s s) by reflexivity.
  rewrite Hf. cbv zeta. rewrite !hr_differs by reflexivity.
  unfold intervals. cbn [intervals_get].
  rewrite !(String.eqb_sym _ (N ++ "hr")), !hr_differs by reflexivity.
  rewrite endswith_hr_app, drop_last2_app.
  apply String.eqb_neq in Hn. rewrite Hn.
  rewrite Hp. reflexivity.
Qed.

(** X2.  For the frequency yr, on a cube whose time axis has a time
    reference unit: the time check returns without reporting exactly when
    the year of every date is the year after the one of the date before it,
    whatever the months and days; otherwise it reports the frequency error
    once (appended in collect-all mode, raised in fail-fast mode). *)
Theorem yearly_frequency_check (s : CMORCheck) i coord p :
  frequency s = "yr" ->
  time_axis (_cube s) = Some (i, coord, p) ->
  is_time_reference (units (normalized_time coord p)) = true ->
  let coord' := normalized_time coord p in
  let s' := set_cube (set_dim_coord (_cube s) i coord') s in
  frequency_outcome s s' (str_opt (var_name coord))
    (yearly (map (num2date (units coord')) p)).
Proof.
  intros Hf Hax Ht coord' s'. unfold frequency_outcome.
  assert (Hrun : _check_time_coord s =
                 if forallb (fun ab => year_follows (fst ab) (snd ab))
                      (consecutive (map (num2date (units coord')) p))
                 then (Ok tt, s')
                 else report_error frequency_msg
                        [str_opt (var_name coord); "yr"] s').
  { rewrite (check_time_coord_run s i coord p Hax).
    rewrite check_frequency_yr by assumption. apply yr_scan_run. }
  rewrite Hrun, <- yearly_forallb, Hf.
  destruct (forallb _ _); split.
  - split; reflexivity.
  - intros H. now destruct H.
  - split; intros H; [now apply report_error_changes in H | discriminate].
  - intros _. split; intros Hm.
    + rewrite report_error_collect by exact Hm.
      now rewrite format_frequency_msg.
    + rewrite report_error_fail_fast by exact Hm.
      now rewrite format_frequency_msg.
Qed.

(** X3.  For the frequencies day and dec the time check accepts the gaps
    between neighbouring points, in days, from 1 - 0.001 up to 1 + 0.001 and
    from 3600 - 0.001 up to 3660 + 0.001; otherwise it reports the frequency
    error once. *)
Theorem fixed_interval_frequency_check (s : CMORCheck) i coord p :
  time_axis (_cube s) = Some (i, coord, p) ->
  let s' := set_cube (set_dim_coord (_cube s) i (normalized_time coord p)) s in
  let vn := str_opt (var_name coord) in
  (frequency s = "day" ->
   frequency_outcome s s' vn (gaps_within (1 - tol) (1 + tol) p))
  /\
  (frequency s = "dec" ->
   frequency_outcome s s' vn (gaps_within (3600 - tol) (3660 + tol) p)).
Proof.
  intros Hax s' vn. split; intros Hf; apply interval_outcome;
    try reflexivity;
    rewrite (check_time_coord_run s i coord p Hax).
  - apply (check_frequency_table (normalized_time coord p) vn s' 1 1).
    cbn [frequency s' set_cube]. now rewrite Hf.
  - apply (check_frequency_table (normalized_time coord p) vn s' 3600 3660).
    cbn [frequency s' set_cube]. now rewrite Hf.
Qed.

(** X4.  A frequency that is none of mon, yr, dec, day and does not end in
    hr is reported as not supported by the checker, whatever the points of
    the time axis (which the check has brought to the reference epoch
    before).  A frequency that ends in hr after something that is neither
    the word sub nor a number makes the check raise the ValueError of the
    conversion to a number, in both modes and with nothing reported. *)
Theorem unsupported_frequency (s : CMORCheck) i coord p :
  time_axis (_cube s) = Some (i, coord, p) ->
  let s' := set_cube (set_dim_coord (_cube s) i (normalized_time coord p)) s in
  let vn := str_opt (var_name coord) in
  (~ In (frequency s) ["mon"; "yr"; "dec"; "day"] ->
   endswith_hr (frequency s) = false ->
   let msg :=
     vn ++ ": Frequency " ++ frequency s ++ " not supported by checker" in
   (_failerr s = false ->
    _check_time_coord s = (Ok tt, set_errors (_errors s ++ [msg])%list s'))
   /\
   (_failerr s = true ->
    _check_time_coord s
    = (Raise (CMORCheckError
                (msg ++ nl ++ "in cube:" ++ nl ++ str_cube (_cube s'))), s')))
  /\
  (forall N,
     frequency s = N ++ "hr" -> N <> "sub" -> py_float N = None ->
     _check_time_coord s = (Raise ValueError, s')).
Proof.
  intros Hax s' vn. rewrite (check_time_coord_run s i coord p Hax).
  fold s'. split.
  - intros Hn He msg.
    rewrite check_frequency_unsupported by assumption.
    split; intros Hm.
    + rewrite report_error_collect by exact Hm.
      now rewrite format_not_supported.
    + rewrite report_error_fail_fast by exact Hm.
      now rewrite format_not_supported.
  - intros N Hf Hn Hp. now apply check_frequency_hr_not_a_number with N.
Qed.

End OtherFrequencies.

(** Three mid-January dates of consecutive years pass the yearly check. *)
Lemma yearly_frequency_check_witness :
  let s := init (Sample.tas_cube [15; 375; 735]%Q [-45; 45]%Q [10; 80]%Q)
             Sample.tas_info (Some "yr") false false in
  fst (_check_time_coord (L := Lib360.lib) s) = Ok tt
  /\ _errors (snd (_check_time_coord (L := Lib360.lib) s)) = [].
Proof.
  intros s.
  destruct (yearly_frequency_check (L := Lib360.lib) s 0
              (Sample.time_coord [15; 375; 735]%Q) [15; 375; 735]%Q
              eq_refl eq_refl eq_refl) as [H _].
  assert (Hy : yearly (map (num2date (Library := Lib360.lib)
                              (units (normalized_time
                                        (Sample.time_coord [15; 375; 735]%Q)
                                        [15; 375; 735]%Q)))
                         [15; 375; 735]%Q)).
  { unfold yearly.
    repeat (apply Forall_cons; [vm_compute; reflexivity | ]).
    apply Forall_nil. }
  apply H in Hy. rewrite Hy. split; reflexivity.
Defined.

(** Daily points pass the check of the frequency day. *)
Lemma fixed_interval_frequency_check_witness :
  let s := init (Sample.tas_cube [0; 1; 2]%Q [-45; 45]%Q [10; 80]%Q)
             Sample.tas_info (Some "day") false false in
  fst (_check_time_coord (L := Lib360.lib) s) = Ok tt.
Proof.
  intros s.
  destruct (fixed_interval_frequency_check (L := Lib360.lib) s 0
              (Sample.time_coord [0; 1; 2]%Q) [0; 1; 2]%Q eq_refl)
    as (H & _).
  destruct (H eq_refl) as [Hok _].
  rewrite (proj2 Hok); [reflexivity | ].
  unfold gaps_within. simpl.
  apply Forall_cons; [ | apply Forall_cons; [ | apply Forall_nil]];
    simpl; split; vm_compute; discriminate.
Defined.

(** The frequency fx is not supported on a cube with a time axis; the bare
    token hr has nothing to convert to a number. *)
Lemma unsupported_frequency_witness :
  let fx := init Sample.tas Sample.tas_info (Some "fx") false false in
  let hr := init Sample.tas Sample.tas_info (Some "hr") false false in
  _errors (snd (_check_time_coord (L := Lib360.lib) fx))
  = ["time: Frequency fx not supported by checker"]
  /\ fst (_check_time_coord (L := Lib360.lib) hr) = Raise ValueError.
Proof.
  intros fx hr. split.
  - destruct (unsupported_frequency (L := Lib360.lib) fx 0
                (Sample.time_coord [15; 45; 75]%Q) [15; 45; 75]%Q eq_refl)
      as (H & _).
    destruct H as [H _].
    + intros [H|[H|[H|[H|[]]]]]; discriminate.
    + reflexivity.
    + rewrite (H eq_refl). reflexivity.
  - destruct (unsupported_frequency (L := Lib360.lib) hr 0
                (Sample.time_coord [15; 45; 75]%Q) [15; 45; 75]%Q eq_refl)
      as (_ & H).
    rewrite (H "" eq_refl ltac:(discriminate) eq_refl). reflexivity.
Defined.

(** ** What the time check does to the time axis *)

Section TimeAxis.

Context {L : Library}.

Ltac keep_cube :=
  unfold cube_is, any_exn; simpl;
  first [exact Logic.I | congruence | intuition congruence].

Lemma check_frequency_keeps_cube coord vn s :
  _cube (snd (check_frequency coord vn s)) = _cube s.
Proof.
  assert (Hi : inv (cube_is (_cube s)) any_exn (check_frequency coord vn))
    by (apply inv_check_frequency; keep_cube).
  exact (proj1 (Hi s eq_refl)).
Qed.

(** X5.  The time check and the time axis.  Without a dimension coordinate
    named time the check returns and changes nothing.  With one whose units
    are not a time reference the cube stays as it is.  With one whose units
    are a time reference the coordinate is converted first: when the
    conversion fails its ValueError is raised with nothing changed or
    reported; when it succeeds, then whatever the frequency and whatever the
    frequency check finds or raises, the cube is left with the time
    coordinate in days since 1950-1-1 00:00:00, its points converted, its
    calendar simplified, and nothing else changed. *)
Theorem time_axis_after_check (s : CMORCheck) :
  (dim_coord_by_name (_cube s) "time" = None ->
   _check_time_coord s = (Ok tt, s))
  /\
  (forall i coord,
     dim_coord_by_name (_cube s) "time" = Some (i, coord) ->
     let target :=
       mkUnit "days since 1950-1-1 00:00:00" (calendar (units coord)) in
     (is_time_reference (units coord) = false ->
      _cube (snd (_check_time_coord s)) = _cube s)
     /\
     (is_time_reference (units coord) = true ->
      convert_points (units coord) target (points coord) = None ->
      _check_time_coord s = (Raise ValueError, s))
     /\
     (forall p,
        is_time_reference (units coord) = true ->
        convert_points (units coord) target (points coord) = Some p ->
        _cube (snd (_check_time_coord s))
        = set_dim_coord (_cube s) i
            (set_units (set_points coord p)
               (mkUnit "days since 1950-1-1 00:00:00"
                  (_simplify_calendar (calendar (units coord))))))).
Proof.
  split.
  - intros H. unfold _check_time_coord.
    rewrite (bind_ok get _ s s s) by reflexivity. now rewrite H.
  - intros i coord H target. split; [ | split].
    + intros Ht. unfold _check_time_coord.
      rewrite (bind_ok get _ s s s) by reflexivity. rewrite H.
      unfold normalize_time. rewrite Ht. cbn [negb].
      rewrite bind_assoc.
      destruct (report_error _does_msg
                  [str_opt (var_name coord); "have time reference units"] s)
        as [[[]|e] s1] eqn:Hr.
      * rewrite (bind_ok _ _ _ _ _ Hr).
        rewrite (bind_ok (ret coord) _ s1 coord s1) by reflexivity.
        rewrite check_frequency_keeps_cube.
        apply report_error_ok_state in Hr. destruct Hr as [msg ->].
        reflexivity.
      * rewrite (bind_raise _ _ _ _ _ Hr). cbn [snd].
        destruct (_failerr s) eqn:Hf.
        -- rewrite report_error_fail_fast in Hr by exact Hf.
           destruct (format _ _); now injection Hr as _ <-.
        -- rewrite report_error_collect in Hr by exact Hf.
           destruct (format _ _); [discriminate | now injection Hr as _ <-].
    + intros Ht Hp. unfold _check_time_coord.
      rewrite (bind_ok get _ s s s) by reflexivity. rewrite H.
      unfold normalize_time. rewrite Ht. cbn [negb].
      apply bind_raise. apply bind_raise.
      unfold reference_epoch. unfold target in Hp. now rewrite Hp.
    + intros p Ht Hp.
      assert (Hax : time_axis (_cube s) = Some (i, coord, p)).
      { unfold time_axis, reference_epoch. rewrite H, Ht.
        unfold target in Hp. now rewrite Hp. }
      rewrite (check_time_coord_run s i coord p Hax).
      now rewrite check_frequency_keeps_cube.
Qed.

(** X6.  A time axis whose units are not a time reference is reported as
    such.  In fail-fast mode that ends the check.  In collect-all mode the
    check goes on to compare the frequency on the coordinate as it is: for
    the frequencies mon and yr the points of such a coordinate are numbers
    and not dates, so with two points or more the check ends in an
    AttributeError after the report, and with fewer it returns. *)
Theorem time_units_not_reference (s : CMORCheck) i coord :
  dim_coord_by_name (_cube s) "time" = Some (i, coord) ->
  is_time_reference (units coord) = false ->
  let vn := str_opt (var_name coord) in
  let msg := vn ++ ": does not have time reference units" in
  (_failerr s = true ->
   _check_time_coord s
   = (Raise (CMORCheckError
               (msg ++ nl ++ "in cube:" ++ nl ++ str_cube (_cube s))), s))
  /\
  (_failerr s = false ->
   let s1 := set_errors (_errors s ++ [msg])%list s in
   _check_time_coord s = check_frequency coord vn s1
   /\ (frequency s = "mon" \/ frequency s = "yr" ->
       (2 <= length (points coord))%nat ->
       _check_time_coord s = (Raise AttributeError, s1))
   /\ (frequency s = "mon" \/ frequency s = "yr" ->
       (length (points coord) < 2)%nat ->
       _check_time_coord s = (Ok tt, s1))).
Proof.
  intros H Ht vn msg.
  assert (Hrun : _check_time_coord s =
                 (report_error _does_msg [vn; "have time reference units"] ;;
                  check_frequency coord vn) s).
  { unfold _check_time_coord.
    rewrite (bind_ok get _ s s s) by reflexivity. rewrite H.
    unfold normalize_time. rewrite Ht. cbn [negb].
    rewrite bind_assoc. apply bind_ext. intros [] s1. reflexivity. }
  split; intros Hm.
  - rewrite Hrun. apply bind_raise.
    rewrite report_error_fail_fast by exact Hm.
    now rewrite format_does_msg.
  - intros s1.
    assert (Hrun1 : _check_time_coord s = check_frequency coord vn s1).
    { rewrite Hrun. rewrite (bind_ok _ _ s tt s1); [reflexivity | ].
      rewrite report_error_collect by exact Hm.
      now rewrite format_does_msg. }
    split; [exact Hrun1 | ].
    split; intros Hf Hl; rewrite Hrun1; unfold check_frequency;
      rewrite (bind_ok get _ s1 s1 s1) by reflexivity;
      cbn [frequency s1 set_errors]; unfold cell_points; rewrite Ht.
    + assert (Hlt : (length (points coord) <? 2)%nat = false)
        by (apply Nat.ltb_ge; exact Hl).
      rewrite Hlt. destruct Hf as [-> | ->]; reflexivity.
    + assert (Hlt : (length (points coord) <? 2)%nat = true)
        by (apply Nat.ltb_lt; exact Hl).
      rewrite Hlt. destruct Hf as [-> | ->]; reflexivity.
Qed.

End TimeAxis.

(** A time axis in days since 2000 with the calendar standard comes out in
    days since 1950 with the calendar gregorian. *)
Lemma time_axis_after_check_witness :
  let t := set_units (Sample.time_coord [15; 45]%Q)
             (mkUnit "days since 2000-1-1 00:00:00" (Some "standard")) in
  let s := init (set_dim_coord Sample.tas 0 t) Sample.tas_info None
             false false in
  nth_error (dim_coords (_cube (snd (_check_time_coord (L := Lib360.lib) s))))
    0
  = Some (set_units (set_points t [18015; 18045]%Q)
            (mkUnit "days since 1950-1-1 00:00:00" (Some "gregorian"))).
Proof.
  intros t s.
  destruct (time_axis_after_check (L := Lib360.lib) s) as [_ H].
  destruct (H 0%nat t eq_refl) as (_ & _ & H3).
  rewrite (H3 [18015; 18045]%Q eq_refl eq_refl). reflexivity.
Defined.

(** A time axis in plain days, checked for the monthly frequency in
    collect-all mode: the report, then the AttributeError. *)
Lemma time_units_not_reference_witness :
  let t := set_units (Sample.time_coord [15; 45]%Q) (mkUnit "days" None) in
  let s := init (set_dim_coord Sample.tas 0 t) Sample.tas_info None
             false false in
  fst (_check_time_coord (L := Lib360.lib) s) = Raise AttributeError
  /\ _errors (snd (_check_time_coord (L := Lib360.lib) s))
     = ["time: does not have time reference units"].
Proof.
  intros t s.
  destruct (time_units_not_reference (L := Lib360.lib) s 0 t
              eq_refl eq_refl) as [_ H].
  destruct (H eq_refl) as (_ & H2 & _).
  rewrite (H2 (or_introl eq_refl) (le_n 2)). split; reflexivity.
Defined.

(** ** Requested values *)

(** The state after the warnings [msgs] were reported one after the other:
    printed in fail-fast mode, appended to the warnings otherwise *)
Definition warned (msgs : list string) (s : CMORCheck) : CMORCheck :=
  if _failerr s
  then set_printed
         (printed s ++ map (fun m => ("WARNING: " ++ m)%string) msgs)%list s
  else set_warnings (_warnings s ++ msgs)%list s.

Section RequestedValues.

Context {L : Library}.

Lemma warned_nil s : warned [] s = s.
Proof.
  unfold warned. destruct s as [c f e w v fr a p l]. simpl.
  destruct f; now rewrite app_nil_r.
Qed.

Lemma report_warning_run m a msg s :
  format m a = Some msg -> report_warning m a s = (Ok tt, warned [msg] s).
Proof.
  intros F. unfold report_warning, warned.
  rewrite (bind_ok _ _ s msg s) by (unfold fmt; now rewrite F).
  rewrite (bind_ok get _ s s s) by reflexivity.
  destruct (_failerr s); [ | reflexivity].
  erewrite bind_ok by (unfold fmt; now rewrite format_warning_line).
  reflexivity.
Qed.

Lemma warned_cons msg msgs s :
  warned msgs (warned [msg] s) = warned (msg :: msgs) s.
Proof.
  unfold warned. destruct (_failerr s) eqn:Hf; simpl; rewrite Hf;
    unfold set_printed, set_warnings; simpl; now rewrite <- app_assoc.
Qed.

Lemma floats_run l qs s :
  Forall2 (fun v q => py_float v = Some q) l qs -> floats l s = (Ok qs, s).
Proof.
  induction 1 as [|v q r qs Hv _ IH]; [reflexivity | ].
  simpl. rewrite Hv. unfold bind at 1. simpl. unfold bind at 1.
  now rewrite IH.
Qed.

Lemma floats_fail l s :
  Exists (fun v => py_float v = None) l -> floats l s = (Raise ValueError, s).
Proof.
  induction l as [|v r IH]; intros H; [inversion H | ].
  simpl. destruct (py_float v) as [x|] eqn:Hx; [ | reflexivity].
  unfold bind at 1. simpl. unfold bind at 1.
  rewrite IH; [reflexivity | ].
  inversion H as [? ? Hv|? ? Hr]; subst; [congruence | exact Hr].
Qed.

Lemma floats_or_not l :
  (exists qs, Forall2 (fun v q => py_float v = Some q) l qs)
  \/ Exists (fun v => py_float v = None) l.
Proof.
  induction l as [|v r IH].
  - left. exists []. constructor.
  - destruct (py_float v) as [x|] eqn:Hx.
    + destruct IH as [[qs Hqs]|He].
      * left. exists (x :: qs). now constructor.
      * right. now apply Exists_cons_tl.
    + right. now apply Exists_cons_hd.
Qed.

(** The message for a requested value that is no point of the coordinate *)
Definition not_contained (coord : Coord) (vn : string) (point : Q) : string :=
  vn ++ ": does not contain " ++ str_float point ++ " "
  ++ str_unit (units coord).

Definition missing_points (coord : Coord) (requested : list Q) : list Q :=
  filter (fun point => negb (existsb (Qeq_bool point) (points coord)))
    requested.

Lemma requested_loop coord vn qs s :
  for_each qs (fun point =>
    when (negb (existsb (Qeq_bool point) (points coord)))
      (report_warning _contain_msg
         [vn; str_float point; str_unit (units coord)])) s
  = (Ok tt, warned (map (not_contained coord vn) (missing_points coord qs)) s).
Proof.
  revert s. induction qs as [|q qs IH]; intros s.
  - simpl. now rewrite warned_nil.
  - cbn [for_each missing_points filter].
    destruct (negb (existsb (Qeq_bool q) (points coord))); cbn [when].
    + rewrite (bind_ok _ _ _ _ _
                 (report_warning_run _ _ _ s
                    (format_contain_msg vn (str_float q)
                       (str_unit (units coord))))).
      rewrite IH. cbn [map]. unfold missing_points.
      now rewrite warned_cons.
    + rewrite (bind_ok (ret tt) _ s tt s) by reflexivity. apply IH.
Qed.

Lemma requested_values_run coord info vn s qs :
  Forall2 (fun v q => py_float v = Some q) (ci_requested info) qs ->
  _check_requested_values coord info vn s
  = (Ok tt, warned (map (not_contained coord vn) (missing_points coord qs)) s).
Proof.
  intros Hqs. unfold _check_requested_values.
  destruct (ci_requested info) as [|v r] eqn:Hr.
  - inversion Hqs; subst. simpl. now rewrite warned_nil.
  - rewrite (bind_ok _ _ _ _ _ (floats_run _ _ s Hqs)).
    apply requested_loop.
Qed.

(** X7.  The check of the requested values only warns.  When every
    requested value of the specification reads as a number, the check
    returns after one warning for each requested value that is equal to no
    point of the coordinate, in the order of the specification (printed in
    fail-fast mode, appended to the warning list otherwise).  When one does
    not read as a number, the ValueError of the conversion is raised before
    anything is reported.  Either way the error list and the cube stay as
    they were. *)
Theorem requested_values_only_warn coord info vn (s : CMORCheck) :
  (forall qs,
     Forall2 (fun v q => py_float v = Some q) (ci_requested info) qs ->
     _check_requested_values coord info vn s
     = (Ok tt,
        warned (map (not_contained coord vn) (missing_points coord qs)) s))
  /\
  (Exists (fun v => py_float v = None) (ci_requested info) ->
   _check_requested_values coord info vn s = (Raise ValueError, s))
  /\
  _errors (snd (_check_requested_values coord info vn s)) = _errors s
  /\
  _cube (snd (_check_requested_values coord info vn s)) = _cube s.
Proof.
  pose proof (requested_values_run coord info vn s) as H1.
  assert (H2 : Exists (fun v => py_float v = None) (ci_requested info) ->
               _check_requested_values coord info vn s
               = (Raise ValueError, s)).
  { intros He. unfold _check_requested_values.
    destruct (ci_requested info) as [|v r] eqn:Hr; [inversion He | ].
    apply bind_raise. now apply floats_fail. }
  split; [exact H1 | split; [exact H2 | ]].
  destruct (floats_or_not (ci_requested info)) as [[qs Hqs]|He].
  - rewrite (H1 qs Hqs). unfold warned.
    destruct (_failerr s); split; reflexivity.
  - rewrite (H2 He). split; reflexivity.
Qed.

End RequestedValues.

(** Of the requested latitudes 45 and 60 the sample grid lacks 60. *)
Lemma requested_values_only_warn_witness :
  let info :=
    {| ci_name := "latitude"; ci_standard_name := "latitude";
       ci_out_name := "lat"; ci_units := "degrees_north";
       ci_stored_direction := ""; ci_valid_min := ""; ci_valid_max := "";
       ci_generic_level := false; ci_requested := ["45"; "60.0"];
       ci_value := "" |} in
  let s := init Sample.tas Sample.tas_info None false false in
  let r := _check_requested_values (L := Lib360.lib)
             (Sample.lat_coord [-45; 45]%Q) info "lat" s in
  fst r = Ok tt
  /\ _warnings (snd r) = ["lat: does not contain 60.0 degrees_north"].
Proof.
  intros info s r. subst r.
  destruct (requested_values_only_warn (L := Lib360.lib)
              (Sample.lat_coord [-45; 45]%Q) info "lat" s) as (H & _).
  rewrite (H [45; 60]%Q).
  - split; reflexivity.
  - repeat constructor.
Defined.

(** ** The error list over the phases *)

Section Accumulation.

Context {L : Library}.

Ltac grows :=
  first [ exact Logic.I
        | intros; apply errors_from_append; assumption
        | unfold errors_from, any_exn, any_cube; simpl; intros; assumption
        | unfold errors_from, any_exn, any_cube; simpl; intuition congruence ].

Lemma check_metadata_grows l0 : inv (errors_from l0) any_exn check_metadata.
Proof. apply inv_check_metadata with (R := any_cube); grows. Qed.

Lemma check_data_grows l0 : inv (errors_from l0) any_exn check_data.
Proof. apply inv_check_data with (R := any_cube); grows. Qed.

Lemma report_errors_returns s s' :
  report_errors s = (Ok tt, s') -> s' = s /\ _errors s = [].
Proof.
  rewrite report_errors_run.
  destruct (_errors s) as [|e r] eqn:He; simpl; [ | discriminate].
  intros [= <-]. now split.
Qed.

(** X8.  Nothing ever takes a message off the error list: each phase leaves
    the list it found, with more behind it or not.  So a phase that returns
    a cube has found the list empty and leaves it empty; a checker that
    holds an error, say from a metadata phase that raised in collect-all
    mode, never returns a cube again, from either phase. *)
Theorem errors_are_never_cleared (s : CMORCheck) :
  (exists d, _errors (snd (check_metadata s)) = (_errors s ++ d)%list)
  /\ (exists d, _errors (snd (check_data s)) = (_errors s ++ d)%list)
  /\ (forall c s', check_metadata s = (Ok c, s') ->
      _errors s = [] /\ _errors s' = [])
  /\ (forall c s', check_data s = (Ok c, s') ->
      _errors s = [] /\ _errors s' = [])
  /\ (_errors s <> [] ->
      (forall c s', check_metadata s <> (Ok c, s'))
      /\ (forall c s', check_data s <> (Ok c, s'))).
Proof.
  pose proof (proj1 (check_metadata_grows (_errors s) s (errors_from_refl s)))
    as Hm.
  pose proof (proj1 (check_data_grows (_errors s) s (errors_from_refl s)))
    as Hd.
  assert (H3 : forall c s', check_metadata s = (Ok c, s') ->
               _errors s = [] /\ _errors s' = []).
  { intros c s' H. rewrite H in Hm. destruct Hm as [d Hd'].
    cbn [snd] in Hd'.
    assert (He : _errors s' = []).
    { rewrite check_metadata_run in H.
      apply bind_inv_ok in H. destruct H as ([] & sa & _ & H).
      unfold metadata_tail in H.
      apply bind_inv_ok in H. destruct H as ([] & sb & _ & H).
      apply bind_inv_ok in H. destruct H as ([] & sc & Hre & H).
      apply bind_inv_ok in H. destruct H as ([] & sd & Hadd & H).
      injection H as _ <-.
      apply report_errors_returns in Hre. destruct Hre as [-> Hre].
      destruct (add_auxiliar_extends _ _ Hadd) as (E & -> & _).
      exact Hre. }
    split; [ | exact He].
    rewrite He in Hd'. symmetry in Hd'. now apply app_eq_nil in Hd'. }
  assert (H4 : forall c s', check_data s = (Ok c, s') ->
               _errors s = [] /\ _errors s' = []).
  { intros c s' H. rewrite H in Hd. destruct Hd as [d Hd'].
    cbn [snd] in Hd'.
    assert (He : _errors s' = []).
    { rewrite check_data_run in H.
      apply bind_inv_ok in H. destruct H as ([] & sa & _ & H).
      unfold data_tail in H.
      apply bind_inv_ok in H. destruct H as ([] & sb & _ & H).
      apply bind_inv_ok in H. destruct H as ([] & sc & Hre & H).
      injection H as _ <-.
      apply report_errors_returns in Hre. now destruct Hre as [-> Hre]. }
    split; [ | exact He].
    rewrite He in Hd'. symmetry in Hd'. now apply app_eq_nil in Hd'. }
  split; [exact Hm | split; [exact Hd | split; [exact H3 | ]]].
  split; [exact H4 | ].
  intros Hne. split; intros c s' H.
  - now destruct (H3 c s' H).
  - now destruct (H4 c s' H).
Qed.

End Accumulation.

(** The collect-all checker of the sample cube with a longitude below the
    valid minimum keeps its message after the metadata phase has raised, and
    the data phase raises with it although the cube passes its checks. *)
Lemma errors_are_never_cleared_witness :
  let s := init Sample.tas_west Sample.tas_info None false false in
  let s1 := snd (check_metadata (L := Lib360.lib) s) in
  _errors s1 = ["lon: has values < valid_min = 0.0"]
  /\ forall c s', check_data (L := Lib360.lib) s1 <> (Ok c, s').
Proof.
  intros s s1. split; [vm_compute; reflexivity | ].
  apply (proj2 (proj2 (proj2 (proj2 (errors_are_never_cleared
                                       (L := Lib360.lib) s1))))).
  vm_compute. discriminate.
Defined.

(** ** The cube of a checker without automatic fixes *)

(** The state holds the cube [c], and automatic fixes are off. *)
Definition plain (c : Cube) (st : CMORCheck) : Prop :=
  _cube st = c /\ automatic_fixes st = false.

Section WithoutFixes.

Context {L : Library}.

Ltac plain_side :=
  first [ exact Logic.I
        | unfold plain, any_exn, any_cube; simpl; intros; assumption
        | unfold plain, any_exn, any_cube; simpl; intuition congruence ].

(** A method whose result satisfies [P] before the next one *)
Lemma inv_bind_result {A B} (I : CMORCheck -> Prop) (X : exn -> Prop)
    (P : A -> Prop) (m : M A) (k : A -> M B) :
  inv I X m ->
  (forall s a s1, I s -> m s = (Ok a, s1) -> P a) ->
  (forall a, P a -> inv I X (k a)) ->
  inv I X (bind m k).
Proof.
  intros Hm HP Hk s Hs. unfold bind.
  destruct (Hm s Hs) as [H1 H2].
  destruct (m s) as [[a|e] s1] eqn:Hms; simpl in *.
  - exact (Hk a (HP s a s1 Hs Hms) s1 H1).
  - split; [exact H1 | ]. intros e' H. apply H2. now injection H as <-.
Qed.

Lemma valid_min_flag info coord vn l s l1 s1 :
  automatic_fixes s = false ->
  check_valid_min info coord vn l s = (Ok l1, s1) -> l1 = l.
Proof.
  intros Ha. unfold check_valid_min.
  destruct (truthy (ci_valid_min info)); [ | now intros [= <-]].
  destruct (py_float (ci_valid_min info)) as [x|]; [ | discriminate].
  cbn [lift_opt]. rewrite (bind_ok (ret x) _ s x s) by reflexivity.
  destruct (existsb _ _); [ | now intros [= <-]].
  rewrite (bind_ok get _ s s s) by reflexivity.
  rewrite Ha, andb_false_r. intros H.
  apply bind_inv_ok in H. destruct H as (b & s2 & _ & H).
  apply bind_inv_ok in H. destruct H as ([] & s3 & _ & H).
  now injection H as <-.
Qed.

Lemma valid_max_flag info coord vn l s l1 s1 :
  automatic_fixes s = false ->
  check_valid_max info coord vn l s = (Ok l1, s1) -> l1 = l.
Proof.
  intros Ha. unfold check_valid_max.
  destruct (truthy (ci_valid_max info)); [ | now intros [= <-]].
  destruct (py_float (ci_valid_max info)) as [x|]; [ | discriminate].
  cbn [lift_opt]. rewrite (bind_ok (ret x) _ s x s) by reflexivity.
  destruct (existsb _ _); [ | now intros [= <-]].
  rewrite (bind_ok get _ s s s) by reflexivity.
  rewrite Ha, andb_false_r. intros H.
  apply bind_inv_ok in H. destruct H as (b & s2 & _ & H).
  apply bind_inv_ok in H. destruct H as ([] & s3 & _ & H).
  now injection H as <-.
Qed.

Lemma check_coord_values_plain info i coord vn c :
  inv (plain c) any_exn (_check_coord_values info i coord vn).
Proof.
  unfold _check_coord_values.
  apply inv_bind; [apply inv_check_requested_values; plain_side | intros _].
  apply (inv_bind_result _ _ (fun l => l = false)).
  - apply inv_check_valid_min; plain_side.
  - intros s a s1 [_ Hs] H. exact (valid_min_flag _ _ _ _ _ _ _ Hs H).
  - intros l ->.
    apply (inv_bind_result _ _ (fun l => l = false)).
    + apply inv_check_valid_max; plain_side.
    + intros s a s1 [_ Hs] H. exact (valid_max_flag _ _ _ _ _ _ _ Hs H).
    + intros l ->. apply inv_ret.
Qed.

Lemma check_coord_plain cmor i coord vn c :
  inv (plain c) any_exn (_check_coord cmor i coord vn).
Proof.
  unfold _check_coord.
  destruct (opt_eqb (var_name coord) (Some "time")); [apply inv_ret | ].
  apply inv_bind.
  - destruct (truthy (ci_units cmor)
              && negb (str_unit (units coord) =? ci_units cmor));
      [ | apply inv_ret].
    apply inv_get_bind. intros a [_ Ha]. rewrite Ha.
    apply (inv_bind_result _ _ (fun fixed => fixed = None));
      [apply inv_ret | intros ? ? ? _ [= <- _]; reflexivity | intros ? ->].
    apply inv_bind; [ | intros _; apply inv_ret].
    apply inv_report_error; plain_side.
  - intros co. apply inv_bind; [apply check_coord_values_plain | intros _].
    apply inv_get_bind. intros a _. apply inv_when.
    apply check_direction_keeps_cube.
Qed.

Lemma check_coords_plain c : inv (plain c) any_exn _check_coords.
Proof.
  unfold _check_coords, check_coords_body.
  repeat first [apply check_coord_plain | inv_step].
Qed.

Lemma check_coords_data_plain c : inv (plain c) any_exn _check_coords_data.
Proof.
  unfold _check_coords_data.
  repeat first [apply check_direction_keeps_cube | inv_step].
Qed.

Lemma check_var_metadata_plain c : inv (plain c) any_exn _check_var_metadata.
Proof.
  unfold _check_var_metadata.
  apply inv_bind; [apply inv_check_standard_name; plain_side | intros _].
  apply inv_bind; [ | intros _].
  { unfold fix_invalid_units. apply inv_get_bind. intros a [_ Ha].
    rewrite Ha. apply inv_ret. }
  apply inv_bind; [apply inv_check_units; plain_side | intros _].
  apply inv_check_attributes; plain_side.
Qed.

Lemma reports_plain c :
  inv (plain c) any_exn (report_warnings ;; report_errors).
Proof.
  apply inv_bind; [apply inv_report_warnings; plain_side | intros _].
  apply inv_report_errors; plain_side.
Qed.

Lemma add_if_absent_any coords nm cat s :
  In nm time_categories ->
  exists E,
    snd (add_if_absent coords nm cat s) = set_cube (extend (_cube s) E) s
    /\ Forall (fun e => In (name e) time_categories) E.
Proof.
  intros Hnm.
  assert (Hnone : s = set_cube (extend (_cube s) []) s)
    by now rewrite extend_nil, set_cube_same.
  destruct (add_if_absent coords nm cat s) as [[[]|e] s'] eqn:H.
  - destruct (add_if_absent_extends _ _ _ _ _ Hnm H) as (E & -> & HE & _).
    exists E. split; [reflexivity | ].
    eapply Forall_impl; [ | exact HE]. intros x Hx. apply Hx.
  - exists []. split; [ | constructor]. cbn [snd].
    unfold add_if_absent in H.
    destruct (negb (existsb (String.eqb nm) coords)); cbn [when] in H;
      [ | discriminate].
    rewrite (bind_ok get _ s s s) in H by reflexivity.
    destruct (add_categorised_coord (_cube s) nm cat); [discriminate | ].
    injection H as _ <-. exact Hnone.
Qed.

Lemma add_auxiliar_any s :
  exists E,
    snd (_add_auxiliar_time_coordinates s) = set_cube (extend (_cube s) E) s
    /\ Forall (fun e => In (name e) time_categories) E.
Proof.
  unfold _add_auxiliar_time_coordinates.
  rewrite (bind_ok get _ s s s) by reflexivity.
  set (coords := map name (aux_coords (_cube s))).
  assert (Hstep : forall nm cat (k : M unit) st E0,
            In nm time_categories ->
            st = set_cube (extend (_cube s) E0) s ->
            Forall (fun e => In (name e) time_categories) E0 ->
            (forall st1 E1,
               st1 = set_cube (extend (_cube s) E1) s ->
               Forall (fun e => In (name e) time_categories) E1 ->
               exists E,
                 snd (k st1) = set_cube (extend (_cube s) E) s
                 /\ Forall (fun e => In (name e) time_categories) E) ->
            exists E,
              snd ((add_if_absent coords nm cat ;; k) st)
              = set_cube (extend (_cube s) E) s
              /\ Forall (fun e => In (name e) time_categories) E).
  { intros nm cat k st E0 Hnm -> HE0 Hk.
    destruct (add_if_absent_any coords nm cat
                (set_cube (extend (_cube s) E0) s) Hnm) as (E1 & H1 & HE1).
    cbn [_cube set_cube] in H1. rewrite extend_extend in H1.
    unfold bind.
    destruct (add_if_absent coords nm cat (set_cube (extend (_cube s) E0) s))
      as [[[]|e] st1]; cbn [snd] in H1.
    - apply (Hk st1 (E0 ++ E1)%list H1). rewrite Forall_app. now split.
    - exists (E0 ++ E1)%list. split; [exact H1 | ].
      rewrite Forall_app. now split. }
  assert (H0 : s = set_cube (extend (_cube s) []) s)
    by now rewrite extend_nil, set_cube_same.
  apply (Hstep "day_of_month" day _ s [] ltac:(simpl; tauto) H0
           (Forall_nil _)).
  intros st1 E1 H1 HE1.
  apply (Hstep "day_of_year" dayofyr _ st1 E1 ltac:(simpl; tauto) H1 HE1).
  intros st2 E2 H2 HE2.
  apply (Hstep "month_number" month _ st2 E2 ltac:(simpl; tauto) H2 HE2).
  intros st3 E3 -> HE3.
  destruct (add_if_absent_any coords "year" year
              (set_cube (extend (_cube s) E3) s) ltac:(simpl; tauto))
    as (E4 & H4 & HE4).
  cbn [_cube set_cube] in H4. rewrite extend_extend in H4.
  exists (E3 ++ E4)%list. split; [exact H4 | ].
  rewrite Forall_app. now split.
Qed.

Lemma time_coord_cube s :
  _cube (snd (_check_time_coord s)) = _cube s
  \/ exists i coord p,
       time_axis (_cube s) = Some (i, coord, p)
       /\ _cube (snd (_check_time_coord s))
          = set_dim_coord (_cube s) i (normalized_time coord p).
Proof.
  destruct (time_axis (_cube s)) as [[[i coord] p]|] eqn:Hax.
  - right. exists i, coord, p. split; [reflexivity | ].
    rewrite (check_time_coord_run s i coord p Hax).
    now rewrite check_frequency_keeps_cube.
  - left. unfold time_axis in Hax. unfold _check_time_coord.
    rewrite (bind_ok get _ s s s) by reflexivity.
    destruct (dim_coord_by_name (_cube s) "time") as [[i coord]|];
      [ | reflexivity].
    unfold normalize_time.
    destruct (is_time_reference (units coord)); cbn [negb].
    + destruct (convert_points _ _ _); [discriminate | reflexivity].
    + rewrite bind_assoc.
      destruct (report_error _does_msg
                  [str_opt (var_name coord); "have time reference units"] s)
        as [[[]|e] s1] eqn:Hr.
      * rewrite (bind_ok _ _ _ _ _ Hr).
        rewrite (bind_ok (ret coord) _ s1 coord s1) by reflexivity.
        rewrite check_frequency_keeps_cube.
        apply report_error_ok_state in Hr. destruct Hr as [msg ->].
        reflexivity.
      * rewrite (bind_raise _ _ _ _ _ Hr). cbn [snd].
        destruct (_failerr s) eqn:Hf.
        -- rewrite report_error_fail_fast in Hr by exact Hf.
           destruct (format _ _); now injection Hr as _ <-.
        -- rewrite report_error_collect in Hr by exact Hf.
           destruct (format _ _); [discriminate | now injection Hr as _ <-].
Qed.

Lemma time_coord_keeps_flag :
  inv (fun st => automatic_fixes st = false) any_exn _check_time_coord.
Proof.
  apply inv_check_time_coord with (R := any_cube);
    first [ exact Logic.I
          | unfold any_exn, any_cube; simpl; intros; assumption
          | unfold any_exn, any_cube; simpl; intuition congruence ].
Qed.

(** What is true of the state a method leaves, given an invariant of the
    method and what is true after it has raised or of what follows it *)
Lemma after_bind {B} (I G : CMORCheck -> Prop) (m : M unit) (k : M B) s :
  inv I any_exn m -> I s ->
  (forall s1, I s1 -> G s1) ->
  (forall s1, I s1 -> G (snd (k s1))) ->
  G (snd ((m ;; k) s)).
Proof.
  intros Hm Hs Hr Hk. unfold bind.
  pose proof (proj1 (Hm s Hs)) as H1.
  destruct (m s) as [[[]|e] s1]; cbn [snd] in *.
  - now apply Hk.
  - now apply Hr.
Qed.

(** The metadata phase without automatic fixes *)
Lemma metadata_phase_plain (s : CMORCheck) :
  automatic_fixes s = false ->
  exists c1 E,
    _cube (snd (check_metadata s)) = extend c1 E
    /\ Forall (fun e => In (name e) time_categories) E
    /\ (c1 = _cube s
        \/ exists i coord p,
             time_axis (_cube s) = Some (i, coord, p)
             /\ c1 = set_dim_coord (_cube s) i (normalized_time coord p)).
Proof.
  intros Ha.
  set (G := fun st : CMORCheck =>
         exists c1 E,
           _cube st = extend c1 E
           /\ Forall (fun e => In (name e) time_categories) E
           /\ (c1 = _cube s
               \/ exists i coord p,
                    time_axis (_cube s) = Some (i, coord, p)
                    /\ c1 = set_dim_coord (_cube s) i
                              (normalized_time coord p))).
  change (G (snd (check_metadata s))).
  assert (Hplain : forall st, plain (_cube s) st -> G st).
  { intros st [Hc _]. exists (_cube s), []. rewrite extend_nil.
    split; [exact Hc | split; [constructor | now left]]. }
  assert (Hs : plain (_cube s) s) by now split.
  unfold check_metadata.
  apply (after_bind (plain (_cube s)) G);
    [apply check_var_metadata_plain | exact Hs | exact Hplain | ].
  clear Hs. intros s1 Hs.
  apply (after_bind (plain (_cube s)) G);
    [apply inv_check_fill_value | exact Hs | exact Hplain | ].
  clear s1 Hs. intros s1 Hs.
  apply (after_bind (plain (_cube s)) G);
    [apply inv_check_dim_names; plain_side | exact Hs | exact Hplain | ].
  clear s1 Hs. intros s1 Hs.
  apply (after_bind (plain (_cube s)) G);
    [apply check_coords_plain | exact Hs | exact Hplain | ].
  clear s1 Hs. intros s1 [Hc1 Ha1].
  (* the time coordinate *)
  assert (Hform : forall st, _cube st = _cube (snd (_check_time_coord s1)) ->
                  forall E, Forall (fun e => In (name e) time_categories) E ->
                  exists c1 E',
                    extend (_cube st) E = extend c1 E'
                    /\ Forall (fun e => In (name e) time_categories) E'
                    /\ (c1 = _cube s
                        \/ exists i coord p,
                             time_axis (_cube s) = Some (i, coord, p)
                             /\ c1 = set_dim_coord (_cube s) i
                                       (normalized_time coord p))).
  { intros st Hst E HE. exists (_cube st), E.
    split; [reflexivity | split; [exact HE | ]].
    rewrite Hst. destruct (time_coord_cube s1) as [H|(i & coord & p & H1 & H2)].
    - left. congruence.
    - right. exists i, coord, p. rewrite <- Hc1. now split. }
  assert (Hkept : forall st,
            cube_is (_cube (snd (_check_time_coord s1))) st -> G st).
  { intros st Hst. unfold G.
    destruct (Hform st Hst [] (Forall_nil _)) as (c1 & E & H1 & H2).
    exists c1, E. rewrite <- H1, extend_nil. split; [reflexivity | exact H2]. }
  unfold bind at 1.
  destruct (_check_time_coord s1) as [[[]|e] s2] eqn:Ht; cbn [snd] in *;
    [ | now apply Hkept].
  apply (after_bind (cube_is (_cube s2)) G);
    [ apply inv_check_rank; unfold cube_is, any_exn; simpl;
      first [exact Logic.I | congruence | intuition congruence]
    | reflexivity | exact Hkept | ].
  intros s3 Hs3.
  apply (after_bind (cube_is (_cube s2)) G);
    [ apply inv_report_warnings; unfold cube_is, any_exn; simpl;
      first [exact Logic.I | congruence | intuition congruence]
    | exact Hs3 | exact Hkept | ].
  clear s3 Hs3. intros s3 Hs3.
  apply (after_bind (cube_is (_cube s2)) G);
    [ apply inv_report_errors; unfold cube_is, any_exn; simpl;
      first [exact Logic.I | congruence | intuition congruence]
    | exact Hs3 | exact Hkept | ].
  clear s3 Hs3. intros s3 Hs3.
  destruct (add_auxiliar_any s3) as (E & HE & HEn).
  assert (Hfinal : _cube (snd ((_add_auxiliar_time_coordinates ;;
                                st <- get ;; ret (_cube st)) s3))
                   = extend (_cube s3) E).
  { unfold bind at 1.
    destruct (_add_auxiliar_time_coordinates s3) as [[[]|e] s4];
      cbn [snd] in HE; subst s4; reflexivity. }
  unfold G. rewrite Hfinal. exact (Hform s3 Hs3 E HEn).
Qed.

(** X9.  Without automatic fixes the metadata phase changes the cube in two
    ways only, whether it returns or raises: the time coordinate is brought
    to the reference epoch and the simplified calendar, and auxiliary
    coordinates named after the time categories are attached behind the
    others.  Units, attributes, names and every other coordinate, points
    and direction included, stay as they were. *)
Theorem metadata_phase_without_fixes (s : CMORCheck) :
  automatic_fixes s = false ->
  exists c1 E,
    _cube (snd (check_metadata s)) = extend c1 E
    /\ Forall (fun e => In (name e) time_categories) E
    /\ (c1 = _cube s
        \/ exists i coord p,
             time_axis (_cube s) = Some (i, coord, p)
             /\ c1 = set_dim_coord (_cube s) i (normalized_time coord p)).
Proof.
  intros Ha.
  destruct (metadata_phase_plain s Ha) as (c1 & E & H1 & H2 & H3).
  exists c1, E. split; [exact H1 | split; [exact H2 | exact H3]].
Qed.

(** The four ways of the first statement of [check_data] *)
Lemma convert_cube_units_cases s :
  let u := effective_units (_cmor_var s) in
  (convert_cube_units s = (Ok tt, s)
   /\ (truthy (vi_units (_cmor_var s)) = false
       \/ str_unit (cube_units (_cube s)) = u))
  \/ (convert_cube_units s
      = (Ok tt, set_cube (with_units (_cube s) (mkUnit u None)) s)
      /\ truthy (vi_units (_cmor_var s)) = true
      /\ str_unit (cube_units (_cube s)) <> u
      /\ is_convertible (cube_units (_cube s)) u = true
      /\ is_unknown (cube_units (_cube s)) = false)
  \/ (convert_cube_units s = (Raise UnitConversionError, s)
      /\ truthy (vi_units (_cmor_var s)) = true
      /\ str_unit (cube_units (_cube s)) <> u
      /\ is_unknown (cube_units (_cube s)) = true)
  \/ (convert_cube_units s = (Raise ValueError, s)
      /\ truthy (vi_units (_cmor_var s)) = true
      /\ str_unit (cube_units (_cube s)) <> u
      /\ is_unknown (cube_units (_cube s)) = false
      /\ is_convertible (cube_units (_cube s)) u = false).
Proof.
  intros u. unfold convert_cube_units.
  rewrite (bind_ok get _ s s s) by reflexivity.
  destruct (truthy (vi_units (_cmor_var s))) eqn:Ht; cbn [when].
  2:{ left. split; [reflexivity | now left]. }
  rewrite (bind_ok _ _ _ _ _ (get_effective_units_run s)).
  fold (effective_units (_cmor_var s)). fold u.
  rewrite (bind_ok get _ s s s) by reflexivity.
  destruct (str_unit (cube_units (_cube s)) =? u) eqn:He; cbn [negb when].
  { left. split; [reflexivity | right]. now apply String.eqb_eq. }
  apply String.eqb_neq in He. right.
  unfold cube_convert_units.
  destruct (is_unknown (cube_units (_cube s))) eqn:Hk; cbn [lift_result].
  { right. left. repeat split; assumption. }
  destruct (is_convertible (cube_units (_cube s)) u) eqn:Hc; cbn [lift_result].
  - left. repeat split; assumption.
  - right. right. repeat split; assumption.
Qed.

(** X10.  The data phase meets units that do not convert with an exception
    of the library, not with a report.  When the specification declares
    units and the cube has other units, check_data raises at its first
    statement, in both modes, with nothing checked, reported or changed: the
    UnitConversionError of iris when the units of the cube are unknown, and
    the ValueError of cf_units when they are known and not convertible to
    the effective units. *)
Theorem check_data_inconvertible_units (s : CMORCheck) :
  truthy (vi_units (_cmor_var s)) = true ->
  str_unit (cube_units (_cube s)) <> effective_units (_cmor_var s) ->
  (is_unknown (cube_units (_cube s)) = true ->
   check_data s = (Raise UnitConversionError, s))
  /\
  (is_unknown (cube_units (_cube s)) = false ->
   is_convertible (cube_units (_cube s)) (effective_units (_cmor_var s))
   = false ->
   check_data s = (Raise ValueError, s)).
Proof.
  intros Ht Hne.
  destruct (convert_cube_units_cases s)
    as [[_ [H|H]]|[(_ & _ & _ & Hc & Hk)|[(H & _ & _ & Hk)|(H & _ & _ & Hk & Hc)]]];
    try congruence.
  - split; [congruence | ]. intros _ Hc'. congruence.
  - split; [ | congruence]. intros _. unfold check_data. now apply bind_raise.
  - split; [congruence | ]. intros _ _. unfold check_data. now apply bind_raise.
Qed.

(** The data phase without automatic fixes *)
Lemma data_phase_plain (s : CMORCheck) :
  automatic_fixes s = false ->
  let u := effective_units (_cmor_var s) in
  _cube (snd (check_data s)) = _cube s
  \/ (truthy (vi_units (_cmor_var s)) = true
      /\ str_unit (cube_units (_cube s)) <> u
      /\ is_convertible (cube_units (_cube s)) u = true
      /\ _cube (snd (check_data s)) = with_units (_cube s) (mkUnit u None)).
Proof.
  intros Ha u.
  assert (Hrest : forall c st, plain c st ->
            _cube (snd ((_check_coords_data ;; report_warnings ;;
                         report_errors ;; x <- get ;; ret (_cube x)) st))
            = c).
  { intros c st Hst.
    apply (after_bind (plain c) (fun x => _cube x = c));
      [apply check_coords_data_plain | exact Hst | now intros x [Hx _] | ].
    intros s1 Hs1.
    apply (after_bind (plain c) (fun x => _cube x = c));
      [ apply inv_report_warnings; plain_side | exact Hs1
      | now intros x [Hx _] | ].
    clear s1 Hs1. intros s1 Hs1.
    apply (after_bind (plain c) (fun x => _cube x = c));
      [ apply inv_report_errors; plain_side | exact Hs1
      | now intros x [Hx _] | ].
    clear s1 Hs1. intros s1 [Hs1 _]. exact Hs1. }
  unfold check_data.
  destruct (convert_cube_units_cases s)
    as [[H _]|[(H & H1 & H2 & H3 & _)|[[H _]|[H _]]]].
  - left. rewrite (bind_ok _ _ _ _ _ H). apply Hrest. now split.
  - right. repeat split; try assumption.
    rewrite (bind_ok _ _ _ _ _ H). apply Hrest. now split.
  - left. now rewrite (bind_raise _ _ _ _ _ H).
  - left. now rewrite (bind_raise _ _ _ _ _ H).
Qed.

(** X11.  Without automatic fixes the data phase changes at most the units
    of the cube: whether it returns or raises, the cube is the one it was
    given, or that cube with the effective units of the specification in
    place of units that differed and were convertible. *)
Theorem data_phase_without_fixes (s : CMORCheck) :
  automatic_fixes s = false ->
  let u := effective_units (_cmor_var s) in
  _cube (snd (check_data s)) = _cube s
  \/ (truthy (vi_units (_cmor_var s)) = true
      /\ str_unit (cube_units (_cube s)) <> u
      /\ is_convertible (cube_units (_cube s)) u = true
      /\ _cube (snd (check_data s)) = with_units (_cube s) (mkUnit u None)).
Proof.
  intros Ha u.
  destruct (data_phase_plain s Ha) as [H|(H1 & H2 & H3 & H4)].
  - now left.
  - right. split; [exact H1 | split; [exact H2 | split; [exact H3 | exact H4]]].
Qed.

End WithoutFixes.

(** The sample cube with the latitudes from north to south and a time axis
    in days since 2000, checked without automatic fixes in collect-all mode:
    the phase raises for the latitudes, and leaves them as they were. *)
Lemma metadata_phase_without_fixes_witness :
  let t := set_units (Sample.time_coord [15; 45; 75]%Q)
             (mkUnit "days since 2000-1-1 00:00:00" (Some "standard")) in
  let cube := set_dim_coord Sample.tas_north_first 0 t in
  let s := init cube Sample.tas_info None false false in
  exists c1 E,
    _cube (snd (check_metadata (L := Lib360.lib) s)) = extend c1 E
    /\ nth_error (dim_coords c1) 1 = Some (Sample.lat_coord [45; -45]%Q).
Proof.
  intros t cube s.
  destruct (metadata_phase_without_fixes (L := Lib360.lib) s eq_refl)
    as (c1 & E & H1 & _ & [H2|(i & coord & p & H2 & H3)]).
  - exists c1, E. split; [exact H1 | ]. rewrite H2. reflexivity.
  - exists c1, E. split; [exact H1 | ].
    vm_compute in H2. injection H2 as <- <- <-. rewrite H3. reflexivity.
Defined.

(** Kelvin does not convert to percent: the data phase of the sample cube
    under the specification of the land area fraction raises ValueError.
    The salinity cube that was loaded with unknown units and has not been
    repaired raises UnitConversionError. *)
Lemma check_data_inconvertible_units_witness :
  let s := init Sample.tas Sample.sftlf_info None false false in
  let so := init (Sample.so_cube "sea_water_salinity") Sample.so_info None
              false false in
  check_data (L := Lib360.lib) s = (Raise ValueError, s)
  /\ check_data (L := Lib360.lib) so = (Raise UnitConversionError, so).
Proof.
  intros s so. split.
  - apply (check_data_inconvertible_units (L := Lib360.lib) s);
      [reflexivity | discriminate | reflexivity | reflexivity].
  - apply (check_data_inconvertible_units (L := Lib360.lib) so);
      [reflexivity | discriminate | reflexivity].
Defined.

(** The data phase of the sample cube with the latitudes from north to
    south, without automatic fixes, leaves the cube as it is. *)
Lemma data_phase_without_fixes_witness :
  let s := init Sample.tas_north_first Sample.tas_info None false false in
  _cube (snd (check_data (L := Lib360.lib) s)) = Sample.tas_north_first.
Proof.
  intros s.
  destruct (data_phase_without_fixes (L := Lib360.lib) s eq_refl)
    as [H|(_ & H & _)].
  - exact H.
  - exfalso. apply H. reflexivity.
Defined.

(** ** The units of a coordinate *)

Section CoordinateUnits.

Context {L : Library}.

Lemma check_coord_values_keeps_flag info i coord vn b :
  inv (fun st => automatic_fixes st = b) any_exn
    (_check_coord_values info i coord vn).
Proof.
  apply inv_check_coord_values with (R := any_cube);
    first [ exact Logic.I
          | unfold any_exn, any_cube; simpl; intros; assumption
          | unfold any_exn, any_cube; simpl; intuition congruence ].
Qed.

(** With automatic fixes on, what follows the units block of [_check_coord]
    is the check of the values alone. *)
Lemma values_then_no_direction cmor i coord vn s :
  automatic_fixes s = true ->
  (_check_coord_values cmor i coord vn ;;
   st <- get ;;
   when (negb (automatic_fixes st))
     (_check_coord_monotonicity_and_direction cmor coord vn)) s
  = _check_coord_values cmor i coord vn s.
Proof.
  intros Ha. unfold bind at 1.
  pose proof (proj1 (check_coord_values_keeps_flag cmor i coord vn true s Ha))
    as Hk.
  destruct (_check_coord_values cmor i coord vn s) as [[[]|e] s1];
    [ | reflexivity].
  cbn [snd] in Hk. rewrite (bind_ok get _ s1 s1 s1) by reflexivity.
  now rewrite Hk.
Qed.

(** The units block of [_check_coord], by the outcome of the [try] block *)
Lemma units_block_run cmor i coord vn s :
  truthy (ci_units cmor) && negb (str_unit (units coord) =? ci_units cmor)
  = true ->
  opt_eqb (var_name coord) (Some "time") = false ->
  let attempt :=
    if automatic_fixes s then try_convert_units cmor coord else Ok None in
  _check_coord cmor i coord vn s =
  match attempt with
  | Ok (Some coord') =>
      (_check_coord_values cmor i coord' vn ;;
       st <- get ;;
       when (negb (automatic_fixes st))
         (_check_coord_monotonicity_and_direction cmor coord' vn))
        (set_cube (set_dim_coord (_cube s) i coord') s)
  | Ok None =>
      (report_error _attr_msg
         [vn; "units"; ci_units cmor; str_unit (units coord)] ;;
       _check_coord_values cmor i coord vn ;;
       st <- get ;;
       when (negb (automatic_fixes st))
         (_check_coord_monotonicity_and_direction cmor coord vn)) s
  | Raise e => (Raise e, s)
  end.
Proof.
  intros Hcond Htime attempt. unfold _check_coord. rewrite Htime, Hcond.
  rewrite bind_assoc. rewrite (bind_ok get _ s s s) by reflexivity.
  rewrite bind_assoc. subst attempt.
  destruct (automatic_fixes s).
  - destruct (try_convert_units cmor coord) as [[coord'|]|e];
      cbn [lift_result].
    + rewrite (bind_ok (ret (Some coord')) _ s (Some coord') s)
        by reflexivity.
      rewrite bind_assoc. erewrite bind_ok by reflexivity.
      now rewrite (bind_ok (ret coord') _ _ coord' _) by reflexivity.
    + rewrite (bind_ok (ret None) _ s None s) by reflexivity.
      rewrite bind_assoc. apply bind_ext. intros [] s1.
      now rewrite (bind_ok (ret coord) _ s1 coord s1) by reflexivity.
    + reflexivity.
  - rewrite (bind_ok (ret None) _ s None s) by reflexivity.
    rewrite bind_assoc. apply bind_ext. intros [] s1.
    now rewrite (bind_ok (ret coord) _ s1 coord s1) by reflexivity.
Qed.

(** X12.  The units of a coordinate other than time whose units are not
    those of its specification.  With automatic fixes, units of the
    specification that cf_units accepts, and a coordinate whose units are
    known and convert, the coordinate of the cube is converted in place,
    nothing is reported for the units, the values are checked on the
    converted coordinate, and when the check returns the coordinate of the
    cube has the units of the specification (with the calendar it had).
    With automatic fixes, accepted units of the specification and a
    coordinate of unknown units, the UnitConversionError of iris passes the
    handler for ValueError: the check raises it, with nothing reported or
    changed.  In the other cases, that is without automatic fixes, or when
    cf_units rejects the units of the specification, or when known units do
    not convert, the units error is reported: raised in fail-fast mode with
    the cube as it was, appended in collect-all mode, where the check goes
    on with the coordinate as it is. *)
Theorem coordinate_units_repair cmor i coord vn (s : CMORCheck) :
  nth_error (dim_coords (_cube s)) i = Some coord ->
  opt_eqb (var_name coord) (Some "time") = false ->
  truthy (ci_units cmor) = true ->
  str_unit (units coord) <> ci_units cmor ->
  let new_unit := mkUnit (ci_units cmor) (calendar (units coord)) in
  let valid := valid_unit (ci_units cmor) (calendar (units coord)) in
  let msg :=
    vn ++ ": units should be " ++ ci_units cmor ++ ", not "
    ++ str_unit (units coord) in
  (forall p,
     automatic_fixes s = true -> valid = true ->
     is_unknown (units coord) = false ->
     convert_points (units coord) new_unit (points coord) = Some p ->
     let coord' := set_units (set_points coord p) new_unit in
     _check_coord cmor i coord vn s
     = _check_coord_values cmor i coord' vn
         (set_cube (set_dim_coord (_cube s) i coord') s)
     /\ (forall s', _check_coord cmor i coord vn s = (Ok tt, s') ->
         exists x, nth_error (dim_coords (_cube s')) i = Some x
                   /\ units x = new_unit))
  /\
  (automatic_fixes s = true -> valid = true ->
   is_unknown (units coord) = true ->
   _check_coord cmor i coord vn s = (Raise UnitConversionError, s))
  /\
  (automatic_fixes s = false \/ valid = false
   \/ (is_unknown (units coord) = false
       /\ convert_points (units coord) new_unit (points coord) = None) ->
   (_failerr s = true ->
    _check_coord cmor i coord vn s
    = (Raise (CMORCheckError
                (msg ++ nl ++ "in cube:" ++ nl ++ str_cube (_cube s))), s))
   /\
   (_failerr s = false ->
    _check_coord cmor i coord vn s
    = (_check_coord_values cmor i coord vn ;;
       st <- get ;;
       when (negb (automatic_fixes st))
         (_check_coord_monotonicity_and_direction cmor coord vn))
        (set_errors (_errors s ++ [msg])%list s))).
Proof.
  intros Hi Htime Hu Hne new_unit valid msg.
  assert (Hcond : truthy (ci_units cmor)
                  && negb (str_unit (units coord) =? ci_units cmor) = true).
  { rewrite Hu. apply String.eqb_neq in Hne. now rewrite Hne. }
  pose proof (units_block_run cmor i coord vn s Hcond Htime) as Hrun0.
  cbv zeta in Hrun0.
  split; [ | split].
  - intros p Ha Hv Hk Hp coord'.
    assert (Hrun : _check_coord cmor i coord vn s
                   = _check_coord_values cmor i coord' vn
                       (set_cube (set_dim_coord (_cube s) i coord') s)).
    { rewrite Hrun0, Ha. unfold try_convert_units, coord_convert_units.
      fold valid new_unit. rewrite Hv, Hk, Hp. cbn [negb]. fold coord'.
      now apply values_then_no_direction. }
    split; [exact Hrun | ].
    intros s' H. rewrite Hrun in H.
    assert (Hi' : nth_error
                    (dim_coords
                       (_cube (set_cube (set_dim_coord (_cube s) i coord') s)))
                    i = Some coord').
    { cbn [_cube set_cube]. unfold set_dim_coord.
      cbn [dim_coords with_coords].
      eapply nth_error_replace_nth. exact Hi. }
    destruct (check_coord_values_units _ _ _ _ _ _ Hi' H) as (x & Hx & Hux).
    exists x. split; [exact Hx | ]. rewrite Hux. reflexivity.
  - intros Ha Hv Hk. rewrite Hrun0, Ha.
    assert (Hx : try_convert_units cmor coord = Raise UnitConversionError)
      by (apply try_convert_units_escapes; now repeat split).
    now rewrite Hx.
  - intros Hno.
    assert (Hnone : (if automatic_fixes s then try_convert_units cmor coord
                     else Ok None) = Ok None).
    { destruct (automatic_fixes s); [ | reflexivity].
      apply try_convert_units_caught.
      destruct Hno as [Hno | [Hno | Hno]];
        [discriminate | now left | now right]. }
    rewrite Hrun0, Hnone.
    split; intros Hm.
    + apply bind_raise.
      rewrite report_error_fail_fast by exact Hm.
      now rewrite format_attr_msg.
    + erewrite bind_ok.
      2:{ rewrite report_error_collect by exact Hm.
          rewrite format_attr_msg. reflexivity. }
      reflexivity.
Qed.

End CoordinateUnits.

(** Latitudes given in plain degrees are brought to degrees_north; latitudes
    of unknown units make the check raise UnitConversionError; without
    automatic fixes the units are reported. *)
Lemma coordinate_units_repair_witness :
  let lat := set_units (Sample.lat_coord [-45; 45]%Q) (mkUnit "degrees" None) in
  let s := init (set_dim_coord Sample.tas 1 lat) Sample.tas_info None
             false true in
  let lat_u :=
    set_units (Sample.lat_coord [-45; 45]%Q) (mkUnit "unknown" None) in
  let s_u := init (set_dim_coord Sample.tas 1 lat_u) Sample.tas_info None
               false true in
  let s_plain := init (set_dim_coord Sample.tas 1 lat) Sample.tas_info None
                   true false in
  (exists x,
     nth_error
       (dim_coords
          (_cube (snd (_check_coord (L := Lib360.lib) Sample.lat_info 1 lat
                         "lat" s)))) 1 = Some x
     /\ units x = mkUnit "degrees_north" None)
  /\ _check_coord (L := Lib360.lib) Sample.lat_info 1 lat_u "lat" s_u
     = (Raise UnitConversionError, s_u)
  /\ exists text,
       _check_coord (L := Lib360.lib) Sample.lat_info 1 lat "lat" s_plain
       = (Raise (CMORCheckError text), s_plain).
Proof.
  intros lat s lat_u s_u s_plain. split; [ | split].
  - destruct (coordinate_units_repair (L := Lib360.lib) Sample.lat_info 1 lat
                "lat" s eq_refl eq_refl eq_refl ltac:(discriminate))
      as [H _].
    destruct (H [-45; 45]%Q eq_refl eq_refl eq_refl eq_refl) as [_ H2].
    apply H2. vm_compute. reflexivity.
  - destruct (coordinate_units_repair (L := Lib360.lib) Sample.lat_info 1
                lat_u "lat" s_u eq_refl eq_refl eq_refl ltac:(discriminate))
      as (_ & H & _).
    apply H; reflexivity.
  - destruct (coordinate_units_repair (L := Lib360.lib) Sample.lat_info 1 lat
                "lat" s_plain eq_refl eq_refl eq_refl ltac:(discriminate))
      as (_ & _ & H).
    destruct (H (or_introl eq_refl)) as [H1 _].
    eexists. apply H1. reflexivity.
Defined.

(** ** The names of the dimensions *)

(** Whether the cube has the coordinate as [_check_dim_names] wants it: one
    coordinate with the output name as its variable name, and with the
    standard name of the specification *)
Definition dim_name_fits (c : Cube) (coordinate : CoordinateInfo) : bool :=
  ci_generic_level coordinate
  || match coord_by_var_name c (ci_out_name coordinate) with
     | Some x =>
         opt_eqb (standard_name x) (Some (ci_standard_name coordinate))
     | None => false
     end.

(** The message for a coordinate that does not fit *)
Definition dim_name_message (c : Cube) (coordinate : CoordinateInfo)
  : string :=
  match coord_by_var_name c (ci_out_name coordinate) with
  | Some x =>
      ci_out_name coordinate ++ ": standard_name should be "
      ++ ci_standard_name coordinate ++ ", not " ++ str_opt (standard_name x)
  | None =>
      match coord_by_name c (ci_standard_name coordinate) with
      | Some co =>
          "Coordinate " ++ ci_name coordinate ++ " has var name "
          ++ str_opt (var_name co) ++ " instead of " ++ ci_out_name coordinate
      | None => ci_name coordinate ++ ": does not exist"
      end
  end.

Section DimNames.

Context {L : Library}.

Lemma format_var_name_msg (a b c : string) :
  format "Coordinate {0} has var name {1} instead of {2}" [a; b; c]
  = Some ("Coordinate " ++ a ++ " has var name " ++ b ++ " instead of " ++ c).
Proof.
  vm_compute. repeat f_equal; try reflexivity; apply append_empty_r.
Qed.

(** One round of the loop of [_check_dim_names] *)
Definition dim_names_body (kc : string * CoordinateInfo) : M unit :=
  let '(_, coordinate) := kc in
  if ci_generic_level coordinate then ret tt
  else
    s <- get ;;
    match coord_by_var_name (_cube s) (ci_out_name coordinate) with
    | Some cube_coord =>
        when (negb (opt_eqb (standard_name cube_coord)
                            (Some (ci_standard_name coordinate))))
          (report_error _attr_msg
             [ci_out_name coordinate; "standard_name";
              ci_standard_name coordinate;
              str_opt (standard_name cube_coord)])
    | None =>
        match coord_by_name (_cube s) (ci_standard_name coordinate) with
        | Some coord =>
            report_error "Coordinate {0} has var name {1} instead of {2}"
              [ci_name coordinate; str_opt (var_name coord);
               ci_out_name coordinate]
        | None =>
            report_error _does_msg [ci_name coordinate; "exist"]
        end
    end.

Lemma check_dim_names_loop s :
  _check_dim_names s = for_each (vi_coordinates (_cmor_var s)) dim_names_body s.
Proof.
  unfold _check_dim_names. rewrite (bind_ok get _ s s s) by reflexivity.
  generalize (vi_coordinates (_cmor_var s)) as l. intros l. revert s.
  induction l as [|[k c] r IH]; intros s; [reflexivity | ].
  cbn [for_each]. apply bind_ext. intros [] s1. apply IH.
Qed.

Lemma dim_names_body_run k coordinate s :
  dim_names_body (k, coordinate) s =
  if dim_name_fits (_cube s) coordinate then (Ok tt, s)
  else if _failerr s then
    (Raise (CMORCheckError
              (dim_name_message (_cube s) coordinate ++ nl ++ "in cube:" ++ nl
               ++ str_cube (_cube s))), s)
  else (Ok tt,
        set_errors
          (_errors s ++ [dim_name_message (_cube s) coordinate])%list s).
Proof.
  unfold dim_names_body, dim_name_fits, dim_name_message.
  destruct (ci_generic_level coordinate); [reflexivity | ].
  rewrite (bind_ok get _ s s s) by reflexivity. cbn [orb].
  destruct (coord_by_var_name (_cube s) (ci_out_name coordinate)) as [x|].
  - destruct (opt_eqb (standard_name x) (Some (ci_standard_name coordinate)));
      [reflexivity | ].
    cbn [negb when]. destruct (_failerr s) eqn:Hf.
    + rewrite report_error_fail_fast by exact Hf.
      now rewrite format_attr_msg.
    + rewrite report_error_collect by exact Hf.
      now rewrite format_attr_msg.
  - destruct (coord_by_name (_cube s) (ci_standard_name coordinate)) as [co|];
      destruct (_failerr s) eqn:Hf.
    + rewrite report_error_fail_fast by exact Hf.
      now rewrite format_var_name_msg.
    + rewrite report_error_collect by exact Hf.
      now rewrite format_var_name_msg.
    + rewrite report_error_fail_fast by exact Hf.
      now rewrite format_does_msg.
    + rewrite report_error_collect by exact Hf.
      now rewrite format_does_msg.
Qed.

Lemma set_errors_same s : set_errors (_errors s ++ [])%list s = s.
Proof. destruct s. simpl. now rewrite app_nil_r. Qed.

Lemma dim_names_collect l s :
  _failerr s = false ->
  for_each l dim_names_body s
  = (Ok tt,
     set_errors
       (_errors s
        ++ map (dim_name_message (_cube s))
             (filter (fun c => negb (dim_name_fits (_cube s) c))
                (map snd l)))%list s).
Proof.
  revert s. induction l as [|[k c] r IH]; intros s Hf.
  - simpl. now rewrite set_errors_same.
  - cbn [for_each map filter snd].
    unfold bind at 1. rewrite dim_names_body_run.
    destruct (dim_name_fits (_cube s) c); cbn [negb].
    + now apply IH.
    + rewrite Hf.
      rewrite IH by exact Hf. cbn [_cube _errors set_errors map].
      unfold set_errors. cbn. now rewrite <- app_assoc.
Qed.

Lemma dim_names_fail_fast l s :
  _failerr s = true ->
  for_each l dim_names_body s
  = match filter (fun c => negb (dim_name_fits (_cube s) c)) (map snd l) with
    | [] => (Ok tt, s)
    | c :: _ =>
        (Raise (CMORCheckError
                  (dim_name_message (_cube s) c ++ nl ++ "in cube:" ++ nl
                   ++ str_cube (_cube s))), s)
    end.
Proof.
  intros Hf. induction l as [|[k c] r IH]; [reflexivity | ].
  cbn [for_each map filter snd].
  unfold bind at 1. rewrite dim_names_body_run.
  destruct (dim_name_fits (_cube s) c); cbn [negb].
  - exact IH.
  - rewrite Hf. reflexivity.
Qed.

(** X13.  The check of the dimension names goes through the coordinates of
    the specification in their order and leaves out the generic levels.  A
    coordinate fits when the cube has exactly one coordinate with its output
    name as variable name and this one has its standard name.  For one that
    does not fit the message tells which of three things is wrong: the
    standard name of the coordinate found, the variable name of the
    coordinate found by standard name instead, or that there is no such
    coordinate.  In collect-all mode the check appends one message for each
    coordinate that does not fit and returns; in fail-fast mode it raises
    for the first of them.  It changes nothing else, and it returns with
    the state as it was exactly when every coordinate fits. *)
Theorem dim_names_report (s : CMORCheck) :
  let misfits :=
    filter (fun c => negb (dim_name_fits (_cube s) c))
      (coordinates_values (_cmor_var s)) in
  (_failerr s = false ->
   _check_dim_names s
   = (Ok tt,
      set_errors
        (_errors s ++ map (dim_name_message (_cube s)) misfits)%list s))
  /\
  (_failerr s = true ->
   _check_dim_names s
   = match misfits with
     | [] => (Ok tt, s)
     | c :: _ =>
         (Raise (CMORCheckError
                   (dim_name_message (_cube s) c ++ nl ++ "in cube:" ++ nl
                    ++ str_cube (_cube s))), s)
     end)
  /\
  (_check_dim_names s = (Ok tt, s) <-> misfits = []).
Proof.
  intros misfits. subst misfits. unfold coordinates_values.
  rewrite check_dim_names_loop.
  assert (H1 := dim_names_collect (vi_coordinates (_cmor_var s)) s).
  assert (H2 := dim_names_fail_fast (vi_coordinates (_cmor_var s)) s).
  split; [exact H1 | split; [exact H2 | ]].
  destruct (_failerr s).
  - rewrite (H2 eq_refl).
    destruct (filter _ _); split; intros H; try reflexivity; discriminate.
  - rewrite (H1 eq_refl).
    destruct (filter _ _) as [|c r]; split; intros H; try discriminate.
    + reflexivity.
    + cbn [map]. now rewrite set_errors_same.
    + exfalso. injection H as H. apply (f_equal _errors) in H.
      cbn [_errors set_errors] in H.
      apply (f_equal (@length string)) in H.
      rewrite length_app in H. cbn [map length] in H. lia.
Qed.

End DimNames.

(** The land area fraction has no time axis: under the specification of the
    air temperature that is the one thing reported. *)
Lemma dim_names_report_witness :
  let s := init Sample.sftlf Sample.tas_info None false false in
  _check_dim_names (L := Lib360.lib) s
  = (Ok tt, set_errors ["time: does not exist"] s).
Proof.
  intros s.
  rewrite (proj1 (dim_names_report (L := Lib360.lib) s) eq_refl).
  reflexivity.
Defined.

(** ** The rank *)

(** The dimensions that count for the rank: those of the coordinates of the
    cube found under the standard names of the specification's coordinates
    that are no generic levels and have no value of their own *)
Definition rank_dimensions (c : Cube) (l : list CoordinateInfo) : list nat :=
  flat_map (fun coordinate =>
    if ci_generic_level coordinate then []
    else if truthy (ci_value coordinate) then []
    else match coord_by_name c (ci_standard_name coordinate) with
         | Some co => dims co
         | None => []
         end) l.

(** The rank that [_check_rank] compares with the number of dimensions of
    the cube: one for each generic level, and one for each dimension that
    counts, however many coordinates lie along it *)
Definition expected_rank (c : Cube) (l : list CoordinateInfo) : nat :=
  length (filter ci_generic_level l)
  + length (nodup Nat.eq_dec (rank_dimensions c l)).

Section Rank.

Context {L : Library}.

Lemma rank_scan_closed c l rank dimensions :
  rank_scan c l rank dimensions
  = ((rank + length (filter ci_generic_level l))%nat,
     (dimensions ++ rank_dimensions c l)%list).
Proof.
  revert rank dimensions.
  induction l as [|coordinate r IH]; intros rank dimensions.
  - simpl. now rewrite Nat.add_0_r, app_nil_r.
  - cbn [rank_scan rank_dimensions flat_map filter].
    fold (rank_dimensions c r).
    destruct (ci_generic_level coordinate).
    + rewrite IH. cbn [length app]. f_equal. lia.
    + destruct (truthy (ci_value coordinate)); cbn [negb];
        [now rewrite IH | ].
      destruct (coord_by_name c (ci_standard_name coordinate));
        rewrite IH; [ | reflexivity].
      now rewrite <- app_assoc.
Qed.

Lemma nodup_length_perm (l l' : list nat) :
  Permutation l l' ->
  length (nodup Nat.eq_dec l) = length (nodup Nat.eq_dec l').
Proof.
  intros H. apply Permutation_length. apply NoDup_Permutation.
  - apply NoDup_nodup.
  - apply NoDup_nodup.
  - intros x. rewrite !nodup_In. split; intros Hx.
    + now apply (Permutation_in _ H).
    + now apply (Permutation_in _ (Permutation_sym H)).
Qed.

Lemma filter_length_perm {A} (f : A -> bool) (l l' : list A) :
  Permutation l l' -> length (filter f l) = length (filter f l').
Proof.
  induction 1 as [|x l l' _ IH|x y l|l l' l'' _ IH1 _ IH2]; simpl.
  - reflexivity.
  - destruct (f x); simpl; now rewrite IH.
  - destruct (f x), (f y); reflexivity.
  - now rewrite IH1.
Qed.

(** X14.  The rank check compares the number of dimensions of the cube with
    a count that can be read off the specification and the cube at once: one
    for each generic level of the specification, plus the number of distinct
    cube dimensions under the coordinates that the cube has for the standard
    names of the other coordinates without a value.  Coordinates with a
    value, and coordinates the cube lacks, do not count; two coordinates
    along one dimension count once; the order of the coordinates in the
    specification does not matter.  When the numbers agree the check returns
    with the state as it was; when they differ it reports that the variable
    does not match the coordinate rank. *)
Theorem rank_report (s : CMORCheck) :
  let expected :=
    expected_rank (_cube s) (coordinates_values (_cmor_var s)) in
  let msg :=
    str_opt (cube_var_name (_cube s)) ++ ": does not match coordinate rank" in
  (cube_ndim (_cube s) = expected -> _check_rank s = (Ok tt, s))
  /\
  (cube_ndim (_cube s) <> expected ->
   (_failerr s = false ->
    _check_rank s = (Ok tt, set_errors (_errors s ++ [msg])%list s))
   /\
   (_failerr s = true ->
    _check_rank s
    = (Raise (CMORCheckError
                (msg ++ nl ++ "in cube:" ++ nl ++ str_cube (_cube s))), s)))
  /\
  (forall c l l', Permutation l l' -> expected_rank c l = expected_rank c l').
Proof.
  intros expected msg.
  assert (Hrun : _check_rank s =
                 when (negb (cube_ndim (_cube s) =? expected)%nat)
                   (report_error _does_msg
                      [str_opt (cube_var_name (_cube s));
                       "match coordinate rank"]) s).
  { unfold _check_rank. rewrite (bind_ok get _ s s s) by reflexivity.
    rewrite rank_scan_closed. reflexivity. }
  split; [ | split].
  - intros H. rewrite Hrun. apply Nat.eqb_eq in H. now rewrite H.
  - intros H. rewrite Hrun. apply Nat.eqb_neq in H. rewrite H.
    cbn [negb when]. split; intros Hm.
    + rewrite report_error_collect by exact Hm.
      now rewrite format_does_msg.
    + rewrite report_error_fail_fast by exact Hm.
      now rewrite format_does_msg.
  - intros c l l' H. unfold expected_rank. f_equal.
    + now apply filter_length_perm.
    + apply nodup_length_perm. unfold rank_dimensions.
      now apply Permutation_flat_map.
Qed.

End Rank.

(** The sample cube and the land area fraction match the ranks of their
    specifications; the land area fraction stripped of its coordinates does
    not. *)
Lemma rank_report_witness :
  let good := init Sample.tas Sample.tas_info None false false in
  let bad := init Sample.sftlf Sample.sftlf_info None false false in
  let bad' := init (with_coords Sample.sftlf [] []) Sample.sftlf_info None
                false false in
  _check_rank (L := Lib360.lib) good = (Ok tt, good)
  /\ _check_rank (L := Lib360.lib) bad = (Ok tt, bad)
  /\ _errors (snd (_check_rank (L := Lib360.lib) bad'))
     = ["sftlf: does not match coordinate rank"].
Proof.
  intros good bad bad'. split; [ | split].
  - apply (proj1 (rank_report (L := Lib360.lib) good)). reflexivity.
  - apply (proj1 (rank_report (L := Lib360.lib) bad)). reflexivity.
  - destruct (rank_report (L := Lib360.lib) bad') as (_ & H & _).
    destruct H as [H _]; [vm_compute; discriminate | ].
    rewrite (H eq_refl). reflexivity.
Defined.

(** ** The direction after the reversal *)

Section Reversal.

Context {L : Library}.

Lemma Qltb_asym x y : Qltb x y = true -> Qltb y x = false.
Proof.
  unfold Qltb. rewrite negb_true_iff, negb_false_iff. intros H.
  apply Qle_bool_iff. apply Qlt_le_weak. apply Qnot_le_lt.
  intros Hle. apply Qle_bool_iff in Hle. congruence.
Qed.

Lemma increasing_snoc l x :
  l <> [] -> increasing (l ++ [x]) = increasing l && Qltb (last l x) x.
Proof.
  induction l as [|a r IH]; intros Hl; [contradiction | ].
  destruct r as [|b r'].
  - simpl. now rewrite andb_true_r.
  - change (increasing ((a :: b :: r') ++ [x]))
      with (Qltb a b && increasing ((b :: r') ++ [x])).
    rewrite IH by discriminate.
    change (increasing (a :: b :: r'))
      with (Qltb a b && increasing (b :: r')).
    change (last (a :: b :: r') x) with (last (b :: r') x).
    now rewrite andb_assoc.
Qed.

Lemma decreasing_snoc l x :
  l <> [] -> decreasing (l ++ [x]) = decreasing l && Qltb x (last l x).
Proof.
  induction l as [|a r IH]; intros Hl; [contradiction | ].
  destruct r as [|b r'].
  - simpl. now rewrite andb_true_r.
  - change (decreasing ((a :: b :: r') ++ [x]))
      with (Qltb b a && decreasing ((b :: r') ++ [x])).
    rewrite IH by discriminate.
    change (decreasing (a :: b :: r'))
      with (Qltb b a && decreasing (b :: r')).
    change (last (a :: b :: r') x) with (last (b :: r') x).
    now rewrite andb_assoc.
Qed.

Lemma rev_cons_not_nil {A} (b : A) r : rev (b :: r) <> [].
Proof. simpl. intros H. now apply app_eq_nil in H. Qed.

Lemma decreasing_rev l : decreasing l = true -> increasing (rev l) = true.
Proof.
  induction l as [|a r IH]; intros H; [reflexivity | ].
  destruct r as [|b r']; [reflexivity | ].
  change (decreasing (a :: b :: r'))
    with (Qltb b a && decreasing (b :: r')) in H.
  apply andb_true_iff in H. destruct H as [Hba Hr].
  change (rev (a :: b :: r')) with (rev (b :: r') ++ [a])%list.
  rewrite increasing_snoc by apply rev_cons_not_nil.
  rewrite (IH Hr). cbn [rev]. now rewrite last_last.
Qed.

Lemma increasing_rev l : increasing l = true -> decreasing (rev l) = true.
Proof.
  induction l as [|a r IH]; intros H; [reflexivity | ].
  destruct r as [|b r']; [reflexivity | ].
  change (increasing (a :: b :: r'))
    with (Qltb a b && increasing (b :: r')) in H.
  apply andb_true_iff in H. destruct H as [Hba Hr].
  change (rev (a :: b :: r')) with (rev (b :: r') ++ [a])%list.
  rewrite decreasing_snoc by apply rev_cons_not_nil.
  rewrite (IH Hr). cbn [rev]. now rewrite last_last.
Qed.

Lemma rev_two {A} (p0 p1 : A) rest :
  exists q0 q1 rest', rev (p0 :: p1 :: rest) = q0 :: q1 :: rest'.
Proof.
  destruct (rev (p0 :: p1 :: rest)) as [|q0 [|q1 r]] eqn:H.
  - apply (f_equal (@length A)) in H. rewrite length_rev in H. discriminate.
  - apply (f_equal (@length A)) in H. rewrite length_rev in H. discriminate.
  - now exists q0, q1, r.
Qed.

(** The check on a monotonic coordinate whose first two points are in the
    stored direction returns and changes nothing. *)
Lemma direction_in_order cmor coord vn s q0 q1 rest dir :
  is_monotonic coord = Ok true ->
  points coord = q0 :: q1 :: rest ->
  ci_stored_direction cmor = dir ->
  (dir = "increasing" /\ Qltb q1 q0 = false)
  \/ (dir = "decreasing" /\ Qltb q0 q1 = false) ->
  _check_coord_monotonicity_and_direction cmor coord vn s = (Ok tt, s).
Proof.
  intros Hm Hp Hd Hdir. unfold _check_coord_monotonicity_and_direction.
  rewrite Hm. cbn [lift_result].
  rewrite (bind_ok (ret true) _ s true s) by reflexivity.
  cbn [negb when].
  rewrite (bind_ok (ret tt) _ s tt s) by reflexivity.
  rewrite Hp. cbn [length Nat.eqb]. unfold point_at. rewrite Hp.
  cbn [nth_error lift_opt]. rewrite Hd.
  destruct Hdir as [[-> H] | [-> H]]; cbn; rewrite H; reflexivity.
Qed.

(** X15.  The reversal settles the direction.  For a monotonic dimension
    coordinate of one dimension whose first two points run against the
    stored direction, with automatic fixes: the check returns with nothing
    reported and leaves the cube with the points of the coordinate in the
    reverse order; the same check on the coordinate as the cube now has it
    returns and changes nothing. *)
Theorem reversal_settles_direction
    (s : CMORCheck) cmor coord vn i p0 p1 rest dir :
  points coord = p0 :: p1 :: rest ->
  ci_stored_direction cmor = dir ->
  (dir = "increasing" /\ (p1 < p0)%Q) \/ (dir = "decreasing" /\ (p0 < p1)%Q) ->
  automatic_fixes s = true ->
  ndim coord = 1%nat -> dims coord <> [] ->
  nth_error (dim_coords (_cube s)) i = Some coord ->
  is_monotonic coord = Ok true ->
  let coord' := set_points coord (rev (points coord)) in
  exists s',
    _check_coord_monotonicity_and_direction cmor coord vn s = (Ok tt, s')
    /\ nth_error (dim_coords (_cube s')) i = Some coord'
    /\ _errors s' = _errors s
    /\ _check_coord_monotonicity_and_direction cmor coord' vn s' = (Ok tt, s').
Proof.
  intros Hp Hd Hdir Ha Hn Hdims Hi Hm coord'.
  exists (set_cube (reverse (_cube s) (dims coord)) s).
  assert (Hlt : forall x y, (x < y)%Q -> Qltb x y = true).
  { intros x y H. unfold Qltb. apply negb_true_iff.
    destruct (Qle_bool y x) eqn:E; [ | reflexivity].
    apply Qle_bool_iff in E. exfalso. now apply (Qlt_not_le x y). }
  split; [ | split; [ | split; [reflexivity | ]]].
  - rewrite (direction_mismatch_run cmor coord vn s p0 p1 rest dir Hp Hd Hdir).
    unfold bind at 1. rewrite monotonic_test_run, Hm.
    rewrite (bind_ok get _ s s s) by reflexivity.
    rewrite Ha, Hn. unfold _reverse_coord. rewrite Hn. reflexivity.
  - cbn [_cube set_cube]. unfold reverse. cbn [dim_coords with_coords].
    rewrite (map_nth_error _ _ _ Hi).
    unfold on_dims. destruct (dims coord) as [|d ds]; [contradiction | ].
    cbn [existsb]. now rewrite Nat.eqb_refl.
  - destruct (rev_two p0 p1 rest) as (q0 & q1 & rest' & Hrev).
    assert (Hpts : points coord' = q0 :: q1 :: rest').
    { unfold coord'. cbn [points set_points]. now rewrite Hp. }
    rewrite is_monotonic_returns in Hm by (try exact Hn; now rewrite Hp).
    injection Hm as Hm. rewrite Hp in Hm.
    assert (Hmono : forall b,
              increasing (points coord') || decreasing (points coord') = b ->
              is_monotonic coord' = Ok b).
    { intros b <-. apply is_monotonic_returns; [exact Hn | ].
      rewrite Hpts. discriminate. }
    destruct Hdir as [[-> H] | [-> H]].
    + assert (Hdec : decreasing (p0 :: p1 :: rest) = true).
      { apply orb_true_iff in Hm. destruct Hm as [Hm|Hm]; [ | exact Hm].
        change (increasing (p0 :: p1 :: rest))
          with (Qltb p0 p1 && increasing (p1 :: rest)) in Hm.
        rewrite (Qltb_asym _ _ (Hlt _ _ H)) in Hm. discriminate. }
      apply decreasing_rev in Hdec. rewrite Hrev in Hdec.
      change (increasing (q0 :: q1 :: rest'))
        with (Qltb q0 q1 && increasing (q1 :: rest')) in Hdec.
      apply andb_true_iff in Hdec. destruct Hdec as [Hq Hrest].
      apply (direction_in_order cmor coord' vn _ q0 q1 rest' "increasing");
        try assumption.
      * apply Hmono. rewrite Hpts.
        change (increasing (q0 :: q1 :: rest'))
          with (Qltb q0 q1 && increasing (q1 :: rest')).
        now rewrite Hq, Hrest.
      * left. split; [reflexivity | now apply Qltb_asym].
    + assert (Hinc : increasing (p0 :: p1 :: rest) = true).
      { apply orb_true_iff in Hm. destruct Hm as [Hm|Hm]; [exact Hm | ].
        change (decreasing (p0 :: p1 :: rest))
          with (Qltb p1 p0 && decreasing (p1 :: rest)) in Hm.
        rewrite (Qltb_asym _ _ (Hlt _ _ H)) in Hm. discriminate. }
      apply increasing_rev in Hinc. rewrite Hrev in Hinc.
      change (decreasing (q0 :: q1 :: rest'))
        with (Qltb q1 q0 && decreasing (q1 :: rest')) in Hinc.
      apply andb_true_iff in Hinc. destruct Hinc as [Hq Hrest].
      apply (direction_in_order cmor coord' vn _ q0 q1 rest' "decreasing");
        try assumption.
      * apply Hmono. rewrite Hpts.
        change (decreasing (q0 :: q1 :: rest'))
          with (Qltb q1 q0 && decreasing (q1 :: rest')).
        rewrite Hq, Hrest. now rewrite orb_true_r.
      * right. split; [reflexivity | now apply Qltb_asym].
Qed.

End Reversal.

(** The latitudes from north to south are turned round, and then pass. *)
Lemma reversal_settles_direction_witness :
  let lat := Sample.lat_coord [45; -45]%Q in
  let s := init Sample.tas_north_first Sample.tas_info None false true in
  exists s',
    _check_coord_monotonicity_and_direction (L := Lib360.lib)
      Sample.lat_info lat "lat" s = (Ok tt, s')
    /\ nth_error (dim_coords (_cube s')) 1
       = Some (Sample.lat_coord [-45; 45]%Q)
    /\ _check_coord_monotonicity_and_direction (L := Lib360.lib)
         Sample.lat_info (Sample.lat_coord [-45; 45]%Q) "lat" s'
       = (Ok tt, s').
Proof.
  intros lat s.
  assert (Hlt : (-45 < 45)%Q) by reflexivity.
  destruct (reversal_settles_direction (L := Lib360.lib) s Sample.lat_info
              lat "lat" 1 45%Q (-45)%Q [] "increasing" eq_refl eq_refl
              (or_introl (conj eq_refl Hlt)) eq_refl eq_refl
              ltac:(discriminate) eq_refl eq_refl)
    as (s' & H1 & H2 & _ & H4).
  exists s'. split; [exact H1 | split; [exact H2 | exact H4]].
Defined.

(** ** The standard name and the attribute positive *)

(** The outcome of reporting the error [msg] in the state [s] *)
Definition error_reported (msg : string) {L : Library} (s : CMORCheck)
  : result unit * CMORCheck :=
  if _failerr s then
    (Raise (CMORCheckError
              (msg ++ nl ++ "in cube:" ++ nl ++ str_cube (_cube s))), s)
  else (Ok tt, set_errors (_errors s ++ [msg])%list s).

Section NamesAndAttributes.

Context {L : Library}.

Lemma format_not_present (v a : string) :
  format "{}: attribute {} not present" [v; a]
  = Some (v ++ ": attribute " ++ a ++ " not present").
Proof.
  vm_compute. repeat f_equal; try reflexivity; apply append_empty_r.
Qed.

Lemma bind_ret_tt (m : M unit) s : (m ;; ret tt) s = m s.
Proof. unfold bind. destruct (m s) as [[[]|e] s1]; reflexivity. Qed.

Lemma report_error_run m a msg s :
  format m a = Some msg -> report_error m a s = error_reported msg s.
Proof.
  intros F. unfold error_reported. destruct (_failerr s) eqn:Hf.
  - rewrite report_error_fail_fast by exact Hf. now rewrite F.
  - rewrite report_error_collect by exact Hf. now rewrite F.
Qed.

(** X16.  The two blocks of the variable check that compare names.  The
    standard name: nothing is checked when the specification has none;
    otherwise a cube with another standard name, or with none, is reported.
    The attribute positive: nothing is checked when the specification has
    none; a cube without the attribute gets a warning and no error; a cube
    with another value (compared letter by letter) is reported; neither
    block changes the cube. *)
Theorem names_and_attributes_report (s : CMORCheck) :
  let var := str_opt (cube_var_name (_cube s)) in
  let std := vi_standard_name (_cmor_var s) in
  let pos := vi_positive (_cmor_var s) in
  check_standard_name s
  = (if negb (truthy std)
        || opt_eqb (cube_standard_name (_cube s)) (Some std)
     then (Ok tt, s)
     else error_reported
            (var ++ ": standard_name should be " ++ std ++ ", not "
             ++ str_opt (cube_standard_name (_cube s))) s)
  /\
  check_attributes s
  = (if negb (truthy pos) then (Ok tt, s)
     else match attr_get (attributes (_cube s)) "positive" with
          | None =>
              (Ok tt, warned [var ++ ": attribute positive not present"] s)
          | Some v =>
              if v =? pos then (Ok tt, s)
              else error_reported
                     (var ++ ": positive should be " ++ pos ++ ", not " ++ v)
                     s
          end).
Proof.
  intros var std pos. split.
  - unfold check_standard_name.
    rewrite (bind_ok get _ s s s) by reflexivity. fold std.
    destruct (truthy std); cbn [negb orb when]; [ | reflexivity].
    destruct (opt_eqb (cube_standard_name (_cube s)) (Some std));
      cbn [negb when]; [reflexivity | ].
    apply report_error_run. apply format_attr_msg.
  - unfold check_attributes. cbn [for_each]. rewrite bind_ret_tt.
    rewrite (bind_ok get _ s s s) by reflexivity.
    unfold getattr. cbn [String.eqb Ascii.eqb Bool.eqb].
    rewrite (bind_ok (ret (vi_positive (_cmor_var s))) _ s pos s)
      by reflexivity.
    destruct (truthy pos); cbn [negb when]; [ | reflexivity].
    destruct (attr_get (attributes (_cube s)) "positive") as [v|].
    + destruct (v =? pos); cbn [negb when]; [reflexivity | ].
      apply report_error_run. apply format_attr_msg.
    + apply report_warning_run. apply format_not_present.
Qed.

End NamesAndAttributes.

(** ** Where warnings come from *)

(** The warning list and the two output channels are those of [s]. *)
Definition channels_of (s st : CMORCheck) : Prop :=
  _warnings st = _warnings s /\ printed st = printed s
  /\ logged st = logged s.

Section Channels.

Context {L : Library}.

Ltac channels_side :=
  first [ exact Logic.I
        | unfold channels_of, any_exn, any_cube; simpl; intros; assumption
        | unfold channels_of, any_exn, any_cube; simpl; intuition congruence ].

Lemma channels_refl s : channels_of s s.
Proof. repeat split. Qed.

(** X17.  Warnings come from two places only, the attribute positive and
    the requested values of a coordinate.  The checks of the standard name,
    of the units, of the dimension names, of the time axis, of the rank and
    of the direction, the repair of the legacy units, the error report and
    the attachment of the time categories never warn, print or log, whatever
    they find and whether they return or raise. *)
Theorem warnings_come_from_two_checks (s : CMORCheck) :
  channels_of s (snd (check_standard_name s))
  /\ channels_of s (snd (fix_invalid_units s))
  /\ channels_of s (snd (check_units s))
  /\ channels_of s (snd (_check_dim_names s))
  /\ channels_of s (snd (_check_time_coord s))
  /\ channels_of s (snd (_check_rank s))
  /\ channels_of s (snd (_check_coords_data s))
  /\ channels_of s (snd (report_errors s))
  /\ channels_of s (snd (_add_auxiliar_time_coordinates s))
  /\ (forall cmor coord vn,
        channels_of s
          (snd (_check_coord_monotonicity_and_direction cmor coord vn s)))
  /\ (forall info coord vn l,
        channels_of s (snd (check_valid_min info coord vn l s))
        /\ channels_of s (snd (check_valid_max info coord vn l s))).
Proof.
  assert (K : forall {A} (m : M A),
            inv (channels_of s) any_exn m -> channels_of s (snd (m s))).
  { intros A m H. exact (proj1 (H s (channels_refl s))). }
  split; [apply K; apply inv_check_standard_name; channels_side | ].
  split; [apply K; apply inv_fix_invalid_units with (R := any_cube);
          channels_side | ].
  split; [apply K; apply inv_check_units; channels_side | ].
  split; [apply K; apply inv_check_dim_names; channels_side | ].
  split; [apply K; apply inv_check_time_coord with (R := any_cube);
          channels_side | ].
  split; [apply K; apply inv_check_rank; channels_side | ].
  split; [apply K; apply inv_check_coords_data with (R := any_cube);
          channels_side | ].
  split; [apply K; apply inv_report_errors; channels_side | ].
  split; [apply K;
          apply inv_add_auxiliar_time_coordinates with (R := any_cube);
          channels_side | ].
  split.
  - intros cmor coord vn. apply K.
    apply inv_check_direction with (R := any_cube); channels_side.
  - intros info coord vn l. split; apply K.
    + apply inv_check_valid_min; channels_side.
    + apply inv_check_valid_max; channels_side.
Qed.

End Channels.

(** * The functions of the module

    [_get_cmor_checker], [cmor_check_metadata], [cmor_check_data] and
    [cmor_check] look the specification of a variable up in the CMOR tables
    and run the phases of a checker on a cube. *)

(** What a call of one of these functions may raise: the two exceptions of
    the lookup, or what the checker raises *)
Inductive call_exn :=
| NotImplementedError (msg : string)
| KeyError (key : string)
| Raised (e : exn).

Inductive outcome (A : Type) :=
| Returned (a : A)
| Failed (e : call_exn).
Arguments Returned {A} a.
Arguments Failed {A} e.

(** A CMOR table as far as the module uses it: [get_variable(mip,
    short_name)], which is [None] for a variable the table does not have *)
Record CMORTable := mkTable {
  get_variable : string -> string -> option VariableInfo
}.

(** The object that the closure [_checker] builds.  [CMORCheck(cube, None,
    ...)] with a frequency is built without complaint; each of its phases
    then raises [AttributeError] at its first statement, which reads an
    attribute of the specification. *)
Inductive checker_object :=
| Checker (s : CMORCheck)
| NoSpecification.

(** How a call has left the cube it was given *)
Inductive call_result :=
| Returns (cube : Cube)
| Raises (e : call_exn) (cube : Cube).

Section Functions.

Context {L : Library}.

(** The dict [CMOR_TABLES] of the module [table], in the order of its
    keys *)
Variable CMOR_TABLES : list (string * CMORTable).

Definition table_names : list string := map fst CMOR_TABLES.

Fixpoint lookup_table (l : list (string * CMORTable)) (k : string)
  : option CMORTable :=
  match l with
  | [] => None
  | (k', t) :: r => if k' =? k then Some t else lookup_table r k
  end.

(** [CMOR_TABLES[k]] *)
Definition tables_item (k : string) : outcome CMORTable :=
  match lookup_table CMOR_TABLES k with
  | Some t => Returned t
  | None => Failed (KeyError k)
  end.

(** The closure [_checker]; [CMORCheck.__init__] reads the frequency of the
    specification when it is given none. *)
Definition _checker (var_info : option VariableInfo)
    (frequency : option string) (fail_on_error automatic_fixes : bool)
    (cube : Cube) : result checker_object :=
  match var_info with
  | Some v => Ok (Checker (init cube v frequency fail_on_error automatic_fixes))
  | None =>
      match frequency with
      | None => Raise AttributeError
      | Some _ => Ok NoSpecification
      end
  end.

Definition _get_cmor_checker (table mip short_name : string)
    (frequency : option string) (fail_on_error automatic_fixes : bool)
  : outcome (Cube -> result checker_object) :=
  if negb (existsb (String.eqb table) table_names) then
    match format ("No CMOR checker implemented for table {}." ++ nl
                  ++ "The following options are available: {}")
                 [table; join ", " table_names] with
    | Some msg => Failed (NotImplementedError msg)
    | None => Failed (Raised IndexError)
    end
  else
    match tables_item table with
    | Failed e => Failed e
    | Returned cmor_table =>
        match get_variable cmor_table mip short_name with
        | Some v =>
            Returned (_checker (Some v) frequency fail_on_error
                        automatic_fixes)
        | None =>
            match tables_item "custom" with
            | Failed e => Failed e
            | Returned custom =>
                Returned (_checker (get_variable custom mip short_name)
                            frequency fail_on_error automatic_fixes)
            end
        end
    end.

(** A phase of the object that [_checker] has built, on the cube the
    caller holds.  The functions below build the checker without automatic
    fixes; the two statements of the class that put another cube in place of
    the checker's are under automatic fixes, so the cube of the checker is
    the caller's cube throughout, and what the phase has done to it the
    caller sees, also when the phase raises. *)
Definition run_phase (phase : M Cube) (built : result checker_object)
    (cube : Cube) : call_result :=
  match built with
  | Raise e => Raises (Raised e) cube
  | Ok NoSpecification => Raises (Raised AttributeError) cube
  | Ok (Checker s) =>
      match phase s with
      | (Ok _, s') => Returns (_cube s')
      | (Raise e, s') => Raises (Raised e) (_cube s')
      end
  end.

Definition cmor_check_metadata (cube : Cube)
    (cmor_table mip short_name : string) (frequency : option string)
  : call_result :=
  match _get_cmor_checker cmor_table mip short_name frequency true false with
  | Failed e => Raises e cube
  | Returned checker => run_phase check_metadata (checker cube) cube
  end.

Definition cmor_check_data (cube : Cube)
    (cmor_table mip short_name : string) (frequency : option string)
  : call_result :=
  match _get_cmor_checker cmor_table mip short_name frequency true false with
  | Failed e => Raises e cube
  | Returned checker => run_phase check_data (checker cube) cube
  end.

Definition cmor_check (cube : Cube)
    (cmor_table mip short_name : string) (frequency : option string)
  : call_result :=
  match cmor_check_metadata cube cmor_table mip short_name frequency with
  | Raises e cube => Raises e cube
  | Returns cube =>
      cmor_check_data cube cmor_table mip short_name frequency
  end.

(** The specification that [_get_cmor_checker] hands to the checker: the
    entry of the table, or else the entry of the table custom *)
Definition specification (table mip short_name : string)
  : option VariableInfo :=
  match lookup_table CMOR_TABLES table with
  | None => None
  | Some cmor_table =>
      match get_variable cmor_table mip short_name with
      | Some v => Some v
      | None =>
          match lookup_table CMOR_TABLES "custom" with
          | Some custom => get_variable custom mip short_name
          | None => None
          end
      end
  end.

Lemma format_no_checker (t o : string) :
  format ("No CMOR checker implemented for table {}." ++ nl
          ++ "The following options are available: {}") [t; o]
  = Some ("No CMOR checker implemented for table " ++ t ++ "." ++ nl
          ++ "The following options are available: " ++ o).
Proof.
  vm_compute. repeat f_equal; try reflexivity; apply append_empty_r.
Qed.

Lemma lookup_table_in l k t :
  lookup_table l k = Some t -> existsb (String.eqb k) (map fst l) = true.
Proof.
  induction l as [|[k' t'] r IH]; [discriminate | ].
  cbn [lookup_table map fst existsb].
  rewrite (String.eqb_sym k k').
  destruct (k' =? k); [reflexivity | exact IH].
Qed.

Lemma lookup_table_none l k :
  lookup_table l k = None <-> ~ In k (map fst l).
Proof.
  induction l as [|[k' t'] r IH]; [simpl; tauto | ].
  cbn [lookup_table map fst In].
  destruct (k' =? k) eqn:Hk.
  - apply String.eqb_eq in Hk. split; [discriminate | tauto].
  - apply String.eqb_neq in Hk. rewrite IH. tauto.
Qed.

Lemma get_cmor_checker_found table mip short_name frequency f a v :
  specification table mip short_name = Some v ->
  exists checker,
    _get_cmor_checker table mip short_name frequency f a = Returned checker
    /\ forall cube, checker cube = Ok (Checker (init cube v frequency f a)).
Proof.
  unfold specification, _get_cmor_checker, tables_item.
  destruct (lookup_table CMOR_TABLES table) as [t|] eqn:Ht; [ | discriminate].
  unfold table_names. rewrite (lookup_table_in _ _ _ Ht). cbn [negb].
  destruct (get_variable t mip short_name) as [v0|].
  - intros [= ->]. eexists. split; [reflexivity | reflexivity].
  - destruct (lookup_table CMOR_TABLES "custom") as [ct|]; [ | discriminate].
    intros H. eexists. split; [reflexivity | ]. intros cube. now rewrite H.
Qed.

(** X18.  The lookup of the specification.  For a table that the dict of
    tables does not have, each of the three functions raises
    NotImplementedError with the name asked for and the names there are,
    and the cube is not touched.  For a table it has, the entry of this
    table for the variable is the specification; only when the table has no
    entry is the table custom asked: without a table custom the KeyError of
    the dict is raised, and when custom has no entry either the checker is
    built on no specification, so that building it or its first statement
    raises AttributeError; in neither case is the cube touched. *)
Theorem specification_lookup
    (cube : Cube) (table mip short_name : string) (frequency : option string) :
  let msg :=
    "No CMOR checker implemented for table " ++ table ++ "." ++ nl
    ++ "The following options are available: " ++ join ", " table_names in
  (~ In table table_names ->
   cmor_check_metadata cube table mip short_name frequency
   = Raises (NotImplementedError msg) cube
   /\ cmor_check_data cube table mip short_name frequency
      = Raises (NotImplementedError msg) cube
   /\ cmor_check cube table mip short_name frequency
      = Raises (NotImplementedError msg) cube)
  /\
  (forall t,
     lookup_table CMOR_TABLES table = Some t ->
     (forall v, get_variable t mip short_name = Some v ->
        specification table mip short_name = Some v)
     /\
     (get_variable t mip short_name = None ->
      ~ In "custom" table_names ->
      cmor_check_metadata cube table mip short_name frequency
      = Raises (KeyError "custom") cube
      /\ cmor_check_data cube table mip short_name frequency
         = Raises (KeyError "custom") cube)
     /\
     (forall custom,
        get_variable t mip short_name = None ->
        lookup_table CMOR_TABLES "custom" = Some custom ->
        specification table mip short_name
        = get_variable custom mip short_name
        /\ (get_variable custom mip short_name = None ->
            cmor_check_metadata cube table mip short_name frequency
            = Raises (Raised AttributeError) cube
            /\ cmor_check_data cube table mip short_name frequency
               = Raises (Raised AttributeError) cube)))
  /\
  (forall v,
     specification table mip short_name = Some v ->
     cmor_check_metadata cube table mip short_name frequency
     = run_phase check_metadata
         (Ok (Checker (init cube v frequency true false))) cube
     /\ cmor_check_data cube table mip short_name frequency
        = run_phase check_data
            (Ok (Checker (init cube v frequency true false))) cube).
Proof.
  intros msg. split; [ | split].
  - intros Hn.
    assert (Hg : _get_cmor_checker table mip short_name frequency true false
                 = Failed (NotImplementedError msg)).
    { unfold _get_cmor_checker.
      destruct (existsb (String.eqb table) table_names) eqn:He.
      - apply existsb_eqb_in in He. contradiction.
      - cbn [negb]. now rewrite format_no_checker. }
    assert (Hm : cmor_check_metadata cube table mip short_name frequency
                 = Raises (NotImplementedError msg) cube)
      by (unfold cmor_check_metadata; now rewrite Hg).
    split; [exact Hm | split].
    + unfold cmor_check_data. now rewrite Hg.
    + unfold cmor_check. now rewrite Hm.
  - intros t Ht. split; [ | split].
    + intros v Hv. unfold specification. now rewrite Ht, Hv.
    + intros Hv Hc. apply lookup_table_none in Hc.
      assert (Hg : _get_cmor_checker table mip short_name frequency true false
                   = Failed (KeyError "custom")).
      { unfold _get_cmor_checker, tables_item, table_names.
        rewrite (lookup_table_in _ _ _ Ht). cbn [negb].
        now rewrite Ht, Hv, Hc. }
      unfold cmor_check_metadata, cmor_check_data. now rewrite Hg.
    + intros custom Hv Hc. split.
      * unfold specification. now rewrite Ht, Hv, Hc.
      * intros Hcv.
        assert (Hg : _get_cmor_checker table mip short_name frequency
                       true false
                     = Returned (_checker None frequency true false)).
        { unfold _get_cmor_checker, tables_item, table_names.
          rewrite (lookup_table_in _ _ _ Ht). cbn [negb].
          now rewrite Ht, Hv, Hc, Hcv. }
        unfold cmor_check_metadata, cmor_check_data. rewrite Hg.
        unfold _checker, run_phase. destruct frequency; split; reflexivity.
  - intros v Hv.
    destruct (get_cmor_checker_found table mip short_name frequency
                true false v Hv) as (checker & Hg & Hc).
    unfold cmor_check_metadata, cmor_check_data. rewrite Hg, Hc.
    split; reflexivity.
Qed.

Lemma check_metadata_categories s c s' :
  check_metadata s = (Ok c, s') ->
  c = _cube s'
  /\ forall nm, In nm time_categories -> In nm (map name (aux_coords c)).
Proof.
  intros H. rewrite check_metadata_attaches in H.
  apply bind_inv_ok in H. destruct H as ([] & s1 & _ & H).
  apply bind_inv_ok in H. destruct H as ([] & s2 & Hadd & H).
  injection H as <- <-. split; [reflexivity | ].
  destruct (add_auxiliar_extends _ _ Hadd) as (E & -> & _ & Hall).
  exact Hall.
Qed.

Lemma check_data_returns_cube s c s' :
  check_data s = (Ok c, s') -> c = _cube s'.
Proof.
  intros H. unfold check_data in H.
  apply bind_inv_ok in H. destruct H as ([] & s1 & _ & H).
  apply bind_inv_ok in H. destruct H as ([] & s2 & _ & H).
  apply bind_inv_ok in H. destruct H as ([] & s3 & _ & H).
  apply bind_inv_ok in H. destruct H as ([] & s4 & _ & H).
  now injection H as <- <-.
Qed.

Lemma no_specification_raises cube table mip short_name frequency :
  specification table mip short_name = None ->
  exists e,
    cmor_check_metadata cube table mip short_name frequency = Raises e cube.
Proof.
  unfold specification, cmor_check_metadata, _get_cmor_checker, tables_item.
  destruct (negb (existsb (String.eqb table) table_names)).
  { intros _. destruct (format _ _); eexists; reflexivity. }
  destruct (lookup_table CMOR_TABLES table) as [t|];
    [ | intros _; eexists; reflexivity].
  destruct (get_variable t mip short_name) as [v|]; [discriminate | ].
  destruct (lookup_table CMOR_TABLES "custom") as [ct|];
    [ | intros _; eexists; reflexivity].
  intros ->. unfold _checker, run_phase.
  destruct frequency; eexists; reflexivity.
Qed.

(** X19.  What cmor_check has done when it returns.  It has run the
    metadata phase and then the data phase, each with a checker of its own,
    in fail-fast mode and without automatic fixes, on the specification
    found for the variable.  The cube it returns has an auxiliary
    coordinate for each of the four time categories; when the specification
    declares units, its units are the effective units of the specification;
    its attributes are those it came with; its dimension coordinates are
    those it came with, except that a time axis has been brought to the
    reference epoch and the simplified calendar. *)
Theorem cmor_check_returns
    (cube : Cube) (table mip short_name : string) (frequency : option string)
    (c : Cube) :
  cmor_check cube table mip short_name frequency = Returns c ->
  exists v,
    specification table mip short_name = Some v
    /\ (forall nm, In nm time_categories -> In nm (map name (aux_coords c)))
    /\ (truthy (vi_units v) = true ->
        str_unit (cube_units c) = effective_units v)
    /\ attributes c = attributes cube
    /\ (dim_coords c = dim_coords cube
        \/ exists i coord p,
             time_axis cube = Some (i, coord, p)
             /\ dim_coords c
                = replace_nth i (normalized_time coord p) (dim_coords cube)).
Proof.
  unfold cmor_check.
  destruct (cmor_check_metadata cube table mip short_name frequency)
    as [c1|e c1] eqn:Hm; [ | discriminate].
  intros Hd.
  destruct (specification table mip short_name) as [v|] eqn:Hv.
  2:{ destruct (no_specification_raises cube table mip short_name frequency
                  Hv) as [e He]. congruence. }
  exists v. split; [reflexivity | ].
  destruct (get_cmor_checker_found table mip short_name frequency true false
              v Hv) as (checker & Hg & Hc).
  unfold cmor_check_metadata in Hm. rewrite Hg, Hc in Hm.
  unfold cmor_check_data in Hd. rewrite Hg, Hc in Hd.
  unfold run_phase in Hm, Hd.
  set (s0 := init cube v frequency true false) in *.
  set (s1 := init c1 v frequency true false) in *.
  destruct (check_metadata s0) as [[x|e] s0'] eqn:H0; [ | discriminate].
  destruct (check_data s1) as [[y|e] s1'] eqn:H1; [ | discriminate].
  injection Hm as Hm. injection Hd as Hd.
  destruct (check_metadata_categories _ _ _ H0) as [Hx Hcat].
  pose proof (check_data_returns_cube _ _ _ H1) as Hy.
  pose proof (check_data_units s1 y s1') as Hunits.
  pose proof (data_phase_plain s1 eq_refl) as Hplain.
  rewrite H1 in Hplain. cbn [snd] in Hplain.
  destruct (metadata_phase_plain s0 eq_refl) as (c0 & E & Hform & _ & Hc0).
  rewrite H0 in Hform. cbn [snd] in Hform.
  assert (Hc1 : c1 = extend c0 E) by congruence.
  assert (Hsame : aux_coords c = aux_coords c1
                  /\ dim_coords c = dim_coords c1
                  /\ attributes c = attributes c1).
  { rewrite <- Hd.
    destruct Hplain as [-> | (_ & _ & _ & ->)]; repeat split. }
  destruct Hsame as (Ha & Hdim & Hattr).
  split; [ | split; [ | split]].
  - intros nm Hnm. rewrite Ha, <- Hm, <- Hx. now apply Hcat.
  - intros Ht. rewrite <- Hd, <- Hy. now apply Hunits.
  - rewrite Hattr, Hc1.
    destruct Hc0 as [-> | (i & coord & p & _ & ->)]; reflexivity.
  - rewrite Hdim, Hc1.
    destruct Hc0 as [-> | (i & coord & p & Hax & ->)].
    + now left.
    + right. exists i, coord, p. split; [exact Hax | reflexivity].
Qed.

End Functions.

(** A dict of two tables: one with the air temperature of the monthly
    atmosphere table, and an empty table custom *)
Definition sample_tables : list (string * CMORTable) :=
  [("CMIP5",
    mkTable (fun mip short_name =>
      if (mip =? "Amon") && (short_name =? "tas") then Some Sample.tas_info
      else None));
   ("custom", mkTable (fun _ _ => None))].

(** A table that is not there, and a variable that no table has *)
Lemma specification_lookup_witness :
  cmor_check (L := Lib360.lib) sample_tables Sample.tas "CMIP9" "Amon" "tas"
    None
  = Raises (NotImplementedError
              ("No CMOR checker implemented for table CMIP9." ++ nl
               ++ "The following options are available: CMIP5, custom"))
      Sample.tas
  /\ cmor_check_metadata (L := Lib360.lib) sample_tables Sample.tas "CMIP5"
       "Amon" "pr" (Some "mon")
     = Raises (Raised AttributeError) Sample.tas.
Proof.
  split.
  - destruct (specification_lookup (L := Lib360.lib) sample_tables Sample.tas
                "CMIP9" "Amon" "tas" None) as (H & _).
    destruct H as (_ & _ & H); [ | exact H].
    simpl. intros [H|[H|[]]]; discriminate.
  - destruct (specification_lookup (L := Lib360.lib) sample_tables Sample.tas
                "CMIP5" "Amon" "pr" (Some "mon")) as (_ & H & _).
    destruct (H _ eq_refl) as (_ & _ & H3).
    destruct (H3 _ eq_refl eq_refl) as [_ H4].
    exact (proj1 (H4 eq_refl)).
Defined.

(** The sample cube passes both phases and comes back in kelvin. *)
Lemma cmor_check_returns_witness :
  exists c,
    cmor_check (L := Lib360.lib) sample_tables Sample.tas "CMIP5" "Amon" "tas"
      None = Returns c
    /\ str_unit (cube_units c) = "K"
    /\ In "year" (map name (aux_coords c)).
Proof.
  destruct (cmor_check (L := Lib360.lib) sample_tables Sample.tas "CMIP5"
              "Amon" "tas" None) as [c|e c] eqn:H;
    [ | vm_compute in H; discriminate].
  exists c. split; [reflexivity | ].
  destruct (cmor_check_returns (L := Lib360.lib) sample_tables Sample.tas
              "CMIP5" "Amon" "tas" None c H) as (v & Hv & Hcat & Hu & _).
  vm_compute in Hv. injection Hv as <-. split.
  - apply Hu. reflexivity.
  - apply Hcat. simpl. tauto.
Defined.

(** ** The valid range of a coordinate *)

(** The outcome of reporting the errors [msgs] one after the other in the
    state [s]: all appended in collect-all mode, the first raised in
    fail-fast mode *)
Definition errors_reported (msgs : list string) {L : Library}
    (s : CMORCheck) : result unit * CMORCheck :=
  if _failerr s then
    match msgs with
    | [] => (Ok tt, s)
    | msg :: _ =>
        (Raise (CMORCheckError
                  (msg ++ nl ++ "in cube:" ++ nl ++ str_cube (_cube s))), s)
    end
  else (Ok tt, set_errors (_errors s ++ msgs)%list s).

Section ValidRange.

Context {L : Library}.

Lemma format_bound_max (b : string) :
  format "> {} =" [b] = Some ("> " ++ b ++ " =").
Proof.
  vm_compute. repeat f_equal; try reflexivity; apply append_empty_r.
Qed.

Lemma warned_keeps msgs s :
  _failerr (warned msgs s) = _failerr s
  /\ automatic_fixes (warned msgs s) = automatic_fixes s
  /\ _cube (warned msgs s) = _cube s
  /\ _errors (warned msgs s) = _errors s.
Proof. unfold warned. destruct (_failerr s) eqn:Hf; simpl; now rewrite ?Hf. Qed.

(** X20.  The valid range of a coordinate, where no automatic fix applies
    (the coordinate is no longitude, or automatic fixes are off).  After the
    warnings for the requested values, a point below a valid minimum of the
    specification is reported, and then a point above a valid maximum; a
    bound that the specification leaves empty is not checked.  A coordinate
    whose points all lie within the bounds is not reported.  The cube is
    never changed. *)
Theorem valid_range_report info i coord vn (s : CMORCheck) qs lo hi :
  Forall2 (fun v q => py_float v = Some q) (ci_requested info) qs ->
  (truthy (ci_valid_min info) = true ->
   py_float (ci_valid_min info) = Some lo) ->
  (truthy (ci_valid_max info) = true ->
   py_float (ci_valid_max info) = Some hi) ->
  ci_standard_name info <> "longitude" \/ automatic_fixes s = false ->
  let s1 :=
    warned (map (not_contained coord vn) (missing_points coord qs)) s in
  let below :=
    truthy (ci_valid_min info)
    && existsb (fun p => Qltb p lo) (points coord) in
  let above :=
    truthy (ci_valid_max info)
    && existsb (fun p => Qltb hi p) (points coord) in
  _check_coord_values info i coord vn s
  = errors_reported
      ((if below
        then [(vn ++ ": has values < valid_min = " ++ str_float lo)%string]
        else [])
       ++ (if above
           then [(vn ++ ": has values > valid_max = " ++ str_float hi)%string]
           else []))%list s1.
Proof.
  intros Hqs Hlo Hhi Hno s1 below above.
  destruct (warned_keeps (map (not_contained coord vn)
                            (missing_points coord qs)) s)
    as (Hf1 & Ha1 & _ & _). fold s1 in Hf1, Ha1.
  assert (Hfix : forall st, automatic_fixes st = automatic_fixes s ->
            (ci_standard_name info =? "longitude") && automatic_fixes st
            = false).
  { intros st Hst. rewrite Hst. destruct Hno as [Hn | ->].
    - apply String.eqb_neq in Hn. now rewrite Hn.
    - apply andb_false_r. }
  unfold _check_coord_values.
  rewrite (bind_ok _ _ _ _ _ (requested_values_run coord info vn s qs Hqs)).
  fold s1.
  (* the minimum *)
  assert (Hmin : check_valid_min info coord vn false s1
                 = if below
                   then match error_reported
                                (vn ++ ": has values < valid_min = "
                                 ++ str_float lo) s1 with
                        | (Ok _, st) => (Ok false, st)
                        | (Raise e, st) => (Raise e, st)
                        end
                   else (Ok false, s1)).
  { unfold check_valid_min, below.
    destruct (truthy (ci_valid_min info)); [ | reflexivity].
    rewrite (Hlo eq_refl). cbn [lift_opt andb].
    rewrite (bind_ok (ret lo) _ s1 lo s1) by reflexivity.
    destruct (existsb (fun p => Qltb p lo) (points coord)); [ | reflexivity].
    rewrite (bind_ok get _ s1 s1 s1) by reflexivity.
    rewrite (Hfix s1 Ha1).
    rewrite (bind_ok _ _ s1 "< valid_min =" s1)
      by (unfold fmt; now rewrite format_bound).
    unfold bind.
    rewrite (report_error_run _ _ _ s1
               (format_vals_msg vn "< valid_min =" (str_float lo))).
    unfold error_reported. destruct (_failerr s1); reflexivity. }
  assert (Hmax : forall st,
            automatic_fixes st = automatic_fixes s ->
            check_valid_max info coord vn false st
            = if above
              then match error_reported
                           (vn ++ ": has values > valid_max = "
                            ++ str_float hi) st with
                   | (Ok _, st') => (Ok false, st')
                   | (Raise e, st') => (Raise e, st')
                   end
              else (Ok false, st)).
  { intros st Hst. unfold check_valid_max, above.
    destruct (truthy (ci_valid_max info)); [ | reflexivity].
    rewrite (Hhi eq_refl). cbn [lift_opt andb].
    rewrite (bind_ok (ret hi) _ st hi st) by reflexivity.
    destruct (existsb (fun p => Qltb hi p) (points coord)); [ | reflexivity].
    rewrite (bind_ok get _ st st st) by reflexivity.
    rewrite (Hfix st Hst).
    rewrite (bind_ok _ _ st "> valid_max =" st)
      by (unfold fmt; now rewrite format_bound_max).
    unfold bind.
    rewrite (report_error_run _ _ _ st
               (format_vals_msg vn "> valid_max =" (str_float hi))).
    unfold error_reported. destruct (_failerr st); reflexivity. }
  unfold bind at 1. rewrite Hmin.
  unfold errors_reported, error_reported.
  destruct below; destruct (_failerr s1) eqn:Hf; cbn [app].
  - reflexivity.
  - unfold bind at 1. rewrite Hmax by exact Ha1.
    unfold error_reported. cbn [_failerr set_errors]. rewrite Hf.
    destruct above; cbn [when app].
    + unfold set_errors. cbn. now rewrite <- app_assoc.
    + reflexivity.
  - unfold bind at 1. rewrite Hmax by exact Ha1.
    unfold error_reported. rewrite Hf. destruct above; reflexivity.
  - unfold bind at 1. rewrite Hmax by exact Ha1.
    unfold error_reported. rewrite Hf.
    destruct above; cbn [when app].
    + reflexivity.
    + now rewrite set_errors_same.
Qed.

End ValidRange.

(** Without automatic fixes the longitude 10 degrees west is reported. *)
Lemma valid_range_report_witness :
  let s := init Sample.tas_west Sample.tas_info None false false in
  _check_coord_values (L := Lib360.lib) Sample.lon_info 2
    (Sample.lon_coord [-10; 80; 170; 260]%Q) "lon" s
  = (Ok tt, set_errors ["lon: has values < valid_min = 0.0"] s).
Proof.
  intros s.
  rewrite (valid_range_report (L := Lib360.lib) Sample.lon_info 2
             (Sample.lon_coord [-10; 80; 170; 260]%Q) "lon" s [] 0%Q 360%Q).
  - reflexivity.
  - constructor.
  - reflexivity.
  - reflexivity.
  - now right.
Defined.

(** ** A time axis of one point *)

Section ShortTimeAxis.

Context {L : Library}.

Lemma interval_scan_short vn freq t pts s :
  (length pts <= 1)%nat -> interval_scan vn freq t pts s = (Ok tt, s).
Proof.
  destruct pts as [|p [|q r]]; simpl; intros H; try reflexivity. lia.
Qed.

Lemma cell_points_short coord s :
  (length (points coord) <= 1)%nat -> cell_points coord s = (Ok [], s).
Proof.
  intros H. unfold cell_points.
  assert (Hl : (length (points coord) <? 2)%nat = true)
    by (apply Nat.ltb_lt; lia).
  now rewrite Hl.
Qed.

(** X21.  A time axis with no point or one point has no interval to
    compare: for every frequency the checker supports (mon, yr, dec, day,
    subhr, and a number followed by hr) the time check returns without
    reporting, having brought the axis to the reference epoch. *)
Theorem short_time_axis_passes (s : CMORCheck) i coord p :
  time_axis (_cube s) = Some (i, coord, p) ->
  (length p <= 1)%nat ->
  In (frequency s) ["mon"; "yr"; "dec"; "day"; "subhr"]
  \/ (exists N f,
        frequency s = N ++ "hr" /\ N <> "sub" /\ py_float N = Some f) ->
  _check_time_coord s
  = (Ok tt, set_cube (set_dim_coord (_cube s) i (normalized_time coord p)) s).
Proof.
  intros Hax Hl Hf. rewrite (check_time_coord_run s i coord p Hax).
  set (s' := set_cube (set_dim_coord (_cube s) i (normalized_time coord p)) s).
  set (coord' := normalized_time coord p).
  assert (Hp : (length (points coord') <= 1)%nat) by exact Hl.
  assert (Hfs : frequency s' = frequency s) by reflexivity.
  destruct Hf as [Hf | (N & f & Hf & Hn & Hpf)].
  - simpl in Hf. destruct Hf as [Hf|[Hf|[Hf|[Hf|[Hf|[]]]]]].
    + unfold check_frequency.
      rewrite (bind_ok get _ s' s' s') by reflexivity.
      rewrite Hfs, <- Hf. cbn [String.eqb Ascii.eqb Bool.eqb].
      now rewrite (bind_ok _ _ _ _ _ (cell_points_short coord' s' Hp)).
    + unfold check_frequency.
      rewrite (bind_ok get _ s' s' s') by reflexivity.
      rewrite Hfs, <- Hf. cbn [String.eqb Ascii.eqb Bool.eqb].
      now rewrite (bind_ok _ _ _ _ _ (cell_points_short coord' s' Hp)).
    + rewrite (check_frequency_table coord' _ s' 3600 3660)
        by (rewrite Hfs, <- Hf; reflexivity).
      now apply interval_scan_short.
    + rewrite (check_frequency_table coord' _ s' 1 1)
        by (rewrite Hfs, <- Hf; reflexivity).
      now apply interval_scan_short.
    + rewrite check_frequency_subhr by (rewrite Hfs; now symmetry).
      now apply interval_scan_short.
  - rewrite (check_frequency_hr coord' _ s' N f) by assumption.
    now apply interval_scan_short.
Qed.

End ShortTimeAxis.

(** One monthly mean is a series of the daily frequency as well. *)
Lemma short_time_axis_passes_witness :
  let s := init (Sample.tas_cube [15]%Q [-45; 45]%Q [10; 80]%Q)
             Sample.tas_info (Some "day") false false in
  _check_time_coord (L := Lib360.lib) s = (Ok tt, s).
Proof.
  intros s.
  rewrite (short_time_axis_passes (L := Lib360.lib) s 0
             (Sample.time_coord [15]%Q) [15]%Q eq_refl (le_n 1)).
  - reflexivity.
  - left. simpl. tauto.
Defined.

(** ** The report of the warnings *)

Section WarningsReport.

Context {L : Library}.

(** The message that [report_warnings] logs *)
Definition warnings_message (s : CMORCheck) : string :=
  "There were warnings in variable " ++ str_opt (cube_var_name (_cube s))
  ++ ":" ++ nl ++ join (nl ++ " ") (_warnings s) ++ nl.

Lemma report_warnings_logs s :
  report_warnings s
  = if (0 <? length (_warnings s))%nat
    then (Ok tt, set_logged (logged s ++ [warnings_message s])%list s)
    else (Ok tt, s).
Proof.
  unfold report_warnings, has_warnings.
  rewrite (bind_ok _ _ s (0 <? length (_warnings s))%nat s) by reflexivity.
  destruct (0 <? length (_warnings s))%nat; [ | reflexivity].
  rewrite (bind_ok get _ s s s) by reflexivity.
  erewrite bind_ok by (unfold fmt; now rewrite format_warnings_report).
  reflexivity.
Qed.

(** X22.  The report of the warnings never raises and takes nothing off the
    warning list.  With no warning it does nothing; with warnings it sends
    the logger one message that lists them all, so that a second report, as
    the data phase makes after the metadata phase on the same checker, sends
    the warnings of the first once more. *)
Theorem warnings_are_logged_again (s : CMORCheck) :
  (_warnings s = [] -> report_warnings s = (Ok tt, s))
  /\
  (_warnings s <> [] ->
   report_warnings s
   = (Ok tt, set_logged (logged s ++ [warnings_message s])%list s)
   /\ (report_warnings ;; report_warnings) s
      = (Ok tt,
         set_logged
           (logged s ++ [warnings_message s; warnings_message s])%list s))
  /\
  _warnings (snd (report_warnings s)) = _warnings s.
Proof.
  assert (Hrun := report_warnings_logs s).
  split; [ | split].
  - intros Hw. rewrite Hrun, Hw. reflexivity.
  - intros Hne.
    assert (Hpos : (0 <? length (_warnings s))%nat = true)
      by (destruct (_warnings s); [contradiction | reflexivity]).
    split; [now rewrite Hrun, Hpos | ].
    unfold bind. rewrite Hrun, Hpos. rewrite report_warnings_logs.
    cbn [_warnings set_logged]. rewrite Hpos.
    unfold set_logged, warnings_message. cbn. now rewrite <- app_assoc.
  - rewrite Hrun. destruct (0 <? length (_warnings s))%nat; reflexivity.
Qed.

End WarningsReport.

(** A checker of the sample cube that holds one warning *)
Lemma warnings_are_logged_again_witness :
  let s := set_warnings ["tas: attribute positive not present"]
             (init Sample.tas Sample.tas_info None false false) in
  logged (snd ((report_warnings ;; report_warnings) s))
  = [warnings_message s; warnings_message s].
Proof.
  intros s.
  destruct (warnings_are_logged_again s) as (_ & H & _).
  destruct H as [_ H]; [discriminate | ].
  rewrite H. reflexivity.
Defined.
